(** * Tennis ball physics simulator: ball kinematics, collisions and shot lifecycle

    A shallow embedding of [main.cpp].  The file holds two listings of the
    program: the first one (module [DropSim]) drops a ball vertically on four
    courts, the second one (module [CourtSim]) adds horizontal shots, spin,
    air drag, the net, the receiving player and the automatic relaunch.

    Number model.  A C++ [float] is represented by an exact rational [Q]:
    every literal is the decimal written in the source and every operation is
    the exact one, so rounding is not part of the model.  Comparisons are the
    boolean ones of [Q].  The only partial operation of the per-tick update
    is division; it is embedded as [fdiv] (and [imod] for [%] on [int]),
    which fails on a zero divisor, and [update] runs in the [option] monad.
    Outside [update] the program divides by literal constants only, written
    with the total operations of [Q] and [Z].  An [int] is a [Z]; the
    bounce counter stays far below the width of an [int] (see
    [bounceCount_bounded]).

    What the simulation takes from outside is a parameter: [sqrtf], [cosf],
    [sinf] (libm), the value returned by a call of [rand()], the keyboard
    state and the user's answer to the modal return-shot dialog. *)

From Stdlib Require Import QArith Qabs Qround ZArith List Bool Lia Lqa.
From Stdlib Require Import Ascii.
Import ListNotations.
Local Open Scope Q_scope.

(** ** Arithmetic of the embedding *)

Definition Qltb (a b : Q) : bool := negb (Qle_bool b a).
Definition Qleb (a b : Q) : bool := Qle_bool a b.

(** The [max] and [min] macros of <windows.h>. *)
Definition fmax (a b : Q) : Q := if Qltb b a then a else b.
Definition fmin (a b : Q) : Q := if Qltb a b then a else b.

(** Division that fails on a zero divisor. *)
Definition fdiv (a d : Q) : option Q :=
  if Qeq_bool d 0 then None else Some (a / d).

(** [%] on [int]: the remainder of the division that truncates towards zero;
    it fails on a zero divisor as well. *)
Definition imod (a d : Z) : option Z :=
  if (d =? 0)%Z then None else Some (Z.rem a d).

Notation "a // d" := (fdiv a d) (at level 40, left associativity).
Notation "x <- e ;; k" :=
  (match e with Some x => k | None => None end)
  (at level 61, e at next level, right associativity).

(** ** Constants shared by the two listings *)

Definition GRAVITY : Q := 9.81.
Definition BALL_RADIUS : Q := 0.0335.
Definition INITIAL_HEIGHT : Q := 2.0.
Definition WINDOW_WIDTH : Z := 640.

Inductive CourtType :=
  | ROLAND_GARROS_CLAY
  | WIMBLEDON_GRASS
  | US_OPEN_HARD
  | LAVER_CUP_BLACK.

(** [name], [color] and [ballColor] are only read by the renderer and are
    left out. *)
Record CourtSurface := {
  type : CourtType;
  coefficientOfRestitution : Q;
  friction : Q
}.

Definition courts : list CourtSurface :=
  [ {| type := ROLAND_GARROS_CLAY; coefficientOfRestitution := 0.75; friction := 0.6 |};
    {| type := WIMBLEDON_GRASS;    coefficientOfRestitution := 0.70; friction := 0.4 |};
    {| type := US_OPEN_HARD;       coefficientOfRestitution := 0.73; friction := 0.5 |};
    {| type := LAVER_CUP_BLACK;    coefficientOfRestitution := 0.72; friction := 0.5 |} ].

Definition court (i : nat) : CourtSurface :=
  nth i courts
    {| type := ROLAND_GARROS_CLAY; coefficientOfRestitution := 0.75;
       friction := 0.6 |}.

Record BounceData := {
  bd_time : Q;
  bd_height : Q
}.

(** ** First listing: vertical drop *)

Module DropSim.

Definition DT : Q := 0.016.

Record TennisBall := {
  y : Q;
  vy : Q;
  time : Q;
  bounceCount : Z;
  isActive : bool;
  surface : CourtSurface;
  trajectory : list BounceData;
  bounces : list BounceData
}.

Definition reset (b : TennisBall) : TennisBall :=
  {| y := INITIAL_HEIGHT;
     vy := 0.0;
     time := 0.0;
     bounceCount := 0;
     isActive := true;
     surface := surface b;
     trajectory := [ {| bd_time := 0.0; bd_height := INITIAL_HEIGHT |} ];
     bounces := [] |}.

Definition update (b : TennisBall) (dt : Q) : TennisBall :=
  if negb (isActive b) then b else
  let time1 := time b + dt in
  let vy1 := vy b - GRAVITY * dt in
  let y1 := y b + vy1 * dt in
  let trajectory1 := trajectory b ++ [ {| bd_time := time1; bd_height := y1 |} ] in
  if Qleb y1 0.0 then
    let bounces1 :=
      if (bounceCount b <? 3)%Z
      then bounces b ++ [ {| bd_time := time1; bd_height := 0.0 |} ]
      else bounces b in
    let vy2 := - vy1 * coefficientOfRestitution (surface b) in
    let bounceCount1 := (bounceCount b + 1)%Z in
    if Qltb (Qabs vy2) 0.1 || (10 <? bounceCount1)%Z then
      {| y := 0.0; vy := 0.0; time := time1; bounceCount := bounceCount1;
         isActive := false; surface := surface b;
         trajectory := trajectory1; bounces := bounces1 |}
    else
      {| y := 0.0; vy := vy2; time := time1; bounceCount := bounceCount1;
         isActive := isActive b; surface := surface b;
         trajectory := trajectory1; bounces := bounces1 |}
  else
    {| y := y1; vy := vy1; time := time1; bounceCount := bounceCount b;
       isActive := isActive b; surface := surface b;
       trajectory := trajectory1; bounces := bounces b |}.

(** *** The application of the first listing

    Only the members the simulation reads and writes; the Direct2D members
    belong to the renderer. *)

Record D2DApp := {
  balls : list TennisBall;
  simulationStarted : bool;
  simulationComplete : bool
}.

Definition StartSimulation (a : D2DApp) : D2DApp :=
  {| balls := map reset (balls a);
     simulationStarted := true;
     simulationComplete := false |}.

(** The loop over [balls[i]] of [Update]; the result carries [anyActive]. *)
Fixpoint updateBalls (bs : list TennisBall) : list TennisBall * bool :=
  match bs with
  | [] => ([], false)
  | b :: rest =>
      let b' := update b DT in
      let r := updateBalls rest in
      (b' :: fst r, isActive b' || snd r)
  end.

Definition Update (a : D2DApp) : D2DApp :=
  if negb (simulationStarted a) || simulationComplete a then a else
  let r := updateBalls (balls a) in
  {| balls := fst r;
     simulationStarted := simulationStarted a;
     simulationComplete := if negb (snd r) then true else simulationComplete a |}.

(** [wParam] is the virtual-key code of WM_KEYDOWN; [VK_SPACE] is 0x20 and
    the character literals ['R'] and ['r'] are 82 and 114. *)
Definition OnKeyPress (a : D2DApp) (wParam : Z) : D2DApp :=
  if (wParam =? 32)%Z then StartSimulation a
  else if (wParam =? 82)%Z || (wParam =? 114)%Z then
    {| balls := map reset (balls a);
       simulationStarted := false;
       simulationComplete := false |}
  else a.

(** [n] successive calls of [update] with the same step, and [n] successive
    timer ticks of the application. *)
Fixpoint updates (n : nat) (b : TennisBall) (dt : Q) : TennisBall :=
  match n with
  | O => b
  | S k => update (updates k b dt) dt
  end.

Fixpoint ticks (n : nat) (a : D2DApp) : D2DApp :=
  match n with
  | O => a
  | S k => Update (ticks k a)
  end.

End DropSim.

(** ** Second listing: horizontal shots on a single court *)

Module CourtSim.

Inductive ScreenMode := MODE_ALL | MODE_CLAY | MODE_GRASS | MODE_HARD | MODE_LAVER.

Definition DT : Q := 0.0083.
Definition COURT_LENGTH : Q := 23.77.
Definition NET_HEIGHT : Q := 0.914.
Definition BALL_MASS : Q := 0.058.
Definition MAX_HORIZONTAL_FORCE : Q := 1000.0.
Definition PI : Q := 3.14159265.
Definition RELAUNCH_DELAY : Q := 2.0.

(** [NET_X] is recomputed as [COURT_LENGTH / 2.0f] wherever it is used. *)
Definition NET_X : Q := COURT_LENGTH / 2.0.
Definition NET_ABSORPTION : Q := 0.80.

Inductive AirResistanceMode := AIR_VACUUM | AIR_SEA_LEVEL | AIR_1000M | AIR_2000M.

(** [airModes[mode].coefficient] *)
Definition airCoefficient (m : AirResistanceMode) : Q :=
  match m with
  | AIR_VACUUM => 0.0
  | AIR_SEA_LEVEL => 0.0005
  | AIR_1000M => 0.00044
  | AIR_2000M => 0.00039
  end.

Record RightyHitParams := {
  force : Q;
  angle : Q;
  spin : Q
}.

Record TennisBall := {
  y : Q;
  vy : Q;
  x : Q;
  vx : Q;
  time : Q;
  bounceCount : Z;
  isActive : bool;
  surface : CourtSurface;
  airResistanceCoeff : Q;
  spinRPM : Q;
  trajectory : list BounceData;
  bounces : list BounceData
}.

(** Assignments to single members. *)
Definition set_y (b : TennisBall) (v : Q) : TennisBall :=
  {| y := v; vy := vy b; x := x b; vx := vx b; time := time b;
     bounceCount := bounceCount b; isActive := isActive b; surface := surface b;
     airResistanceCoeff := airResistanceCoeff b; spinRPM := spinRPM b;
     trajectory := trajectory b; bounces := bounces b |}.
Definition set_vy (b : TennisBall) (v : Q) : TennisBall :=
  {| y := y b; vy := v; x := x b; vx := vx b; time := time b;
     bounceCount := bounceCount b; isActive := isActive b; surface := surface b;
     airResistanceCoeff := airResistanceCoeff b; spinRPM := spinRPM b;
     trajectory := trajectory b; bounces := bounces b |}.
Definition set_x (b : TennisBall) (v : Q) : TennisBall :=
  {| y := y b; vy := vy b; x := v; vx := vx b; time := time b;
     bounceCount := bounceCount b; isActive := isActive b; surface := surface b;
     airResistanceCoeff := airResistanceCoeff b; spinRPM := spinRPM b;
     trajectory := trajectory b; bounces := bounces b |}.
Definition set_vx (b : TennisBall) (v : Q) : TennisBall :=
  {| y := y b; vy := vy b; x := x b; vx := v; time := time b;
     bounceCount := bounceCount b; isActive := isActive b; surface := surface b;
     airResistanceCoeff := airResistanceCoeff b; spinRPM := spinRPM b;
     trajectory := trajectory b; bounces := bounces b |}.
Definition set_time (b : TennisBall) (v : Q) : TennisBall :=
  {| y := y b; vy := vy b; x := x b; vx := vx b; time := v;
     bounceCount := bounceCount b; isActive := isActive b; surface := surface b;
     airResistanceCoeff := airResistanceCoeff b; spinRPM := spinRPM b;
     trajectory := trajectory b; bounces := bounces b |}.
Definition set_bounceCount (b : TennisBall) (v : Z) : TennisBall :=
  {| y := y b; vy := vy b; x := x b; vx := vx b; time := time b;
     bounceCount := v; isActive := isActive b; surface := surface b;
     airResistanceCoeff := airResistanceCoeff b; spinRPM := spinRPM b;
     trajectory := trajectory b; bounces := bounces b |}.
Definition set_isActive (b : TennisBall) (v : bool) : TennisBall :=
  {| y := y b; vy := vy b; x := x b; vx := vx b; time := time b;
     bounceCount := bounceCount b; isActive := v; surface := surface b;
     airResistanceCoeff := airResistanceCoeff b; spinRPM := spinRPM b;
     trajectory := trajectory b; bounces := bounces b |}.
Definition set_airResistanceCoeff (b : TennisBall) (v : Q) : TennisBall :=
  {| y := y b; vy := vy b; x := x b; vx := vx b; time := time b;
     bounceCount := bounceCount b; isActive := isActive b; surface := surface b;
     airResistanceCoeff := v; spinRPM := spinRPM b;
     trajectory := trajectory b; bounces := bounces b |}.
Definition set_spinRPM (b : TennisBall) (v : Q) : TennisBall :=
  {| y := y b; vy := vy b; x := x b; vx := vx b; time := time b;
     bounceCount := bounceCount b; isActive := isActive b; surface := surface b;
     airResistanceCoeff := airResistanceCoeff b; spinRPM := v;
     trajectory := trajectory b; bounces := bounces b |}.
Definition set_trajectory (b : TennisBall) (v : list BounceData) : TennisBall :=
  {| y := y b; vy := vy b; x := x b; vx := vx b; time := time b;
     bounceCount := bounceCount b; isActive := isActive b; surface := surface b;
     airResistanceCoeff := airResistanceCoeff b; spinRPM := spinRPM b;
     trajectory := v; bounces := bounces b |}.
Definition set_bounces (b : TennisBall) (v : list BounceData) : TennisBall :=
  {| y := y b; vy := vy b; x := x b; vx := vx b; time := time b;
     bounceCount := bounceCount b; isActive := isActive b; surface := surface b;
     airResistanceCoeff := airResistanceCoeff b; spinRPM := spinRPM b;
     trajectory := trajectory b; bounces := v |}.

(** [trajectory.push_back({time, y})] *)
Definition recordTrajectory (b : TennisBall) : TennisBall :=
  set_trajectory b (trajectory b ++ [ {| bd_time := time b; bd_height := y b |} ]).

Definition reset (b : TennisBall) : TennisBall :=
  let b := set_y b INITIAL_HEIGHT in
  let b := set_vy b 0.0 in
  let b := set_x b 0.0 in
  let b := set_vx b 0.0 in
  let b := set_time b 0.0 in
  let b := set_bounceCount b 0 in
  let b := set_isActive b true in
  let b := set_trajectory b [] in
  let b := set_bounces b [] in
  recordTrajectory b.

(** The constructor of [TennisBall]: every member is assigned, either
    directly or by [reset]. *)
Definition newTennisBall (courtSurface : CourtSurface) : TennisBall :=
  reset {| y := 0; vy := 0; x := 0; vx := 0; time := 0; bounceCount := 0;
           isActive := false; surface := courtSurface;
           airResistanceCoeff := 0.0; spinRPM := 0.0;
           trajectory := []; bounces := [] |}.

Definition setAirResistance (b : TennisBall) (coefficient : Q) : TennisBall :=
  set_airResistanceCoeff b coefficient.

Section Libm.

(** [sqrt], [cos] and [sin] of the C library. *)
Variables sqrtf cosf sinf : Q -> Q.

Definition resetForHorizontalShot (b : TennisBall)
    (horizontalForce angleDegrees spin : Q) : TennisBall :=
  let b := set_x b ((20.0 / (inject_Z WINDOW_WIDTH - 100.0)) * COURT_LENGTH) in
  let b := set_y b 1.0 in
  let totalVelocity := (horizontalForce / MAX_HORIZONTAL_FORCE) * 50.0 in
  let angleRad := angleDegrees * PI / 180.0 in
  let b := set_vx b (totalVelocity * cosf angleRad) in
  let b := set_vy b (totalVelocity * sinf angleRad) in
  let b := set_spinRPM b spin in
  let b := set_time b 0.0 in
  let b := set_bounceCount b 0 in
  let b := set_isActive b true in
  let b := set_trajectory b [] in
  let b := set_bounces b [] in
  recordTrajectory b.

(** *** [TennisBall::update], block by block *)

(** "Physics update": time, gravity, Magnus effect, air resistance and the
    position step (semi-implicit: the new velocities move the ball). *)
Definition integrate (b : TennisBall) (dt : Q) : option TennisBall :=
  let b := set_time b (time b + dt) in
  let b := set_vy b (vy b - GRAVITY * dt) in
  omega <- (spinRPM b * 2.0 * PI) // 60.0 ;;
  let magnusCoeff := 0.00015 in
  let ballSpeed := sqrtf (vx b * vx b + vy b * vy b) in
  b <- (if Qltb 0.1 ballSpeed then
          let magnusForce := magnusCoeff * omega * ballSpeed in
          magnusAccelY <- magnusForce // BALL_MASS ;;
          Some (set_vy b (vy b - magnusAccelY * dt))
        else Some b) ;;
  let b := set_y b (y b + vy b * dt) in
  let airResistanceForce := - airResistanceCoeff b * vx b * Qabs (vx b) in
  ax <- airResistanceForce // BALL_MASS ;;
  let b := set_vx b (vx b + ax * dt) in
  let b := set_x b (x b + vx b * dt) in
  Some b.

(** "Check if ball crossed the net plane" *)
Definition crossedNet (netX prevX x1 : Q) : bool :=
  (Qltb prevX netX && Qleb netX x1) || (Qltb netX prevX && Qleb x1 netX).

(** [((rand() % 100) / 100.0f - 0.5f) * 0.3f], for the value [r] returned by
    [rand()]. *)
Definition randomDeflection (r : Z) : option Q :=
  m <- imod r 100 ;;
  q <- inject_Z m // 100.0 ;;
  Some ((q - 0.5) * 0.3).

(** "Net collision detection".  [prevX], [prevY] are the position before the
    physics update, [r] is what [rand()] returns if it is called. *)
Definition netCollision (prevX prevY : Q) (r : Z) (b : TennisBall)
    : option TennisBall :=
  netX <- COURT_LENGTH // 2.0 ;;
  if crossedNet netX prevX (x b) then
    t <- (netX - prevX) // (x b - prevX) ;;
    let collisionY := prevY + t * (y b - prevY) in
    if Qleb collisionY (NET_HEIGHT + BALL_RADIUS) then
      let b := set_x b netX in
      let b := set_y b collisionY in
      let b := set_vx b (- vx b * (1.0 - NET_ABSORPTION)) in
      let b := set_vy b (vy b * (1.0 - NET_ABSORPTION)) in
      deflection <- randomDeflection r ;;
      let b := set_vy b (vy b + deflection) in
      let b := set_spinRPM b (spinRPM b * (1.0 - NET_ABSORPTION)) in
      if Qltb (Qabs (vx b)) 0.5 && Qltb (Qabs (vy b)) 0.5
      then Some (set_vx b 0.0)
      else Some b
    else Some b
  else Some b.

(** "Check for ground collision" *)
Definition groundCollision (b : TennisBall) : option TennisBall :=
  if Qleb (y b) 0.0 then
    let b := set_y b 0.0 in
    let b := if (bounceCount b <? 3)%Z
             then set_bounces b
                    (bounces b ++ [ {| bd_time := time b; bd_height := 0.0 |} ])
             else b in
    let b := set_vy b (- vy b * coefficientOfRestitution (surface b)) in
    let b := set_vx b (vx b * 0.8) in
    q <- spinRPM b // 5000.0 ;;
    let spinEffect := q * 2.0 in
    let b := set_vx b (vx b + spinEffect) in
    let b := set_spinRPM b (spinRPM b * 0.7) in
    let b := set_bounceCount b (bounceCount b + 1)%Z in
    if Qltb (Qabs (vy b)) 0.1 || (10 <? bounceCount b)%Z then
      let b := set_isActive b false in
      let b := set_vy b 0.0 in
      let b := set_vx b 0.0 in
      Some b
    else Some b
  else Some b.

(** "Stop if ball goes out of bounds horizontally" *)
Definition outOfBounds (b : TennisBall) : TennisBall :=
  if Qltb (x b) 0.0 || Qltb COURT_LENGTH (x b)
  then set_isActive b false
  else b.

Definition update (b : TennisBall) (dt : Q) (r : Z) : option TennisBall :=
  if negb (isActive b) then Some b else
  let prevX := x b in
  let prevY := y b in
  b <- integrate b dt ;;
  b <- netCollision prevX prevY r b ;;
  let b := recordTrajectory b in
  b <- groundCollision b ;;
  Some (outOfBounds b).

End Libm.

(** *** The application state read and written by [D2DApp::Update]

    Window handles, brushes and the combo-box rectangle belong to the
    renderer and are left out.  The four court balls are separate heap
    objects, so the pointers are modelled by the objects themselves. *)

Record D2DApp := {
  balls : list TennisBall;
  simulationStarted : bool;
  simulationComplete : bool;
  currentScreen : ScreenMode;
  clayBall : TennisBall;
  grassBall : TennisBall;
  hardBall : TennisBall;
  laverBall : TennisBall;
  horizontalForce : Q;
  launchAngle : Q;
  ballSpin : Q;
  visualPaceMultiplier : Q;
  airResistanceMode : AirResistanceMode;
  waitingToRelaunch : bool;
  relaunchTimer : Q;
  rightyPosition : Q;
  ballHitRighty : bool;
  simulationPaused : bool;
  rightyHitForce : Q;
  rightyHitAngle : Q;
  rightyHitSpin : Q
}.

(** Assignments to single members. *)
Definition app_set_balls (a : D2DApp) (v : list TennisBall) : D2DApp :=
  {| balls := v; simulationStarted := simulationStarted a;
     simulationComplete := simulationComplete a;
     currentScreen := currentScreen a; clayBall := clayBall a;
     grassBall := grassBall a; hardBall := hardBall a;
     laverBall := laverBall a; horizontalForce := horizontalForce a;
     launchAngle := launchAngle a; ballSpin := ballSpin a;
     visualPaceMultiplier := visualPaceMultiplier a;
     airResistanceMode := airResistanceMode a;
     waitingToRelaunch := waitingToRelaunch a;
     relaunchTimer := relaunchTimer a; rightyPosition := rightyPosition a;
     ballHitRighty := ballHitRighty a;
     simulationPaused := simulationPaused a;
     rightyHitForce := rightyHitForce a; rightyHitAngle := rightyHitAngle a;
     rightyHitSpin := rightyHitSpin a |}.
Definition app_set_simulationComplete (a : D2DApp) (v : bool) : D2DApp :=
  {| balls := balls a; simulationStarted := simulationStarted a;
     simulationComplete := v; currentScreen := currentScreen a;
     clayBall := clayBall a; grassBall := grassBall a;
     hardBall := hardBall a; laverBall := laverBall a;
     horizontalForce := horizontalForce a; launchAngle := launchAngle a;
     ballSpin := ballSpin a; visualPaceMultiplier := visualPaceMultiplier a;
     airResistanceMode := airResistanceMode a;
     waitingToRelaunch := waitingToRelaunch a;
     relaunchTimer := relaunchTimer a; rightyPosition := rightyPosition a;
     ballHitRighty := ballHitRighty a;
     simulationPaused := simulationPaused a;
     rightyHitForce := rightyHitForce a; rightyHitAngle := rightyHitAngle a;
     rightyHitSpin := rightyHitSpin a |}.
Definition app_set_clayBall (a : D2DApp) (v : TennisBall) : D2DApp :=
  {| balls := balls a; simulationStarted := simulationStarted a;
     simulationComplete := simulationComplete a;
     currentScreen := currentScreen a; clayBall := v;
     grassBall := grassBall a; hardBall := hardBall a;
     laverBall := laverBall a; horizontalForce := horizontalForce a;
     launchAngle := launchAngle a; ballSpin := ballSpin a;
     visualPaceMultiplier := visualPaceMultiplier a;
     airResistanceMode := airResistanceMode a;
     waitingToRelaunch := waitingToRelaunch a;
     relaunchTimer := relaunchTimer a; rightyPosition := rightyPosition a;
     ballHitRighty := ballHitRighty a;
     simulationPaused := simulationPaused a;
     rightyHitForce := rightyHitForce a; rightyHitAngle := rightyHitAngle a;
     rightyHitSpin := rightyHitSpin a |}.
Definition app_set_grassBall (a : D2DApp) (v : TennisBall) : D2DApp :=
  {| balls := balls a; simulationStarted := simulationStarted a;
     simulationComplete := simulationComplete a;
     currentScreen := currentScreen a; clayBall := clayBall a;
     grassBall := v; hardBall := hardBall a; laverBall := laverBall a;
     horizontalForce := horizontalForce a; launchAngle := launchAngle a;
     ballSpin := ballSpin a; visualPaceMultiplier := visualPaceMultiplier a;
     airResistanceMode := airResistanceMode a;
     waitingToRelaunch := waitingToRelaunch a;
     relaunchTimer := relaunchTimer a; rightyPosition := rightyPosition a;
     ballHitRighty := ballHitRighty a;
     simulationPaused := simulationPaused a;
     rightyHitForce := rightyHitForce a; rightyHitAngle := rightyHitAngle a;
     rightyHitSpin := rightyHitSpin a |}.
Definition app_set_hardBall (a : D2DApp) (v : TennisBall) : D2DApp :=
  {| balls := balls a; simulationStarted := simulationStarted a;
     simulationComplete := simulationComplete a;
     currentScreen := currentScreen a; clayBall := clayBall a;
     grassBall := grassBall a; hardBall := v; laverBall := laverBall a;
     horizontalForce := horizontalForce a; launchAngle := launchAngle a;
     ballSpin := ballSpin a; visualPaceMultiplier := visualPaceMultiplier a;
     airResistanceMode := airResistanceMode a;
     waitingToRelaunch := waitingToRelaunch a;
     relaunchTimer := relaunchTimer a; rightyPosition := rightyPosition a;
     ballHitRighty := ballHitRighty a;
     simulationPaused := simulationPaused a;
     rightyHitForce := rightyHitForce a; rightyHitAngle := rightyHitAngle a;
     rightyHitSpin := rightyHitSpin a |}.
Definition app_set_laverBall (a : D2DApp) (v : TennisBall) : D2DApp :=
  {| balls := balls a; simulationStarted := simulationStarted a;
     simulationComplete := simulationComplete a;
     currentScreen := currentScreen a; clayBall := clayBall a;
     grassBall := grassBall a; hardBall := hardBall a; laverBall := v;
     horizontalForce := horizontalForce a; launchAngle := launchAngle a;
     ballSpin := ballSpin a; visualPaceMultiplier := visualPaceMultiplier a;
     airResistanceMode := airResistanceMode a;
     waitingToRelaunch := waitingToRelaunch a;
     relaunchTimer := relaunchTimer a; rightyPosition := rightyPosition a;
     ballHitRighty := ballHitRighty a;
     simulationPaused := simulationPaused a;
     rightyHitForce := rightyHitForce a; rightyHitAngle := rightyHitAngle a;
     rightyHitSpin := rightyHitSpin a |}.
Definition app_set_horizontalForce (a : D2DApp) (v : Q) : D2DApp :=
  {| balls := balls a; simulationStarted := simulationStarted a;
     simulationComplete := simulationComplete a;
     currentScreen := currentScreen a; clayBall := clayBall a;
     grassBall := grassBall a; hardBall := hardBall a;
     laverBall := laverBall a; horizontalForce := v;
     launchAngle := launchAngle a; ballSpin := ballSpin a;
     visualPaceMultiplier := visualPaceMultiplier a;
     airResistanceMode := airResistanceMode a;
     waitingToRelaunch := waitingToRelaunch a;
     relaunchTimer := relaunchTimer a; rightyPosition := rightyPosition a;
     ballHitRighty := ballHitRighty a;
     simulationPaused := simulationPaused a;
     rightyHitForce := rightyHitForce a; rightyHitAngle := rightyHitAngle a;
     rightyHitSpin := rightyHitSpin a |}.
Definition app_set_launchAngle (a : D2DApp) (v : Q) : D2DApp :=
  {| balls := balls a; simulationStarted := simulationStarted a;
     simulationComplete := simulationComplete a;
     currentScreen := currentScreen a; clayBall := clayBall a;
     grassBall := grassBall a; hardBall := hardBall a;
     laverBall := laverBall a; horizontalForce := horizontalForce a;
     launchAngle := v; ballSpin := ballSpin a;
     visualPaceMultiplier := visualPaceMultiplier a;
     airResistanceMode := airResistanceMode a;
     waitingToRelaunch := waitingToRelaunch a;
     relaunchTimer := relaunchTimer a; rightyPosition := rightyPosition a;
     ballHitRighty := ballHitRighty a;
     simulationPaused := simulationPaused a;
     rightyHitForce := rightyHitForce a; rightyHitAngle := rightyHitAngle a;
     rightyHitSpin := rightyHitSpin a |}.
Definition app_set_ballSpin (a : D2DApp) (v : Q) : D2DApp :=
  {| balls := balls a; simulationStarted := simulationStarted a;
     simulationComplete := simulationComplete a;
     currentScreen := currentScreen a; clayBall := clayBall a;
     grassBall := grassBall a; hardBall := hardBall a;
     laverBall := laverBall a; horizontalForce := horizontalForce a;
     launchAngle := launchAngle a; ballSpin := v;
     visualPaceMultiplier := visualPaceMultiplier a;
     airResistanceMode := airResistanceMode a;
     waitingToRelaunch := waitingToRelaunch a;
     relaunchTimer := relaunchTimer a; rightyPosition := rightyPosition a;
     ballHitRighty := ballHitRighty a;
     simulationPaused := simulationPaused a;
     rightyHitForce := rightyHitForce a; rightyHitAngle := rightyHitAngle a;
     rightyHitSpin := rightyHitSpin a |}.
Definition app_set_waitingToRelaunch (a : D2DApp) (v : bool) : D2DApp :=
  {| balls := balls a; simulationStarted := simulationStarted a;
     simulationComplete := simulationComplete a;
     currentScreen := currentScreen a; clayBall := clayBall a;
     grassBall := grassBall a; hardBall := hardBall a;
     laverBall := laverBall a; horizontalForce := horizontalForce a;
     launchAngle := launchAngle a; ballSpin := ballSpin a;
     visualPaceMultiplier := visualPaceMultiplier a;
     airResistanceMode := airResistanceMode a; waitingToRelaunch := v;
     relaunchTimer := relaunchTimer a; rightyPosition := rightyPosition a;
     ballHitRighty := ballHitRighty a;
     simulationPaused := simulationPaused a;
     rightyHitForce := rightyHitForce a; rightyHitAngle := rightyHitAngle a;
     rightyHitSpin := rightyHitSpin a |}.
Definition app_set_relaunchTimer (a : D2DApp) (v : Q) : D2DApp :=
  {| balls := balls a; simulationStarted := simulationStarted a;
     simulationComplete := simulationComplete a;
     currentScreen := currentScreen a; clayBall := clayBall a;
     grassBall := grassBall a; hardBall := hardBall a;
     laverBall := laverBall a; horizontalForce := horizontalForce a;
     launchAngle := launchAngle a; ballSpin := ballSpin a;
     visualPaceMultiplier := visualPaceMultiplier a;
     airResistanceMode := airResistanceMode a;
     waitingToRelaunch := waitingToRelaunch a; relaunchTimer := v;
     rightyPosition := rightyPosition a; ballHitRighty := ballHitRighty a;
     simulationPaused := simulationPaused a;
     rightyHitForce := rightyHitForce a; rightyHitAngle := rightyHitAngle a;
     rightyHitSpin := rightyHitSpin a |}.
Definition app_set_rightyPosition (a : D2DApp) (v : Q) : D2DApp :=
  {| balls := balls a; simulationStarted := simulationStarted a;
     simulationComplete := simulationComplete a;
     currentScreen := currentScreen a; clayBall := clayBall a;
     grassBall := grassBall a; hardBall := hardBall a;
     laverBall := laverBall a; horizontalForce := horizontalForce a;
     launchAngle := launchAngle a; ballSpin := ballSpin a;
     visualPaceMultiplier := visualPaceMultiplier a;
     airResistanceMode := airResistanceMode a;
     waitingToRelaunch := waitingToRelaunch a;
     relaunchTimer := relaunchTimer a; rightyPosition := v;
     ballHitRighty := ballHitRighty a;
     simulationPaused := simulationPaused a;
     rightyHitForce := rightyHitForce a; rightyHitAngle := rightyHitAngle a;
     rightyHitSpin := rightyHitSpin a |}.
Definition app_set_ballHitRighty (a : D2DApp) (v : bool) : D2DApp :=
  {| balls := balls a; simulationStarted := simulationStarted a;
     simulationComplete := simulationComplete a;
     currentScreen := currentScreen a; clayBall := clayBall a;
     grassBall := grassBall a; hardBall := hardBall a;
     laverBall := laverBall a; horizontalForce := horizontalForce a;
     launchAngle := launchAngle a; ballSpin := ballSpin a;
     visualPaceMultiplier := visualPaceMultiplier a;
     airResistanceMode := airResistanceMode a;
     waitingToRelaunch := waitingToRelaunch a;
     relaunchTimer := relaunchTimer a; rightyPosition := rightyPosition a;
     ballHitRighty := v; simulationPaused := simulationPaused a;
     rightyHitForce := rightyHitForce a; rightyHitAngle := rightyHitAngle a;
     rightyHitSpin := rightyHitSpin a |}.
Definition app_set_simulationPaused (a : D2DApp) (v : bool) : D2DApp :=
  {| balls := balls a; simulationStarted := simulationStarted a;
     simulationComplete := simulationComplete a;
     currentScreen := currentScreen a; clayBall := clayBall a;
     grassBall := grassBall a; hardBall := hardBall a;
     laverBall := laverBall a; horizontalForce := horizontalForce a;
     launchAngle := launchAngle a; ballSpin := ballSpin a;
     visualPaceMultiplier := visualPaceMultiplier a;
     airResistanceMode := airResistanceMode a;
     waitingToRelaunch := waitingToRelaunch a;
     relaunchTimer := relaunchTimer a; rightyPosition := rightyPosition a;
     ballHitRighty := ballHitRighty a; simulationPaused := v;
     rightyHitForce := rightyHitForce a; rightyHitAngle := rightyHitAngle a;
     rightyHitSpin := rightyHitSpin a |}.
Definition app_set_rightyHitForce (a : D2DApp) (v : Q) : D2DApp :=
  {| balls := balls a; simulationStarted := simulationStarted a;
     simulationComplete := simulationComplete a;
     currentScreen := currentScreen a; clayBall := clayBall a;
     grassBall := grassBall a; hardBall := hardBall a;
     laverBall := laverBall a; horizontalForce := horizontalForce a;
     launchAngle := launchAngle a; ballSpin := ballSpin a;
     visualPaceMultiplier := visualPaceMultiplier a;
     airResistanceMode := airResistanceMode a;
     waitingToRelaunch := waitingToRelaunch a;
     relaunchTimer := relaunchTimer a; rightyPosition := rightyPosition a;
     ballHitRighty := ballHitRighty a;
     simulationPaused := simulationPaused a; rightyHitForce := v;
     rightyHitAngle := rightyHitAngle a; rightyHitSpin := rightyHitSpin a |}.
Definition app_set_rightyHitAngle (a : D2DApp) (v : Q) : D2DApp :=
  {| balls := balls a; simulationStarted := simulationStarted a;
     simulationComplete := simulationComplete a;
     currentScreen := currentScreen a; clayBall := clayBall a;
     grassBall := grassBall a; hardBall := hardBall a;
     laverBall := laverBall a; horizontalForce := horizontalForce a;
     launchAngle := launchAngle a; ballSpin := ballSpin a;
     visualPaceMultiplier := visualPaceMultiplier a;
     airResistanceMode := airResistanceMode a;
     waitingToRelaunch := waitingToRelaunch a;
     relaunchTimer := relaunchTimer a; rightyPosition := rightyPosition a;
     ballHitRighty := ballHitRighty a;
     simulationPaused := simulationPaused a;
     rightyHitForce := rightyHitForce a; rightyHitAngle := v;
     rightyHitSpin := rightyHitSpin a |}.
Definition app_set_rightyHitSpin (a : D2DApp) (v : Q) : D2DApp :=
  {| balls := balls a; simulationStarted := simulationStarted a;
     simulationComplete := simulationComplete a;
     currentScreen := currentScreen a; clayBall := clayBall a;
     grassBall := grassBall a; hardBall := hardBall a;
     laverBall := laverBall a; horizontalForce := horizontalForce a;
     launchAngle := launchAngle a; ballSpin := ballSpin a;
     visualPaceMultiplier := visualPaceMultiplier a;
     airResistanceMode := airResistanceMode a;
     waitingToRelaunch := waitingToRelaunch a;
     relaunchTimer := relaunchTimer a; rightyPosition := rightyPosition a;
     ballHitRighty := ballHitRighty a;
     simulationPaused := simulationPaused a;
     rightyHitForce := rightyHitForce a; rightyHitAngle := rightyHitAngle a;
     rightyHitSpin := v |}.

(** The ball of a single-court screen, and its update in place. *)
Definition courtBall (m : ScreenMode) (a : D2DApp) : TennisBall :=
  match m with
  | MODE_GRASS => grassBall a
  | MODE_HARD => hardBall a
  | MODE_LAVER => laverBall a
  | _ => clayBall a
  end.

Definition set_courtBall (m : ScreenMode) (a : D2DApp) (b : TennisBall) : D2DApp :=
  match m with
  | MODE_GRASS => app_set_grassBall a b
  | MODE_HARD => app_set_hardBall a b
  | MODE_LAVER => app_set_laverBall a b
  | _ => app_set_clayBall a b
  end.

(** What one call of [Update] reads from outside the program: the two arrow
    keys ([GetAsyncKeyState]), the values returned by the calls of [rand()]
    ([rand k] for the [k]-th place of the tick that may call it) and the
    outcome of [ShowRightyHitDialog]: [Some p] when it returns true with
    [confirmed] set, [None] when the user cancels. *)
Record Inputs := {
  keyLeft : bool;
  keyRight : bool;
  rand : nat -> Z;
  dialog : option RightyHitParams
}.

Section App.

Variables sqrtf cosf sinf : Q -> Q.

(** Configurable setting (loaded from settings.ini). *)
Variable RIGHTY_SPEED : Q.

Definition CheckRightyCollision (a : D2DApp) (ball : TennisBall) : bool :=
  if negb (isActive ball) || simulationPaused a then false else
  let RIGHTY_RADIUS := 0.05 in
  let RIGHTY_HEIGHT := NET_HEIGHT * 2.5 in
  let distX := Qabs (x ball - rightyPosition a) in
  if Qleb distX (BALL_RADIUS + RIGHTY_RADIUS)
     && Qleb 0.0 (y ball) && Qleb (y ball) RIGHTY_HEIGHT
  then true
  else false.

Definition ApplyRightyHit (m : ScreenMode) (a : D2DApp) (force angle spin : Q)
    : D2DApp :=
  let ball := courtBall m a in
  let totalVelocity := (force / 600.0) * 30.0 in
  let totalVelocity := fmax 5.0 totalVelocity in
  let angleRad := angle * PI / 180.0 in
  let ball := set_vx ball (- totalVelocity * cosf angleRad) in
  let ball := set_vy ball (totalVelocity * sinf angleRad) in
  let ball := set_spinRPM ball spin in
  let ball := set_x ball (rightyPosition a - 0.1) in
  let a := set_courtBall m a ball in
  let a := app_set_simulationPaused a false in
  app_set_ballHitRighty a false.

(** The loop over [balls[i]] of the all-courts screen; the result carries
    [anyActive]. *)
Fixpoint updateBalls (bs : list TennisBall) (dt : Q) (rnd : nat -> Z) (i : nat)
    : option (list TennisBall * bool) :=
  match bs with
  | [] => Some ([], false)
  | b :: rest =>
      b' <- update sqrtf b dt (rnd i) ;;
      r <- updateBalls rest dt rnd (S i) ;;
      Some (b' :: fst r, isActive b' || snd r)
  end.

(** The branch of one single-court screen.  The four branches of the source
    are the same text on [clayBall], [grassBall], [hardBall], [laverBall]. *)
Definition updateCourt (m : ScreenMode) (a : D2DApp) (adjustedDT : Q)
    (inp : Inputs) : option D2DApp :=
  (* Check if ball reached right end of court or stopped moving *)
  let a :=
    if isActive (courtBall m a) && Qleb COURT_LENGTH (x (courtBall m a)) then
      let a := set_courtBall m a (set_isActive (courtBall m a) false) in
      let a := app_set_waitingToRelaunch a true in
      app_set_relaunchTimer a 0.0
    else a in
  (* Handle relaunch timer *)
  if waitingToRelaunch a then
    let a := app_set_relaunchTimer a (relaunchTimer a + adjustedDT) in
    if Qleb RELAUNCH_DELAY (relaunchTimer a) then
      let a := app_set_horizontalForce a (200.0 + inject_Z (Z.rem (rand inp 0) 201)) in
      let a := app_set_launchAngle a (9.0 + inject_Z (Z.rem (rand inp 1) 31)) in
      let a := app_set_ballSpin a (60.0 + inject_Z (Z.rem (rand inp 2) 541)) in
      let a := set_courtBall m a
                 (setAirResistance (courtBall m a)
                    (airCoefficient (airResistanceMode a))) in
      let a := set_courtBall m a
                 (resetForHorizontalShot cosf sinf (courtBall m a)
                    (horizontalForce a) (launchAngle a) (ballSpin a)) in
      let a := app_set_waitingToRelaunch a false in
      Some (app_set_relaunchTimer a 0.0)
    else Some a
  else
    ball <- update sqrtf (courtBall m a) adjustedDT (rand inp 0) ;;
    let a := set_courtBall m a ball in
    (* Check for RIGHTY collision *)
    let a :=
      if CheckRightyCollision a (courtBall m a) then
        let a := app_set_simulationPaused a true in
        let a := app_set_ballHitRighty a true in
        match dialog inp with
        | Some params =>
            let a := app_set_rightyHitForce a (force params) in
            let a := app_set_rightyHitAngle a (angle params) in
            let a := app_set_rightyHitSpin a (spin params) in
            ApplyRightyHit m a (force params) (angle params) (spin params)
        | None =>
            (* User cancelled, just bounce back *)
            let ball := courtBall m a in
            let ball := set_vx ball (- vx ball * 0.5) in
            let ball := set_x ball (rightyPosition a - 0.1) in
            let a := set_courtBall m a ball in
            let a := app_set_simulationPaused a false in
            app_set_ballHitRighty a false
        end
      else a in
    (* Check if ball stopped moving *)
    if negb (isActive (courtBall m a)) then
      let a := app_set_waitingToRelaunch a true in
      Some (app_set_relaunchTimer a 0.0)
    else Some a.

(** "Update RIGHTY position based on keyboard input (for individual court
    screens)"; the player moves by the raw [DT]. *)
Definition moveRighty (a : D2DApp) (inp : Inputs) : D2DApp :=
  match currentScreen a with
  | MODE_ALL => a
  | _ =>
      let a := if keyLeft inp
               then app_set_rightyPosition a
                      (fmax NET_X (rightyPosition a - RIGHTY_SPEED * DT))
               else a in
      if keyRight inp
      then app_set_rightyPosition a
             (fmin COURT_LENGTH (rightyPosition a + RIGHTY_SPEED * DT))
      else a
  end.

Definition Update (a : D2DApp) (inp : Inputs) : option D2DApp :=
  if negb (simulationStarted a) || simulationComplete a || simulationPaused a
  then Some a else
  let adjustedDT := DT * visualPaceMultiplier a in
  let a := moveRighty a inp in
  match currentScreen a with
  | MODE_ALL =>
      r <- updateBalls (balls a) adjustedDT (rand inp) 0 ;;
      let a := app_set_balls a (fst r) in
      if negb (snd r) then Some (app_set_simulationComplete a true) else Some a
  | m => updateCourt m a adjustedDT inp
  end.

End App.

(** *** Quantities and runs the properties are stated with *)

Section Runs.

Variables sqrtf cosf sinf : Q -> Q.

(** The velocities [integrate] computes, in closed form. *)
Definition vyAfter (b : TennisBall) (dt : Q) : Q :=
  let vy1 := vy b - GRAVITY * dt in
  let ballSpeed := sqrtf (vx b * vx b + vy1 * vy1) in
  if Qltb 0.1 ballSpeed
  then vy1 - 0.00015 * (spinRPM b * 2.0 * PI / 60.0) * ballSpeed / BALL_MASS * dt
  else vy1.

Definition vxAfter (b : TennisBall) (dt : Q) : Q :=
  vx b + - airResistanceCoeff b * vx b * Qabs (vx b) / BALL_MASS * dt.

(** The interpolated height at the net plane for a step from
    [(prevX, prevY)] to the position of [b]. *)
Definition collisionY (prevX prevY : Q) (b : TennisBall) : Q :=
  prevY + (NET_X - prevX) / (x b - prevX) * (y b - prevY).

(** The value of [randomDeflection]. *)
Definition deflection (r : Z) : Q :=
  (inject_Z (Z.rem r 100) / 100.0 - 0.5) * 0.3.

(** The two tests that make [netCollision] resolve a hit. *)
Definition netHit (prevX prevY : Q) (b : TennisBall) : bool :=
  crossedNet NET_X prevX (x b)
  && Qleb (collisionY prevX prevY b) (NET_HEIGHT + BALL_RADIUS).

(** [n] successive calls of [update] with the same step; the [k]-th call may
    draw [rnd k]. *)
Fixpoint updates (n : nat) (b : TennisBall) (dt : Q) (rnd : nat -> Z)
    : option TennisBall :=
  match n with
  | O => Some b
  | S k => b' <- updates k b dt rnd ;; update sqrtf b' dt (rnd k)
  end.

(** A tick of free flight: the ball is active, the step neither hits the
    net nor reaches the ground. *)
Definition freeTick (b : TennisBall) (dt : Q) : bool :=
  isActive b
  && match integrate sqrtf b dt with
     | Some b1 => negb (netHit (x b) (y b) b1) && Qltb 0.0 (y b1)
     | None => false
     end.

(** The first [n] ticks are all free flight. *)
Fixpoint freeFlight (n : nat) (b : TennisBall) (dt : Q) (rnd : nat -> Z) : bool :=
  match n with
  | O => true
  | S k =>
      freeFlight k b dt rnd
      && match updates k b dt rnd with
         | Some bk => freeTick bk dt
         | None => false
         end
  end.

(** Every place of the program that writes a ball after it was launched:
    [update], [setAirResistance], the two outcomes of the return-shot dialog
    (any velocity, spin and position may be written) and the end-of-court
    stop of [D2DApp::Update]. *)
Inductive ballStep : TennisBall -> TennisBall -> Prop :=
  | step_update b dt r b' :
      update sqrtf b dt r = Some b' -> ballStep b b'
  | step_air b c :
      ballStep b (setAirResistance b c)
  | step_hit b vx' vy' spin' x' :
      ballStep b (set_x (set_spinRPM (set_vy (set_vx b vx') vy') spin') x')
  | step_cancel b x' :
      ballStep b (set_x (set_vx b (- vx b * 0.5)) x')
  | step_stop b :
      ballStep b (set_isActive b false).

(** The states a ball goes through from a launch on. *)
Inductive launched : TennisBall -> Prop :=
  | launched_reset b : launched (reset b)
  | launched_shot b f a s : launched (resetForHorizontalShot cosf sinf b f a s)
  | launched_step b b' : launched b -> ballStep b b' -> launched b'.

End Runs.

(** *** Start, keyboard and mouse of the second listing *)

Definition MIN_HORIZONTAL_FORCE : Q := 0.0.
Definition MIN_ANGLE : Q := 0.0.
Definition MAX_ANGLE : Q := 90.0.

Definition app_set_simulationStarted (a : D2DApp) (v : bool) : D2DApp :=
  {| balls := balls a; simulationStarted := v;
     simulationComplete := simulationComplete a;
     currentScreen := currentScreen a; clayBall := clayBall a;
     grassBall := grassBall a; hardBall := hardBall a; laverBall := laverBall a;
     horizontalForce := horizontalForce a; launchAngle := launchAngle a;
     ballSpin := ballSpin a; visualPaceMultiplier := visualPaceMultiplier a;
     airResistanceMode := airResistanceMode a;
     waitingToRelaunch := waitingToRelaunch a; relaunchTimer := relaunchTimer a;
     rightyPosition := rightyPosition a; ballHitRighty := ballHitRighty a;
     simulationPaused := simulationPaused a; rightyHitForce := rightyHitForce a;
     rightyHitAngle := rightyHitAngle a; rightyHitSpin := rightyHitSpin a |}.
Definition app_set_currentScreen (a : D2DApp) (v : ScreenMode) : D2DApp :=
  {| balls := balls a; simulationStarted := simulationStarted a;
     simulationComplete := simulationComplete a;
     currentScreen := v; clayBall := clayBall a;
     grassBall := grassBall a; hardBall := hardBall a; laverBall := laverBall a;
     horizontalForce := horizontalForce a; launchAngle := launchAngle a;
     ballSpin := ballSpin a; visualPaceMultiplier := visualPaceMultiplier a;
     airResistanceMode := airResistanceMode a;
     waitingToRelaunch := waitingToRelaunch a; relaunchTimer := relaunchTimer a;
     rightyPosition := rightyPosition a; ballHitRighty := ballHitRighty a;
     simulationPaused := simulationPaused a; rightyHitForce := rightyHitForce a;
     rightyHitAngle := rightyHitAngle a; rightyHitSpin := rightyHitSpin a |}.
Definition app_set_visualPaceMultiplier (a : D2DApp) (v : Q) : D2DApp :=
  {| balls := balls a; simulationStarted := simulationStarted a;
     simulationComplete := simulationComplete a;
     currentScreen := currentScreen a; clayBall := clayBall a;
     grassBall := grassBall a; hardBall := hardBall a; laverBall := laverBall a;
     horizontalForce := horizontalForce a; launchAngle := launchAngle a;
     ballSpin := ballSpin a; visualPaceMultiplier := v;
     airResistanceMode := airResistanceMode a;
     waitingToRelaunch := waitingToRelaunch a; relaunchTimer := relaunchTimer a;
     rightyPosition := rightyPosition a; ballHitRighty := ballHitRighty a;
     simulationPaused := simulationPaused a; rightyHitForce := rightyHitForce a;
     rightyHitAngle := rightyHitAngle a; rightyHitSpin := rightyHitSpin a |}.
Definition app_set_airResistanceMode (a : D2DApp) (v : AirResistanceMode) : D2DApp :=
  {| balls := balls a; simulationStarted := simulationStarted a;
     simulationComplete := simulationComplete a;
     currentScreen := currentScreen a; clayBall := clayBall a;
     grassBall := grassBall a; hardBall := hardBall a; laverBall := laverBall a;
     horizontalForce := horizontalForce a; launchAngle := launchAngle a;
     ballSpin := ballSpin a; visualPaceMultiplier := visualPaceMultiplier a;
     airResistanceMode := v;
     waitingToRelaunch := waitingToRelaunch a; relaunchTimer := relaunchTimer a;
     rightyPosition := rightyPosition a; ballHitRighty := ballHitRighty a;
     simulationPaused := simulationPaused a; rightyHitForce := rightyHitForce a;
     rightyHitAngle := rightyHitAngle a; rightyHitSpin := rightyHitSpin a |}.

(** Virtual-key codes of <windows.h>, and the code of a character literal. *)
Definition VK_BACK : Z := 8.
Definition VK_SPACE : Z := 32.
Definition VK_UP : Z := 38.
Definition VK_DOWN : Z := 40.
Definition VK_ADD : Z := 107.
Definition VK_SUBTRACT : Z := 109.
Definition VK_OEM_PLUS : Z := 187.
Definition VK_OEM_COMMA : Z := 188.
Definition VK_OEM_MINUS : Z := 189.
Definition VK_OEM_PERIOD : Z := 190.

Definition chr (c : ascii) : Z := Z.of_N (N_of_ascii c).

(** [currentScreen == MODE_CLAY || ... || currentScreen == MODE_LAVER] *)
Definition isCourt (m : ScreenMode) : bool :=
  match m with
  | MODE_ALL => false
  | _ => true
  end.

(** [airModes[mode].mode] is the index of the table entry: the enumerators
    count from 0. *)
Definition airIndex (m : AirResistanceMode) : Z :=
  match m with
  | AIR_VACUUM => 0
  | AIR_SEA_LEVEL => 1
  | AIR_1000M => 2
  | AIR_2000M => 3
  end.

(** The cast [(AirResistanceMode)i] for the values it is applied to. *)
Definition airOfIndex (i : Z) : AirResistanceMode :=
  if (i =? 0)%Z then AIR_VACUUM
  else if (i =? 1)%Z then AIR_SEA_LEVEL
  else if (i =? 2)%Z then AIR_1000M
  else AIR_2000M.

(** The rectangle of the air-resistance box, set once by the constructor:
    [D2D1::RectF(10, 420, 200, 445)]. *)
Definition comboBoxLeft : Q := 10.
Definition comboBoxTop : Q := 420.
Definition comboBoxRight : Q := 200.
Definition comboBoxBottom : Q := 445.

Section Events.

Variables sqrtf cosf sinf : Q -> Q.

(** Configurable settings (loaded from settings.ini). *)
Variables RIGHTY_SPEED ANGLE_STEP SPIN_STEP MAX_SPIN MIN_SPIN : Q.

(** The [for] loop that resets the four balls of the all-courts screen. *)
Definition resetBalls (a : D2DApp) : D2DApp :=
  app_set_balls a (map reset (balls a)).

(** The [if]/[else if] chain over [currentScreen] that calls
    [resetForHorizontalShot(horizontalForce, launchAngle, ballSpin)] on the
    ball of the current court. *)
Definition shootCurrent (a : D2DApp) : D2DApp :=
  match currentScreen a with
  | MODE_ALL => a
  | m =>
      set_courtBall m a
        (resetForHorizontalShot cosf sinf (courtBall m a)
           (horizontalForce a) (launchAngle a) (ballSpin a))
  end.

(** The same chain after [setAirResistance] on that ball. *)
Definition airAndShootCurrent (a : D2DApp) : D2DApp :=
  match currentScreen a with
  | MODE_ALL => a
  | m =>
      let a := set_courtBall m a
                 (setAirResistance (courtBall m a)
                    (airCoefficient (airResistanceMode a))) in
      set_courtBall m a
        (resetForHorizontalShot cosf sinf (courtBall m a)
           (horizontalForce a) (launchAngle a) (ballSpin a))
  end.

(** [if (!simulationStarted) { ... }] around that chain. *)
Definition shootIfIdle (a : D2DApp) : D2DApp :=
  if negb (simulationStarted a) then shootCurrent a else a.

Definition StartSimulation (a : D2DApp) : D2DApp :=
  let a := app_set_simulationStarted a true in
  let a := app_set_simulationComplete a false in
  let a := app_set_waitingToRelaunch a false in
  let a := app_set_relaunchTimer a 0.0 in
  match currentScreen a with
  | MODE_ALL => resetBalls a
  | _ => airAndShootCurrent a
  end.

(** The branch of a court key ([C], [G], [H], [L]). *)
Definition switchTo (m : ScreenMode) (a : D2DApp) : D2DApp :=
  let a := app_set_currentScreen a m in
  let a := app_set_simulationStarted a false in
  let a := app_set_simulationComplete a false in
  shootCurrent a.

(** [wParam] is the virtual-key code of WM_KEYDOWN; [ctrl] and [shift] are
    [GetKeyState(VK_CONTROL) & 0x8000] and [GetKeyState(VK_SHIFT) & 0x8000]. *)
Definition OnKeyPress (a : D2DApp) (wParam : Z) (ctrl shift : bool) : D2DApp :=
  if (wParam =? VK_SPACE)%Z then StartSimulation a
  else if (wParam =? chr "R")%Z || (wParam =? chr "r")%Z then
    let a := app_set_simulationStarted a false in
    let a := app_set_simulationComplete a false in
    match currentScreen a with
    | MODE_ALL => resetBalls a
    | _ => shootCurrent a
    end
  else if (wParam =? chr "C")%Z || (wParam =? chr "c")%Z then switchTo MODE_CLAY a
  else if (wParam =? chr "G")%Z || (wParam =? chr "g")%Z then switchTo MODE_GRASS a
  else if (wParam =? chr "H")%Z || (wParam =? chr "h")%Z then switchTo MODE_HARD a
  else if (wParam =? chr "L")%Z || (wParam =? chr "l")%Z then switchTo MODE_LAVER a
  else if (wParam =? chr "A")%Z || (wParam =? chr "a")%Z then
    if isCourt (currentScreen a) then
      let a := app_set_horizontalForce a
                 (fmax MIN_HORIZONTAL_FORCE (horizontalForce a - 10.0)) in
      shootIfIdle a
    else a
  else if (wParam =? VK_BACK)%Z then
    let a := app_set_currentScreen a MODE_ALL in
    let a := app_set_simulationStarted a false in
    let a := app_set_simulationComplete a false in
    resetBalls a
  else if (wParam =? VK_UP)%Z && isCourt (currentScreen a) then
    let a := app_set_horizontalForce a
               (fmin MAX_HORIZONTAL_FORCE (horizontalForce a + 10.0)) in
    shootIfIdle a
  else if (wParam =? VK_DOWN)%Z && isCourt (currentScreen a) then
    let a := app_set_horizontalForce a
               (fmax MIN_HORIZONTAL_FORCE (horizontalForce a - 10.0)) in
    shootIfIdle a
  else if ((wParam =? chr "W")%Z || (wParam =? chr "w")%Z)
          && isCourt (currentScreen a) then
    let a := app_set_launchAngle a (fmin MAX_ANGLE (launchAngle a + ANGLE_STEP)) in
    shootIfIdle a
  else if ((wParam =? chr "S")%Z || (wParam =? chr "s")%Z)
          && isCourt (currentScreen a) then
    let a := app_set_launchAngle a (fmax MIN_ANGLE (launchAngle a - ANGLE_STEP)) in
    shootIfIdle a
  else if ((wParam =? chr "D")%Z || (wParam =? chr "d")%Z)
          && isCourt (currentScreen a) then
    let a := app_set_horizontalForce a
               (fmin MAX_HORIZONTAL_FORCE (horizontalForce a + 10.0)) in
    shootIfIdle a
  else if ctrl && ((wParam =? VK_OEM_PLUS)%Z || (wParam =? VK_ADD)%Z) then
    if isCourt (currentScreen a) then
      let a := app_set_ballSpin a (fmin MAX_SPIN (ballSpin a + SPIN_STEP)) in
      shootIfIdle a
    else a
  else if ctrl && ((wParam =? VK_OEM_MINUS)%Z || (wParam =? VK_SUBTRACT)%Z) then
    if isCourt (currentScreen a) then
      let a := app_set_ballSpin a (fmax MIN_SPIN (ballSpin a - SPIN_STEP)) in
      shootIfIdle a
    else a
  else if ((wParam =? VK_OEM_PERIOD)%Z || (wParam =? chr ".")%Z) && shift then
    if isCourt (currentScreen a) then
      let a := app_set_ballSpin a (fmin MAX_SPIN (ballSpin a + SPIN_STEP)) in
      shootIfIdle a
    else a
  else if ((wParam =? VK_OEM_COMMA)%Z || (wParam =? chr ",")%Z) && shift then
    if isCourt (currentScreen a) then
      let a := app_set_ballSpin a (fmax MIN_SPIN (ballSpin a - SPIN_STEP)) in
      shootIfIdle a
    else a
  else if (wParam =? VK_OEM_PLUS)%Z || (wParam =? VK_ADD)%Z then
    app_set_visualPaceMultiplier a (fmin 10.0 (visualPaceMultiplier a * 1.1))
  else if (wParam =? VK_OEM_MINUS)%Z || (wParam =? VK_SUBTRACT)%Z then
    app_set_visualPaceMultiplier a (fmax 0.1 (visualPaceMultiplier a / 1.1))
  else a.

(** [x], [y] are the client coordinates of the click. *)
Definition OnMouseClick (a : D2DApp) (x y : Z) : D2DApp :=
  if negb (isCourt (currentScreen a)) then a else
  if Qleb comboBoxLeft (inject_Z x) && Qleb (inject_Z x) comboBoxRight
     && Qleb comboBoxTop (inject_Z y) && Qleb (inject_Z y) comboBoxBottom
  then
    let a := app_set_airResistanceMode a
               (airOfIndex (Z.rem (airIndex (airResistanceMode a) + 1) 4)) in
    if negb (simulationStarted a) then airAndShootCurrent a else a
  else a.

Definition OnMouseWheel (a : D2DApp) (delta : Z) : D2DApp :=
  if negb (isCourt (currentScreen a)) then a else
  let a :=
    if (0 <? delta)%Z
    then app_set_launchAngle a (fmin MAX_ANGLE (launchAngle a + ANGLE_STEP))
    else app_set_launchAngle a (fmax MIN_ANGLE (launchAngle a - ANGLE_STEP)) in
  shootIfIdle a.

(** [n] successive timer ticks; [inps k] is what the [k]-th tick reads. *)
Fixpoint ticks (n : nat) (a : D2DApp) (inps : nat -> Inputs) : option D2DApp :=
  match n with
  | O => Some a
  | S k =>
      a' <- ticks k a inps ;;
      Update sqrtf cosf sinf RIGHTY_SPEED a' (inps k)
  end.

(** The messages [WindowProc] hands to the simulation, each with what its
    handler reads: a timer tick with the inputs of [Update], a key with the
    state of the CTRL and SHIFT keys, a click with its client coordinates,
    the wheel with its delta. *)
Inductive Message :=
  | WM_TIMER (inp : Inputs)
  | WM_KEYDOWN (wParam : Z) (ctrl shift : bool)
  | WM_LBUTTONDOWN (xPos yPos : Z)
  | WM_MOUSEWHEEL (delta : Z).

Definition WindowProc (a : D2DApp) (msg : Message) : option D2DApp :=
  match msg with
  | WM_TIMER inp => Update sqrtf cosf sinf RIGHTY_SPEED a inp
  | WM_KEYDOWN wParam ctrl shift => Some (OnKeyPress a wParam ctrl shift)
  | WM_LBUTTONDOWN xPos yPos => Some (OnMouseClick a xPos yPos)
  | WM_MOUSEWHEEL delta => Some (OnMouseWheel a delta)
  end.

(** The message loop: the messages are dispatched in the order they come. *)
Fixpoint messageLoop (a : D2DApp) (msgs : list Message) : option D2DApp :=
  match msgs with
  | [] => Some a
  | msg :: rest => a' <- WindowProc a msg ;; messageLoop a' rest
  end.

(** The range [OnKeyPress] keeps the spin setting in. *)
Definition spinInRange (a : D2DApp) : Prop :=
  MIN_SPIN <= ballSpin a <= MAX_SPIN.

End Events.

(** The ranges the handlers keep the other settings and the player in. *)
Definition settingsInRange (a : D2DApp) : Prop :=
  MIN_HORIZONTAL_FORCE <= horizontalForce a <= MAX_HORIZONTAL_FORCE /\
  MIN_ANGLE <= launchAngle a <= MAX_ANGLE /\
  0.1 <= visualPaceMultiplier a <= 10.0 /\
  NET_X <= rightyPosition a <= COURT_LENGTH.

(** Between two messages no return-shot dialog is open, and a pending
    relaunch belongs to a running single-court screen whose ball has
    stopped. *)
Definition wellFormed (a : D2DApp) : Prop :=
  simulationPaused a = false /\
  ballHitRighty a = false /\
  (simulationStarted a = true -> waitingToRelaunch a = true ->
   currentScreen a <> MODE_ALL /\
   isActive (courtBall (currentScreen a) a) = false).

(** The constructor of [D2DApp], for the default settings in force when it
    runs; the Direct2D members belong to the renderer. *)
Definition newD2DApp
    (DEFAULT_HORIZONTAL_FORCE DEFAULT_ANGLE DEFAULT_SPIN DEFAULT_PACE : Q)
    : D2DApp :=
  {| balls := map newTennisBall courts;
     simulationStarted := false;
     simulationComplete := false;
     currentScreen := MODE_ALL;
     clayBall := newTennisBall (court 0);
     grassBall := newTennisBall (court 1);
     hardBall := newTennisBall (court 2);
     laverBall := newTennisBall (court 3);
     horizontalForce := DEFAULT_HORIZONTAL_FORCE;
     launchAngle := DEFAULT_ANGLE;
     ballSpin := DEFAULT_SPIN;
     visualPaceMultiplier := DEFAULT_PACE;
     airResistanceMode := AIR_SEA_LEVEL;
     waitingToRelaunch := false;
     relaunchTimer := 0.0;
     rightyPosition := COURT_LENGTH - 1.0;
     ballHitRighty := false;
     simulationPaused := false;
     rightyHitForce := 300.0;
     rightyHitAngle := 30.0;
     rightyHitSpin := 120.0 |}.

(** The ball [update] hands back, and [n] calls of [update] in a row with
    the same step that draw the same number. *)
Definition updated (sqrtf : Q -> Q) (b : TennisBall) (dt : Q) (r : Z)
    : TennisBall :=
  match update sqrtf b dt r with
  | Some b' => b'
  | None => b
  end.

Fixpoint updatedTimes (sqrtf : Q -> Q) (n : nat) (b : TennisBall) (dt : Q)
    : TennisBall :=
  match n with
  | O => b
  | S k => updated sqrtf (updatedTimes sqrtf k b dt) dt 0
  end.

(** A ball of the all-courts screen: it has stopped, or it drops straight
    down at the left end of the court and does not spin. *)
Definition dropsVertically (b : TennisBall) : Prop :=
  isActive b = false \/ (vx b == 0 /\ x b == 0 /\ spinRPM b == 0).

(** What the rand() calls of a message return is not negative. *)
Definition randNonNegative (msg : Message) : Prop :=
  match msg with
  | WM_TIMER inp => forall k, (0 <= rand inp k)%Z
  | _ => True
  end.

Definition isSpaceKey (msg : Message) : bool :=
  match msg with
  | WM_KEYDOWN wParam _ _ => (wParam =? VK_SPACE)%Z
  | _ => false
  end.

Definition isTimer (msg : Message) : bool :=
  match msg with
  | WM_TIMER _ => true
  | _ => false
  end.

(** *** The OK button of the return-shot dialog

    [RightyHitDialogProc], case [IDOK].  [GetDlgItemInt] reads an edit
    control: it reports success or failure and yields 0 on failure; the
    force and angle controls are read unsigned, the spin control signed. *)

Inductive DialogField := FIELD_FORCE | FIELD_ANGLE | FIELD_SPIN.

Inductive DialogMessage :=
  | InvalidInput (f : DialogField)
  | TooLow (f : DialogField)
  | TooHigh (f : DialogField).

Definition readUnsigned (v : option N) : Q :=
  match v with
  | Some n => inject_Z (Z.of_N n)
  | None => 0
  end.

Definition readSigned (v : option Z) : Q :=
  match v with
  | Some n => inject_Z n
  | None => 0
  end.

Definition success {A : Type} (v : option A) : bool :=
  match v with
  | Some _ => true
  | None => false
  end.

(** The result is the parameters as written so far and the message box
    shown (the control named in it gets the focus and the dialog stays
    open), or no message when the dialog ends with [confirmed] set. *)
Definition dialogOk (p : RightyHitParams) (forceItem angleItem : option N)
    (spinItem : option Z) : RightyHitParams * option DialogMessage :=
  let p := {| force := readUnsigned forceItem; angle := angle p;
              spin := spin p |} in
  if negb (success forceItem) then (p, Some (InvalidInput FIELD_FORCE)) else
  if Qltb (force p) 10.0 then (p, Some (TooLow FIELD_FORCE)) else
  if Qltb 600.0 (force p) then (p, Some (TooHigh FIELD_FORCE)) else
  let p := {| force := force p; angle := readUnsigned angleItem;
              spin := spin p |} in
  if negb (success angleItem) then (p, Some (InvalidInput FIELD_ANGLE)) else
  if Qltb (angle p) 0.0 then (p, Some (TooLow FIELD_ANGLE)) else
  if Qltb 75.0 (angle p) then (p, Some (TooHigh FIELD_ANGLE)) else
  let p := {| force := force p; angle := angle p;
              spin := readSigned spinItem |} in
  if negb (success spinItem) then (p, Some (InvalidInput FIELD_SPIN)) else
  if Qltb (spin p) (-3000.0) then (p, Some (TooLow FIELD_SPIN)) else
  if Qltb 9000.0 (spin p) then (p, Some (TooHigh FIELD_SPIN)) else
  (p, None).

End CourtSim.

(** ** The two listings side by side *)

(** Two samples of a history that agree as numbers, and a ball of the
    second listing that is in the state of a ball of the first. *)
Definition sameSample (p q : BounceData) : Prop :=
  bd_time p == bd_time q /\ bd_height p == bd_height q.

Definition sameDrop (b : CourtSim.TennisBall) (d : DropSim.TennisBall) : Prop :=
  CourtSim.y b == DropSim.y d /\
  CourtSim.vy b == DropSim.vy d /\
  CourtSim.time b == DropSim.time d /\
  CourtSim.bounceCount b = DropSim.bounceCount d /\
  CourtSim.isActive b = DropSim.isActive d /\
  CourtSim.surface b = DropSim.surface d /\
  Forall2 sameSample (CourtSim.trajectory b) (DropSim.trajectory d) /\
  Forall2 sameSample (CourtSim.bounces b) (DropSim.bounces d).

(** ** Executable stand-ins for libm and sample states *)

(** Square root to six decimals. *)
Definition sqrt_micro (q : Q) : Q :=
  inject_Z (Z.sqrt (Qfloor (q * 1000000000000))) / 1000000.

(** Taylor polynomials for cosine (degree four) and sine (degree five). *)
Definition cos_poly (a : Q) : Q := 1 - a * a / 2 + a * a * a * a / 24.
Definition sin_poly (a : Q) : Q := a - a * a * a / 6 + a * a * a * a * a / 120.

Definition sampleBall (x0 y0 vx0 vy0 spin0 : Q) : CourtSim.TennisBall :=
  {| CourtSim.y := y0; CourtSim.vy := vy0; CourtSim.x := x0; CourtSim.vx := vx0;
     CourtSim.time := 0; CourtSim.bounceCount := 0; CourtSim.isActive := true;
     CourtSim.surface := court 0; CourtSim.airResistanceCoeff := 0;
     CourtSim.spinRPM := spin0; CourtSim.trajectory := []; CourtSim.bounces := [] |}.

(** A ball 8.5 cm before the net, flying at 20 m/s, two metres up. *)
Definition ballOverNet : CourtSim.TennisBall := sampleBall 11.8 2.0 20 0 0.
(** The same ball half a metre up: it runs into the net. *)
Definition ballIntoNet : CourtSim.TennisBall := sampleBall 11.8 0.5 20 0 0.
(** A fast ball just above the ground. *)
Definition ballBouncing : CourtSim.TennisBall := sampleBall 5 0.01 10 (-5) 1000.
(** A slow ball just above the ground. *)
Definition ballSettling : CourtSim.TennisBall := sampleBall 5 0.0005 1 0 0.
(** A ball half a centimetre before the net and a millimetre above the ground. *)
Definition ballNetFoot : CourtSim.TennisBall := sampleBall 11.88 0.001 20 (-1) 0.
(** A ball 17 cm before the receiving player's default position. *)
Definition ballAtRighty : CourtSim.TennisBall := sampleBall 22.6 1.0 10 0 0.

Definition sampleApp (ball : CourtSim.TennisBall) (waiting : bool) (timer : Q)
    : CourtSim.D2DApp :=
  {| CourtSim.balls := [];
     CourtSim.simulationStarted := true;
     CourtSim.simulationComplete := false;
     CourtSim.currentScreen := CourtSim.MODE_CLAY;
     CourtSim.clayBall := ball;
     CourtSim.grassBall := CourtSim.newTennisBall (court 1);
     CourtSim.hardBall := CourtSim.newTennisBall (court 2);
     CourtSim.laverBall := CourtSim.newTennisBall (court 3);
     CourtSim.horizontalForce := 270.0;
     CourtSim.launchAngle := 39.0;
     CourtSim.ballSpin := 120.0;
     CourtSim.visualPaceMultiplier := 2.0;
     CourtSim.airResistanceMode := CourtSim.AIR_SEA_LEVEL;
     CourtSim.waitingToRelaunch := waiting;
     CourtSim.relaunchTimer := timer;
     CourtSim.rightyPosition := CourtSim.COURT_LENGTH - 1.0;
     CourtSim.ballHitRighty := false;
     CourtSim.simulationPaused := false;
     CourtSim.rightyHitForce := 300.0;
     CourtSim.rightyHitAngle := 30.0;
     CourtSim.rightyHitSpin := 120.0 |}.

Definition sampleInputs (r0 r1 r2 : Z) : CourtSim.Inputs :=
  {| CourtSim.keyLeft := false; CourtSim.keyRight := false;
     CourtSim.rand := fun k => match k with O => r0 | S O => r1 | _ => r2 end;
     CourtSim.dialog := None |}.

(** A ball that came to rest, and the application waiting to relaunch it
    with the timer one tick before the delay. *)
Definition ballStopped : CourtSim.TennisBall :=
  CourtSim.set_isActive (sampleBall 9 0 0 0 0) false.

Definition appWaiting : CourtSim.D2DApp := sampleApp ballStopped true 1.99.

(** A ball of the first listing at rest after its eleventh bounce. *)
Definition dropBallAtRest : DropSim.TennisBall :=
  {| DropSim.y := 0.0; DropSim.vy := 0.0; DropSim.time := 3.2;
     DropSim.bounceCount := 11; DropSim.isActive := false;
     DropSim.surface := court 0;
     DropSim.trajectory := []; DropSim.bounces := [] |}.

(** The step of a tick at the default visual pace (200 %). *)
Definition tick : Q := CourtSim.DT * 2.0.

(** The step of a tick at the largest visual pace (1000 %). *)
Definition fastTick : Q := CourtSim.DT * 10.0.

(** The state of a ball after the physics block of a tick, and after the
    net check that follows it. *)
Definition afterIntegrate (b : CourtSim.TennisBall) (dt : Q) : CourtSim.TennisBall :=
  match CourtSim.integrate sqrt_micro b dt with Some b1 => b1 | None => b end.

Definition afterNet (b : CourtSim.TennisBall) (dt : Q) (r : Z) : CourtSim.TennisBall :=
  match CourtSim.netCollision (CourtSim.x b) (CourtSim.y b) r (afterIntegrate b dt) with
  | Some b2 => b2
  | None => b
  end.

(** * Properties *)

Import CourtSim.

(** ** Comparisons and checked division *)

Lemma Qltb_lt (a b : Q) : Qltb a b = true <-> a < b.
Proof.
  unfold Qltb. rewrite negb_true_iff, <- not_true_iff_false, Qle_bool_iff.
  split; intro H; [apply Qnot_le_lt | apply Qlt_not_le]; exact H.
Qed.

Lemma Qltb_ge (a b : Q) : Qltb a b = false <-> b <= a.
Proof.
  unfold Qltb. rewrite negb_false_iff. apply Qle_bool_iff.
Qed.

Lemma Qleb_le (a b : Q) : Qleb a b = true <-> a <= b.
Proof. apply Qle_bool_iff. Qed.

Lemma Qleb_gt (a b : Q) : Qleb a b = false <-> b < a.
Proof.
  unfold Qleb. rewrite <- not_true_iff_false, Qle_bool_iff.
  split; intro H; [apply Qnot_le_lt | apply Qlt_not_le]; exact H.
Qed.

Lemma fdiv_nonzero (a d : Q) : ~ d == 0 -> a // d = Some (a / d).
Proof.
  intro H. unfold fdiv. destruct (Qeq_bool d 0) eqn:E; [|reflexivity].
  apply Qeq_bool_iff in E. contradiction.
Qed.

Lemma fdiv_const (a d : Q) : Qeq_bool d 0 = false -> a // d = Some (a / d).
Proof. intro H. unfold fdiv. rewrite H. reflexivity. Qed.

(** The net plane is crossed only by a step that moves the ball. *)
Lemma crossedNet_moves (netX prevX x1 : Q) :
  crossedNet netX prevX x1 = true -> ~ x1 - prevX == 0.
Proof.
  unfold crossedNet. rewrite orb_true_iff, !andb_true_iff, !Qltb_lt, !Qleb_le.
  intros [[H1 H2]|[H1 H2]] H; lra.
Qed.

(** Closed equalities and comparisons are settled by evaluation. *)
Ltac by_evaluation :=
  vm_compute; first [reflexivity | discriminate | intro; discriminate].

(** ** The blocks of [update] *)

Ltac ball_fields :=
  cbn [set_time set_vy set_y set_x set_vx set_spinRPM set_bounceCount
       set_isActive set_trajectory set_bounces set_airResistanceCoeff
       setAirResistance recordTrajectory
       y vy x vx time bounceCount isActive surface airResistanceCoeff spinRPM
       trajectory bounces] in *.

Section Blocks.

Variable sqrtf : Q -> Q.

Lemma integrate_eq (b : TennisBall) (dt : Q) :
  integrate sqrtf b dt =
  Some {| y := y b + vyAfter sqrtf b dt * dt; vy := vyAfter sqrtf b dt;
          x := x b + vxAfter b dt * dt; vx := vxAfter b dt;
          time := time b + dt; bounceCount := bounceCount b;
          isActive := isActive b; surface := surface b;
          airResistanceCoeff := airResistanceCoeff b; spinRPM := spinRPM b;
          trajectory := trajectory b; bounces := bounces b |}.
Proof.
  unfold integrate, vyAfter, vxAfter.
  rewrite !(fdiv_const _ 60.0) by reflexivity.
  ball_fields.
  destruct (Qltb 0.1 _);
    rewrite !(fdiv_const _ BALL_MASS) by reflexivity; reflexivity.
Qed.

Lemma integrate_total (b : TennisBall) (dt : Q) :
  exists b1, integrate sqrtf b dt = Some b1.
Proof. rewrite integrate_eq. eexists. reflexivity. Qed.

Lemma randomDeflection_eq (r : Z) : randomDeflection r = Some (deflection r).
Proof.
  unfold randomDeflection. cbn [imod Z.eqb].
  rewrite fdiv_const by reflexivity. reflexivity.
Qed.

Lemma netX_eq : COURT_LENGTH // 2.0 = Some NET_X.
Proof. reflexivity. Qed.

(** Without a hit the net check hands the ball back as it is. *)
Lemma netCollision_miss (prevX prevY : Q) (r : Z) (b : TennisBall) :
  netHit prevX prevY b = false -> netCollision prevX prevY r b = Some b.
Proof.
  unfold netHit, netCollision, collisionY. rewrite netX_eq. intro H.
  destruct (crossedNet NET_X prevX (x b)) eqn:C; [|reflexivity].
  rewrite (fdiv_nonzero _ _ (crossedNet_moves _ _ _ C)).
  cbn [andb] in H. rewrite H. reflexivity.
Qed.

(** With a hit it resolves the collision. *)
Lemma netCollision_hit (prevX prevY : Q) (r : Z) (b : TennisBall) :
  netHit prevX prevY b = true ->
  netCollision prevX prevY r b =
  let vx1 := - vx b * (1.0 - NET_ABSORPTION) in
  let vy1 := vy b * (1.0 - NET_ABSORPTION) + deflection r in
  Some {| y := collisionY prevX prevY b; vy := vy1;
          x := NET_X;
          vx := if Qltb (Qabs vx1) 0.5 && Qltb (Qabs vy1) 0.5 then 0.0 else vx1;
          time := time b; bounceCount := bounceCount b;
          isActive := isActive b; surface := surface b;
          airResistanceCoeff := airResistanceCoeff b;
          spinRPM := spinRPM b * (1.0 - NET_ABSORPTION);
          trajectory := trajectory b; bounces := bounces b |}.
Proof.
  unfold netHit, netCollision, collisionY. rewrite netX_eq.
  rewrite andb_true_iff. intros [C H]. rewrite C.
  rewrite (fdiv_nonzero _ _ (crossedNet_moves _ _ _ C)).
  rewrite H, randomDeflection_eq. ball_fields. cbv zeta.
  destruct (_ && _); reflexivity.
Qed.

Lemma netCollision_total (prevX prevY : Q) (r : Z) (b : TennisBall) :
  exists b2, netCollision prevX prevY r b = Some b2.
Proof.
  destruct (netHit prevX prevY b) eqn:H.
  - rewrite (netCollision_hit _ _ _ _ H). eexists; reflexivity.
  - rewrite (netCollision_miss _ _ _ _ H). eexists; reflexivity.
Qed.

(** Above the ground the ground check hands the ball back as it is. *)
Lemma groundCollision_above (b : TennisBall) :
  0.0 < y b -> groundCollision b = Some b.
Proof.
  intro H. unfold groundCollision.
  apply Qleb_gt in H. rewrite H. reflexivity.
Qed.

(** On the ground it resolves the bounce; the rest rule is its last step. *)
Lemma groundCollision_bounce (b : TennisBall) :
  y b <= 0.0 ->
  groundCollision b =
  let vy1 := - vy b * coefficientOfRestitution (surface b) in
  let vx1 := vx b * 0.8 + spinRPM b / 5000.0 * 2.0 in
  let n := (bounceCount b + 1)%Z in
  let stop := Qltb (Qabs vy1) 0.1 || (10 <? n)%Z in
  Some {| y := 0.0; vy := if stop then 0.0 else vy1;
          x := x b; vx := if stop then 0.0 else vx1;
          time := time b; bounceCount := n;
          isActive := if stop then false else isActive b;
          surface := surface b;
          airResistanceCoeff := airResistanceCoeff b;
          spinRPM := spinRPM b * 0.7;
          trajectory := trajectory b;
          bounces := if (bounceCount b <? 3)%Z
                     then bounces b ++ [ {| bd_time := time b; bd_height := 0.0 |} ]
                     else bounces b |}.
Proof.
  intro H. unfold groundCollision.
  apply Qleb_le in H. rewrite H.
  rewrite fdiv_const by reflexivity. cbv zeta. ball_fields.
  destruct (bounceCount b <? 3)%Z; ball_fields;
    destruct (_ || _); reflexivity.
Qed.

Lemma groundCollision_total (b : TennisBall) :
  exists b', groundCollision b = Some b'.
Proof.
  destruct (Qlt_le_dec 0.0 (y b)) as [H|H].
  - rewrite (groundCollision_above _ H). eexists; reflexivity.
  - rewrite (groundCollision_bounce _ H). eexists; reflexivity.
Qed.

Lemma update_total (b : TennisBall) (dt : Q) (r : Z) :
  exists b', update sqrtf b dt r = Some b'.
Proof.
  unfold update. destruct (negb (isActive b)); [eexists; reflexivity|].
  destruct (integrate_total b dt) as [b1 ->].
  destruct (netCollision_total (x b) (y b) r b1) as [b2 ->].
  destruct (groundCollision_total (recordTrajectory b2)) as [b3 ->].
  eexists; reflexivity.
Qed.

(** [update] on an active ball, block after block. *)
Lemma update_active (b : TennisBall) (dt : Q) (r : Z) (b1 b2 : TennisBall) :
  isActive b = true ->
  integrate sqrtf b dt = Some b1 ->
  netCollision (x b) (y b) r b1 = Some b2 ->
  update sqrtf b dt r =
  (b3 <- groundCollision (recordTrajectory b2) ;; Some (outOfBounds b3)).
Proof.
  intros A I N. unfold update. rewrite A, I, N. reflexivity.
Qed.

End Blocks.

(** What the blocks before the ground check leave alone. *)
Lemma motion_frame (sqrtf : Q -> Q) (b b1 b2 : TennisBall) (dt : Q) (r : Z) :
  integrate sqrtf b dt = Some b1 ->
  netCollision (x b) (y b) r b1 = Some b2 ->
  surface b2 = surface b /\ bounceCount b2 = bounceCount b /\
  isActive b2 = isActive b /\ bounces b2 = bounces b /\
  trajectory b2 = trajectory b /\ time b2 = time b + dt /\
  airResistanceCoeff b2 = airResistanceCoeff b.
Proof.
  intros I N. rewrite integrate_eq in I. injection I as <-.
  destruct (netHit (x b) (y b)
              {| y := y b + vyAfter sqrtf b dt * dt; vy := vyAfter sqrtf b dt;
                 x := x b + vxAfter b dt * dt; vx := vxAfter b dt;
                 time := time b + dt; bounceCount := bounceCount b;
                 isActive := isActive b; surface := surface b;
                 airResistanceCoeff := airResistanceCoeff b; spinRPM := spinRPM b;
                 trajectory := trajectory b; bounces := bounces b |}) eqn:H.
  - rewrite (netCollision_hit _ _ _ _ H) in N. injection N as <-.
    repeat split.
  - rewrite (netCollision_miss _ _ _ _ H) in N. injection N as <-.
    repeat split.
Qed.

Lemma outOfBounds_frame (b : TennisBall) :
  y (outOfBounds b) = y b /\ vy (outOfBounds b) = vy b /\
  x (outOfBounds b) = x b /\ vx (outOfBounds b) = vx b /\
  spinRPM (outOfBounds b) = spinRPM b /\
  bounceCount (outOfBounds b) = bounceCount b /\
  (isActive b = false -> isActive (outOfBounds b) = false).
Proof.
  unfold outOfBounds. destruct (_ || _); repeat split; auto.
Qed.

(** ** Frame and totality of the per-tick update *)

(** C10: on a ball whose [isActive] flag is false, [update] returns the ball
    as it is, for every step [dt]: no member changes and no trajectory sample
    is appended.  This holds for the ball of both listings; the call never
    fails. *)
Theorem update_inactive_unchanged :
  forall (sqrtf : Q -> Q) (b : TennisBall) (d : DropSim.TennisBall)
         (dt : Q) (r : Z),
  isActive b = false ->
  DropSim.isActive d = false ->
  update sqrtf b dt r = Some b /\ DropSim.update d dt = d.
Proof.
  intros sqrtf b d dt r H H'. split.
  - unfold update. rewrite H. reflexivity.
  - unfold DropSim.update. rewrite H'. reflexivity.
Qed.

(** Two balls at rest stay as they are. *)
Lemma update_inactive_unchanged_witness :
  update sqrt_micro ballStopped tick 0 = Some ballStopped /\
  DropSim.update dropBallAtRest DropSim.DT = dropBallAtRest.
Proof.
  apply (update_inactive_unchanged sqrt_micro ballStopped dropBallAtRest
           tick 0); reflexivity.
Defined.

(** C9: [reset] after [reset] is [reset]: the ball is at height 2.0 and
    [x = 0] with zero velocities, time 0, no bounce counted, active, the
    trajectory holds the one sample (0, 2.0) and the bounce history is empty.
    Both listings. *)
Theorem reset_idempotent :
  forall (b : TennisBall) (d : DropSim.TennisBall),
  (reset (reset b) = reset b /\
   y (reset b) = 2.0 /\ x (reset b) = 0.0 /\
   vx (reset b) = 0.0 /\ vy (reset b) = 0.0 /\
   time (reset b) = 0.0 /\ bounceCount (reset b) = 0%Z /\
   isActive (reset b) = true /\
   trajectory (reset b) = [ {| bd_time := 0.0; bd_height := 2.0 |} ] /\
   bounces (reset b) = []) /\
  (DropSim.reset (DropSim.reset d) = DropSim.reset d /\
   DropSim.y (DropSim.reset d) = 2.0 /\ DropSim.vy (DropSim.reset d) = 0.0 /\
   DropSim.time (DropSim.reset d) = 0.0 /\
   DropSim.bounceCount (DropSim.reset d) = 0%Z /\
   DropSim.isActive (DropSim.reset d) = true /\
   DropSim.trajectory (DropSim.reset d) = [ {| bd_time := 0.0; bd_height := 2.0 |} ] /\
   DropSim.bounces (DropSim.reset d) = []).
Proof.
  intros b d. destruct b, d. vm_compute. repeat split.
Qed.

(** C8: every division of the per-tick update has a divisor that is not
    zero, so [update] always returns a ball.  The ball mass is a constant
    that is not zero; when the speed test [ballSpeed > 0.1] fails, the
    vertical velocity only gets gravity (no Magnus term is computed); and
    a step that crosses the net plane has [x - prevX <> 0]. *)
Theorem update_divisions_defined :
  forall (sqrtf : Q -> Q) (b : TennisBall) (dt : Q) (r : Z),
  (exists b', update sqrtf b dt r = Some b') /\
  ~ BALL_MASS == 0 /\
  (forall b1, integrate sqrtf b dt = Some b1 ->
     Qltb 0.1 (sqrtf (vx b * vx b
                      + (vy b - GRAVITY * dt) * (vy b - GRAVITY * dt))) = false ->
     vy b1 = vy b - GRAVITY * dt) /\
  (forall b1, integrate sqrtf b dt = Some b1 ->
     crossedNet NET_X (x b) (x b1) = true ->
     ~ x b1 - x b == 0 /\
     (NET_X - x b) // (x b1 - x b) = Some ((NET_X - x b) / (x b1 - x b))).
Proof.
  intros sqrtf b dt r. split; [apply update_total|].
  split; [intro H; discriminate H|].
  split.
  - intros b1 I G. rewrite integrate_eq in I. injection I as <-.
    cbn [vy]. unfold vyAfter. cbv zeta. rewrite G. reflexivity.
  - intros b1 _ C. pose proof (crossedNet_moves _ _ _ C) as M.
    split; [exact M | apply fdiv_nonzero, M].
Qed.

(** ** The net *)

(** C6: when the step crosses the net plane and the interpolated crossing
    height is strictly above [NET_HEIGHT + BALL_RADIUS], the net check returns
    the ball exactly as the physics block produced it, and the tick goes on
    with that ball. *)
Theorem net_cleared_unchanged :
  forall (sqrtf : Q -> Q) (b : TennisBall) (dt : Q) (r : Z) (b1 : TennisBall),
  isActive b = true ->
  integrate sqrtf b dt = Some b1 ->
  crossedNet NET_X (x b) (x b1) = true ->
  NET_HEIGHT + BALL_RADIUS < collisionY (x b) (y b) b1 ->
  netCollision (x b) (y b) r b1 = Some b1 /\
  update sqrtf b dt r =
    (b3 <- groundCollision (recordTrajectory b1) ;; Some (outOfBounds b3)).
Proof.
  intros sqrtf b dt r b1 A I C H.
  assert (N : netCollision (x b) (y b) r b1 = Some b1).
  { apply netCollision_miss. unfold netHit. rewrite C.
    apply Qleb_gt in H. rewrite H. reflexivity. }
  split; [exact N|]. apply (update_active sqrtf b dt r b1 b1 A I N).
Qed.

(** [ballOverNet] crosses the net plane two metres up. *)
Lemma net_cleared_unchanged_witness :
  netCollision (x ballOverNet) (y ballOverNet) 0 (afterIntegrate ballOverNet tick)
    = Some (afterIntegrate ballOverNet tick) /\
  update sqrt_micro ballOverNet tick 0 =
    (b3 <- groundCollision (recordTrajectory (afterIntegrate ballOverNet tick)) ;;
     Some (outOfBounds b3)).
Proof.
  apply (net_cleared_unchanged sqrt_micro ballOverNet tick 0
           (afterIntegrate ballOverNet tick));
    by_evaluation.
Defined.

(** The deflection drawn at the net stays within 15 cm/s. *)
Lemma deflection_range (r : Z) :
  (0 <= r)%Z -> -0.15 <= deflection r /\ deflection r < 0.15.
Proof.
  intro H. unfold deflection.
  pose proof (Z.rem_bound_pos r 100 H ltac:(lia)) as [L U].
  assert (0 <= inject_Z (Z.rem r 100)) by (rewrite <- (Zle_Qle 0); exact L).
  assert (inject_Z (Z.rem r 100) < 100) by (rewrite <- (Zlt_Qlt _ 100); exact U).
  assert (E : inject_Z (Z.rem r 100) / 100.0 == inject_Z (Z.rem r 100) * 0.01)
    by field.
  rewrite E. split; lra.
Qed.

(** C1 (as the code has it): a step that crosses the net plane at a height
    of at most [NET_HEIGHT + BALL_RADIUS] puts the ball on the net plane at
    the interpolated height, multiplies spin by [1 - 0.8], turns [vy] into
    [vy * (1 - 0.8)] plus the random deflection, and REVERSES the horizontal
    velocity: [vx] becomes [-vx * (1 - 0.8)], or 0 when both velocity
    components end below 0.5 m/s.  A ball that flew forward never keeps
    flying forward. *)
Theorem net_hit_reflects :
  forall (sqrtf : Q -> Q) (b : TennisBall) (dt : Q) (r : Z) (b1 : TennisBall),
  isActive b = true ->
  integrate sqrtf b dt = Some b1 ->
  crossedNet NET_X (x b) (x b1) = true ->
  collisionY (x b) (y b) b1 <= NET_HEIGHT + BALL_RADIUS ->
  exists b2,
    netCollision (x b) (y b) r b1 = Some b2 /\
    update sqrtf b dt r =
      (b3 <- groundCollision (recordTrajectory b2) ;; Some (outOfBounds b3)) /\
    x b2 = NET_X /\
    y b2 = collisionY (x b) (y b) b1 /\
    spinRPM b2 = spinRPM b1 * (1.0 - NET_ABSORPTION) /\
    vy b2 = vy b1 * (1.0 - NET_ABSORPTION) + deflection r /\
    vx b2 = (if Qltb (Qabs (- vx b1 * (1.0 - NET_ABSORPTION))) 0.5
                && Qltb (Qabs (vy b2)) 0.5
             then 0.0
             else - vx b1 * (1.0 - NET_ABSORPTION)) /\
    (0 < vx b1 -> vx b2 <= 0) /\
    (vx b1 < 0 -> 0 <= vx b2) /\
    ((0 <= r)%Z -> -0.15 <= deflection r /\ deflection r < 0.15).
Proof.
  intros sqrtf b dt r b1 A I C H.
  assert (N : netHit (x b) (y b) b1 = true).
  { unfold netHit. rewrite C. apply Qleb_le in H. rewrite H. reflexivity. }
  pose proof (netCollision_hit (x b) (y b) r b1 N) as E. cbv zeta in E.
  eexists. split; [exact E|].
  split; [apply (update_active sqrtf b dt r b1 _ A I E)|].
  cbn [x y vx vy spinRPM].
  repeat (split; [reflexivity|]).
  unfold NET_ABSORPTION.
  split; [|split; [|apply deflection_range]];
    intro P; destruct (_ && _); lra.
Qed.

(** [ballIntoNet] crosses the net plane half a metre up. *)
Lemma net_hit_reflects_witness :
  exists b2,
    netCollision (x ballIntoNet) (y ballIntoNet) 50 (afterIntegrate ballIntoNet tick)
      = Some b2 /\
    x b2 = NET_X /\ vx b2 <= 0.
Proof.
  destruct (net_hit_reflects sqrt_micro ballIntoNet tick 50
              (afterIntegrate ballIntoNet tick))
    as [b2 [N [_ [X [_ [_ [_ [_ [S _]]]]]]]]];
    [by_evaluation ..|].
  exists b2. split; [exact N|]. split; [exact X|].
  apply S. by_evaluation.
Defined.

(** C1 (as the specification states it) fails: the ball [ballIntoNet]
    flies forward at 20 m/s, crosses the net plane half a metre up, and
    leaves the tick with [vx = -4], not with [20 * (1 - 0.8) = 4].  The draw
    50 makes the random deflection zero. *)
Lemma net_hit_reverses_vx :
  exists b1 b2 b',
    isActive ballIntoNet = true /\
    integrate sqrt_micro ballIntoNet tick = Some b1 /\
    crossedNet NET_X (x ballIntoNet) (x b1) = true /\
    collisionY (x ballIntoNet) (y ballIntoNet) b1 <= NET_HEIGHT + BALL_RADIUS /\
    netCollision (x ballIntoNet) (y ballIntoNet) 50 b1 = Some b2 /\
    update sqrt_micro ballIntoNet tick 50 = Some b' /\
    vx b1 == 20 /\ vx b2 == -4 /\ vx b' == -4 /\
    ~ vx b2 == vx b1 * (1 - 0.8).
Proof.
  do 3 eexists.
  repeat (split; [by_evaluation|]). by_evaluation.
Qed.

(** ** The ground *)

(** [update] on an active ball whose height is not positive when the ground
    check runs. *)
Lemma update_on_ground (sqrtf : Q -> Q) (b : TennisBall) (dt : Q) (r : Z)
    (b1 b2 : TennisBall) :
  isActive b = true ->
  integrate sqrtf b dt = Some b1 ->
  netCollision (x b) (y b) r b1 = Some b2 ->
  y b2 <= 0.0 ->
  exists b',
    update sqrtf b dt r = Some b' /\
    let vy1 := - vy b2 * coefficientOfRestitution (surface b) in
    let vx1 := vx b2 * 0.8 + spinRPM b2 / 5000.0 * 2.0 in
    let stop := Qltb (Qabs vy1) 0.1 || (10 <? bounceCount b + 1)%Z in
    y b' = 0.0 /\
    vy b' = (if stop then 0.0 else vy1) /\
    vx b' = (if stop then 0.0 else vx1) /\
    spinRPM b' = spinRPM b2 * 0.7 /\
    bounceCount b' = (bounceCount b + 1)%Z /\
    (stop = true -> isActive b' = false).
Proof.
  intros A I N G.
  destruct (motion_frame sqrtf b b1 b2 dt r I N) as [S [B _]].
  rewrite (update_active sqrtf b dt r b1 b2 A I N).
  rewrite groundCollision_bounce by exact G.
  cbv zeta. ball_fields. rewrite S, B.
  eexists. split; [reflexivity|].
  match goal with
  | |- context [outOfBounds ?g] =>
      destruct (outOfBounds_frame g) as [Y [VY [_ [VX [SP [BC AC]]]]]];
      rewrite Y, VY, VX, SP, BC
  end.
  ball_fields. repeat (split; [reflexivity|]).
  intro St. apply AC. ball_fields. rewrite St. reflexivity.
Qed.

(** C4 (as the code has it): when the height is not positive after the
    physics block and the net check of a tick on an active ball, the ground
    block sets [y = 0], multiplies spin by 0.7 and adds one to [bounceCount];
    it computes [-vy * e] and [vx * 0.8 + (spin / 5000) * 2.0] (the fixed 0.8,
    the surface's friction is not read), and these are the velocities the
    tick ends with unless the rest rule fires ([|-vy * e| < 0.1] or more than
    10 bounces), which sets both to 0. *)
Theorem ground_bounce :
  forall (sqrtf : Q -> Q) (b : TennisBall) (dt : Q) (r : Z) (b1 b2 : TennisBall),
  isActive b = true ->
  integrate sqrtf b dt = Some b1 ->
  netCollision (x b) (y b) r b1 = Some b2 ->
  y b2 <= 0.0 ->
  exists b',
    update sqrtf b dt r = Some b' /\
    y b' = 0.0 /\
    spinRPM b' = spinRPM b2 * 0.7 /\
    bounceCount b' = (bounceCount b + 1)%Z /\
    if Qltb (Qabs (- vy b2 * coefficientOfRestitution (surface b))) 0.1
       || (10 <? bounceCount b + 1)%Z
    then vy b' = 0.0 /\ vx b' = 0.0 /\ isActive b' = false
    else vy b' = - vy b2 * coefficientOfRestitution (surface b) /\
         vx b' = vx b2 * 0.8 + spinRPM b2 / 5000.0 * 2.0.
Proof.
  intros sqrtf b dt r b1 b2 A I N G.
  destruct (update_on_ground sqrtf b dt r b1 b2 A I N G)
    as [b' [U [Y [VY [VX [SP [BC AC]]]]]]].
  exists b'. repeat (split; [assumption|]).
  destruct (_ || _).
  - repeat split; auto.
  - split; assumption.
Qed.

(** [ballBouncing] comes down at 5 m/s with topspin and bounces off the clay. *)
Lemma ground_bounce_witness :
  exists b',
    update sqrt_micro ballBouncing tick 0 = Some b' /\
    y b' = 0.0 /\
    spinRPM b' = spinRPM (afterNet ballBouncing tick 0) * 0.7 /\
    bounceCount b' = 1%Z /\
    vy b' = - vy (afterNet ballBouncing tick 0) * 0.75 /\
    vx b' = vx (afterNet ballBouncing tick 0) * 0.8
            + spinRPM (afterNet ballBouncing tick 0) / 5000.0 * 2.0.
Proof.
  destruct (ground_bounce sqrt_micro ballBouncing tick 0
              (afterIntegrate ballBouncing tick) (afterNet ballBouncing tick 0))
    as [b' [U [Y [SP [BC V]]]]]; [by_evaluation ..|].
  exists b'. repeat (split; [assumption|]).
  replace (Qltb _ _ || _) with false in V by (vm_compute; reflexivity).
  exact V.
Defined.

(** C4 (as the specification states it) fails twice.  The slow ball
    [ballSettling] is below the ground after the physics block with
    [vx = 1]; the rest rule fires, and the tick ends with [vx = 0] and
    [vy = 0] where the specification has [0.8 * vx] and [-e * vy].  The
    ball [ballNetFoot] is below the ground after the physics block too, but
    the same step runs into the net, which puts it back at the interpolated
    height above the ground: no bounce is resolved in that tick. *)
Lemma ground_bounce_not_always :
  (exists b1 b',
     isActive ballSettling = true /\
     integrate sqrt_micro ballSettling DT = Some b1 /\
     netCollision (x ballSettling) (y ballSettling) 0 b1 = Some b1 /\
     y b1 <= 0 /\
     update sqrt_micro ballSettling DT 0 = Some b' /\
     vx b1 == 1 /\ vx b' == 0 /\ ~ vx b' == 0.8 * vx b1 + spinRPM b1 / 5000 * 2 /\
     vy b' == 0 /\ ~ vy b' == - (0.75 * vy b1)) /\
  (exists b1 b',
     isActive ballNetFoot = true /\
     integrate sqrt_micro ballNetFoot DT = Some b1 /\
     y b1 <= 0 /\
     update sqrt_micro ballNetFoot DT 0 = Some b' /\
     0 < y b' /\ bounceCount b' = bounceCount ballNetFoot).
Proof.
  split; do 2 eexists; repeat (split; [by_evaluation|]); by_evaluation.
Qed.

(** A call of [update] either leaves the bounce counter alone or counts one
    bounce of an active ball; a ball that is active after a counted bounce
    has bounced at most 10 times. *)
Lemma update_bounceCount (sqrtf : Q -> Q) (b b' : TennisBall) (dt : Q) (r : Z) :
  update sqrtf b dt r = Some b' ->
  (bounceCount b' = bounceCount b /\ (isActive b' = true -> isActive b = true))
  \/ (isActive b = true /\ bounceCount b' = (bounceCount b + 1)%Z /\
      (isActive b' = true -> (bounceCount b' <= 10)%Z)).
Proof.
  intro U. destruct (isActive b) eqn:A.
  2:{ left. unfold update in U. rewrite A in U. injection U as <-.
      split; [reflexivity | intro H; congruence]. }
  destruct (integrate_total sqrtf b dt) as [b1 I].
  destruct (netCollision_total (x b) (y b) r b1) as [b2 N].
  destruct (motion_frame sqrtf b b1 b2 dt r I N) as [_ [B _]].
  destruct (Qlt_le_dec 0.0 (y b2)) as [G|G].
  - left. rewrite (update_active sqrtf b dt r b1 b2 A I N) in U.
    rewrite groundCollision_above in U by exact G.
    injection U as <-.
    destruct (outOfBounds_frame (recordTrajectory b2)) as [_ [_ [_ [_ [_ [BC _]]]]]].
    rewrite BC. ball_fields. split; [exact B | reflexivity].
  - right. split; [reflexivity|].
    destruct (update_on_ground sqrtf b dt r b1 b2 A I N G)
      as [b'' [U' [_ [_ [_ [_ [BC AC]]]]]]].
    rewrite U' in U. injection U as <-. split; [exact BC|].
    intro A'. rewrite BC.
    destruct (10 <? bounceCount b + 1)%Z eqn:L.
    + rewrite orb_true_r in AC. rewrite AC in A' by reflexivity. discriminate.
    + apply Z.ltb_ge in L. exact L.
Qed.

(** From a launch on, the bounce counter stays between 0 and 11, and below
    11 while the ball is active. *)
Lemma bounceCount_bounded (sqrtf cosf sinf : Q -> Q) (b : TennisBall) :
  launched sqrtf cosf sinf b ->
  (0 <= bounceCount b <= 11)%Z /\ (isActive b = true -> (bounceCount b <= 10)%Z).
Proof.
  induction 1 as [b | b f a s | b b' L [IH1 IH2] S].
  - vm_compute. repeat split; intros; discriminate.
  - vm_compute. repeat split; intros; discriminate.
  - destruct S as [b dt r b' U | b c | b v1 v2 s1 x1 | b x1 | b]; ball_fields.
    + destruct (update_bounceCount _ _ _ _ _ U) as [[E A]|[A [E B]]].
      * rewrite E. split; [exact IH1 | intro H; apply IH2, A, H].
      * specialize (IH2 A). rewrite E. split; [lia | intro H; specialize (B H); lia].
    + split; assumption.
    + split; assumption.
    + split; assumption.
    + split; [assumption | intro H; discriminate].
Qed.

(** ** The application tick *)

Ltac app_fields :=
  cbn [app_set_balls app_set_simulationComplete app_set_clayBall
       app_set_grassBall app_set_hardBall app_set_laverBall
       app_set_horizontalForce app_set_launchAngle app_set_ballSpin
       app_set_waitingToRelaunch app_set_relaunchTimer app_set_rightyPosition
       app_set_ballHitRighty app_set_simulationPaused app_set_rightyHitForce
       app_set_rightyHitAngle app_set_rightyHitSpin courtBall set_courtBall
       balls simulationStarted simulationComplete currentScreen clayBall
       grassBall hardBall laverBall horizontalForce launchAngle ballSpin
       visualPaceMultiplier airResistanceMode waitingToRelaunch relaunchTimer
       rightyPosition ballHitRighty simulationPaused rightyHitForce
       rightyHitAngle rightyHitSpin] in *.

Section Tick.

Variables sqrtf cosf sinf : Q -> Q.
Variable RIGHTY_SPEED : Q.

Lemma courtBall_set (m : ScreenMode) (a : D2DApp) (b : TennisBall) :
  courtBall m (set_courtBall m a b) = b.
Proof. destruct m; reflexivity. Qed.

(** Writing a court ball touches no other member the tick reads. *)
Lemma set_courtBall_frame (m : ScreenMode) (a : D2DApp) (b : TennisBall) :
  simulationPaused (set_courtBall m a b) = simulationPaused a /\
  rightyPosition (set_courtBall m a b) = rightyPosition a /\
  waitingToRelaunch (set_courtBall m a b) = waitingToRelaunch a /\
  relaunchTimer (set_courtBall m a b) = relaunchTimer a /\
  airResistanceMode (set_courtBall m a b) = airResistanceMode a /\
  ballHitRighty (set_courtBall m a b) = ballHitRighty a.
Proof. destruct m; repeat split. Qed.

(** The player's move only writes [rightyPosition]. *)
Lemma moveRighty_frame (a : D2DApp) (inp : Inputs) (m : ScreenMode) :
  currentScreen (moveRighty RIGHTY_SPEED a inp) = currentScreen a /\
  courtBall m (moveRighty RIGHTY_SPEED a inp) = courtBall m a /\
  waitingToRelaunch (moveRighty RIGHTY_SPEED a inp) = waitingToRelaunch a /\
  relaunchTimer (moveRighty RIGHTY_SPEED a inp) = relaunchTimer a /\
  simulationPaused (moveRighty RIGHTY_SPEED a inp) = simulationPaused a /\
  airResistanceMode (moveRighty RIGHTY_SPEED a inp) = airResistanceMode a.
Proof.
  unfold moveRighty. destruct a as [? ? ? scr ? ? ? ? ? ? ? ? ? ? ? ? ? ? ? ? ?].
  cbn [currentScreen].
  destruct scr, (keyLeft inp), (keyRight inp), m; repeat split; reflexivity.
Qed.

(** On a single-court screen a running tick is the player's move followed
    by the branch of that court. *)
Lemma Update_single (a : D2DApp) (inp : Inputs) (m : ScreenMode) :
  simulationStarted a = true ->
  simulationComplete a = false ->
  simulationPaused a = false ->
  currentScreen a = m ->
  m <> MODE_ALL ->
  Update sqrtf cosf sinf RIGHTY_SPEED a inp =
  updateCourt sqrtf cosf sinf m (moveRighty RIGHTY_SPEED a inp)
    (DT * visualPaceMultiplier a) inp.
Proof.
  intros S C P M NA. unfold Update. rewrite S, C, P. cbn [negb orb].
  cbv zeta.
  destruct (moveRighty_frame a inp m) as [E _]. rewrite E, M.
  destruct m; [contradiction|reflexivity ..].
Qed.

(** The collision test reads the ball, the pause flag and the player's
    position. *)
Lemma CheckRightyCollision_reads (a a' : D2DApp) (b : TennisBall) :
  simulationPaused a' = simulationPaused a ->
  rightyPosition a' = rightyPosition a ->
  CheckRightyCollision a' b = CheckRightyCollision a b.
Proof.
  intros P R. unfold CheckRightyCollision. rewrite P, R. reflexivity.
Qed.

End Tick.

Section Dialog.

Variables sqrtf cosf sinf : Q -> Q.
Variable RIGHTY_SPEED : Q.

(** The court branch when the ball flies, the player is hit and the dialog
    is cancelled. *)
Lemma updateCourt_cancel (m : ScreenMode) (a : D2DApp) (dt : Q) (inp : Inputs)
    (b1 : TennisBall) :
  waitingToRelaunch a = false ->
  isActive (courtBall m a) && Qleb COURT_LENGTH (x (courtBall m a)) = false ->
  update sqrtf (courtBall m a) dt (rand inp 0) = Some b1 ->
  CheckRightyCollision a b1 = true ->
  dialog inp = None ->
  updateCourt sqrtf cosf sinf m a dt inp =
  Some (app_set_ballHitRighty
          (app_set_simulationPaused
             (set_courtBall m
                (app_set_ballHitRighty
                   (app_set_simulationPaused (set_courtBall m a b1) true) true)
                (set_x (set_vx b1 (- vx b1 * 0.5)) (rightyPosition a - 0.1)))
             false)
          false).
Proof.
  intros W E U C D.
  assert (A1 : isActive b1 = true).
  { unfold CheckRightyCollision in C. destruct (isActive b1); [reflexivity|].
    discriminate C. }
  unfold updateCourt. rewrite E, W, U. cbv zeta.
  rewrite courtBall_set.
  destruct (set_courtBall_frame m a b1) as [P [R _]].
  rewrite (CheckRightyCollision_reads a (set_courtBall m a b1) b1 P R), C, D.
  destruct m; app_fields; ball_fields; rewrite A1; reflexivity.
Qed.

End Dialog.

(** C7: when the player collision is detected and the dialog is cancelled,
    the tick ends with the pause flag cleared, the ball's horizontal velocity
    exactly -0.5 times what [update] left, its [x] exactly the player's
    position minus 0.1, and every other member of the ball ([vy], spin,
    bounce count, trajectory and bounce histories, height, time, activity)
    as [update] left it. *)
Theorem righty_cancel_bounces_back :
  forall (sqrtf cosf sinf : Q -> Q) (RIGHTY_SPEED : Q)
         (a : D2DApp) (inp : Inputs) (m : ScreenMode) (b1 : TennisBall),
  simulationStarted a = true ->
  simulationComplete a = false ->
  simulationPaused a = false ->
  currentScreen a = m ->
  m <> MODE_ALL ->
  waitingToRelaunch a = false ->
  isActive (courtBall m a) && Qleb COURT_LENGTH (x (courtBall m a)) = false ->
  update sqrtf (courtBall m a) (DT * visualPaceMultiplier a) (rand inp 0) = Some b1 ->
  CheckRightyCollision (moveRighty RIGHTY_SPEED a inp) b1 = true ->
  dialog inp = None ->
  exists a',
    Update sqrtf cosf sinf RIGHTY_SPEED a inp = Some a' /\
    simulationPaused a' = false /\
    ballHitRighty a' = false /\
    rightyPosition a' = rightyPosition (moveRighty RIGHTY_SPEED a inp) /\
    courtBall m a' = set_x (set_vx b1 (- vx b1 * 0.5)) (rightyPosition a' - 0.1) /\
    vx (courtBall m a') == -0.5 * vx b1 /\
    x (courtBall m a') = rightyPosition a' - 0.1 /\
    vy (courtBall m a') = vy b1 /\
    spinRPM (courtBall m a') = spinRPM b1 /\
    bounceCount (courtBall m a') = bounceCount b1 /\
    trajectory (courtBall m a') = trajectory b1 /\
    bounces (courtBall m a') = bounces b1 /\
    y (courtBall m a') = y b1 /\
    time (courtBall m a') = time b1 /\
    isActive (courtBall m a') = isActive b1.
Proof.
  intros sqrtf cosf sinf RIGHTY_SPEED a inp m b1 S C P M NA W E U K D.
  destruct (moveRighty_frame RIGHTY_SPEED a inp m) as [_ [B [W' _]]].
  rewrite (Update_single sqrtf cosf sinf RIGHTY_SPEED a inp m S C P M NA).
  rewrite (updateCourt_cancel sqrtf cosf sinf m _ _ inp b1);
    [| rewrite W'; exact W | rewrite B; exact E | rewrite B; exact U
     | exact K | exact D].
  eexists. split; [reflexivity|].
  destruct m; [contradiction| ..]; app_fields; ball_fields;
    repeat (split; [reflexivity|]);
    (split; [ring | repeat split]).
Qed.

(** [ballAtRighty] reaches the player at 10 m/s and the dialog is cancelled:
    it leaves at 5 m/s to the left, 10 cm before the player. *)
Lemma righty_cancel_bounces_back_witness :
  exists a',
    Update sqrt_micro cos_poly sin_poly 4 (sampleApp ballAtRighty false 0)
      (sampleInputs 0 0 0) = Some a' /\
    simulationPaused a' = false /\
    vx (clayBall a') == -5 /\
    x (clayBall a') == 22.67.
Proof.
  destruct (righty_cancel_bounces_back sqrt_micro cos_poly sin_poly 4
              (sampleApp ballAtRighty false 0) (sampleInputs 0 0 0) MODE_CLAY
              (match update sqrt_micro ballAtRighty tick 0 with
               | Some b => b
               | None => ballAtRighty
               end))
    as [a' [U [P [_ [R [_ [VX [X _]]]]]]]];
    [by_evaluation ..|].
  exists a'. split; [exact U|]. split; [exact P|].
  split.
  - rewrite VX. by_evaluation.
  - cbn [courtBall] in X. rewrite X, R. by_evaluation.
Defined.

(** ** The automatic relaunch *)

Section Relaunch.

Variables sqrtf cosf sinf : Q -> Q.

(** The court branch when the relaunch timer runs out in this tick. *)
Lemma updateCourt_relaunch (m : ScreenMode) (a : D2DApp) (dt : Q) (inp : Inputs) :
  let ball := courtBall m a in
  let ended := isActive ball && Qleb COURT_LENGTH (x ball) in
  waitingToRelaunch a = true \/ ended = true ->
  RELAUNCH_DELAY <= (if ended then 0.0 else relaunchTimer a) + dt ->
  exists a',
    updateCourt sqrtf cosf sinf m a dt inp = Some a' /\
    horizontalForce a' = 200.0 + inject_Z (Z.rem (rand inp 0) 201) /\
    launchAngle a' = 9.0 + inject_Z (Z.rem (rand inp 1) 31) /\
    ballSpin a' = 60.0 + inject_Z (Z.rem (rand inp 2) 541) /\
    courtBall m a' =
      resetForHorizontalShot cosf sinf
        (setAirResistance (if ended then set_isActive ball false else ball)
           (airCoefficient (airResistanceMode a)))
        (horizontalForce a') (launchAngle a') (ballSpin a') /\
    waitingToRelaunch a' = false /\
    relaunchTimer a' = 0.0.
Proof.
  cbv zeta. intros W T. unfold updateCourt.
  destruct (isActive (courtBall m a) && Qleb COURT_LENGTH (x (courtBall m a))).
  - cbv zeta. apply Qleb_le in T.
    destruct m; app_fields; rewrite T; eexists; repeat split.
  - destruct W as [W|W]; [|discriminate W]. rewrite W.
    cbv zeta. apply Qleb_le in T.
    destruct m; app_fields; rewrite T; eexists; repeat split.
Qed.

End Relaunch.

Lemma rem_range (r n k : Z) :
  (0 <= r)%Z -> (0 <= k)%Z -> n = (k + 1)%Z ->
  0 <= inject_Z (Z.rem r n) /\ inject_Z (Z.rem r n) <= inject_Z k.
Proof.
  intros R K ->. pose proof (Z.rem_bound_pos r (k + 1) R ltac:(lia)) as [L U].
  split.
  - rewrite <- (Zle_Qle 0). exact L.
  - rewrite <- Zle_Qle. lia.
Qed.

(** C2 (as the code has it): when the relaunch timer reaches the 2-second
    delay in a tick of a single-court screen, the tick draws the new shot
    with [rand() % 201], [rand() % 31] and [rand() % 541]: for all values
    [rand()] may return, the force is in the closed range [200, 400], the
    angle is a whole number of degrees in [9, 39], the spin is in [60, 600],
    and the ball is relaunched with these. *)
Theorem relaunch_draws_closed_ranges :
  forall (sqrtf cosf sinf : Q -> Q) (RIGHTY_SPEED : Q)
         (a : D2DApp) (inp : Inputs) (m : ScreenMode),
  simulationStarted a = true ->
  simulationComplete a = false ->
  simulationPaused a = false ->
  currentScreen a = m ->
  m <> MODE_ALL ->
  (forall k, (0 <= rand inp k)%Z) ->
  let ball := courtBall m a in
  let ended := isActive ball && Qleb COURT_LENGTH (x ball) in
  waitingToRelaunch a = true \/ ended = true ->
  RELAUNCH_DELAY
    <= (if ended then 0.0 else relaunchTimer a) + DT * visualPaceMultiplier a ->
  exists a',
    Update sqrtf cosf sinf RIGHTY_SPEED a inp = Some a' /\
    horizontalForce a' = 200.0 + inject_Z (Z.rem (rand inp 0) 201) /\
    200 <= horizontalForce a' <= 400 /\
    launchAngle a' == inject_Z (9 + Z.rem (rand inp 1) 31) /\
    9 <= launchAngle a' <= 39 /\
    ballSpin a' = 60.0 + inject_Z (Z.rem (rand inp 2) 541) /\
    60 <= ballSpin a' <= 600 /\
    courtBall m a' =
      resetForHorizontalShot cosf sinf
        (setAirResistance (if ended then set_isActive ball false else ball)
           (airCoefficient (airResistanceMode a)))
        (horizontalForce a') (launchAngle a') (ballSpin a') /\
    waitingToRelaunch a' = false.
Proof.
  intros sqrtf cosf sinf RIGHTY_SPEED a inp m S C P M NA R ball ended W T.
  subst ball ended.
  destruct (moveRighty_frame RIGHTY_SPEED a inp m) as [_ [B [W' [T' [_ Ai]]]]].
  rewrite (Update_single sqrtf cosf sinf RIGHTY_SPEED a inp m S C P M NA).
  destruct (updateCourt_relaunch sqrtf cosf sinf m
              (moveRighty RIGHTY_SPEED a inp) (DT * visualPaceMultiplier a) inp)
    as [a' [U [F [A [Sp [Bl [Wt _]]]]]]].
  { cbv zeta. rewrite B, W'. exact W. }
  { cbv zeta. rewrite B, T'. exact T. }
  rewrite B, Ai in Bl.
  exists a'. split; [exact U|].
  destruct (rem_range (rand inp 0) 201 200 (R 0%nat) ltac:(lia) eq_refl) as [F0 F1].
  destruct (rem_range (rand inp 1) 31 30 (R 1%nat) ltac:(lia) eq_refl) as [A0 A1].
  destruct (rem_range (rand inp 2) 541 540 (R 2%nat) ltac:(lia) eq_refl) as [S0 S1].
  change (inject_Z 200) with 200 in F1.
  change (inject_Z 30) with 30 in A1.
  change (inject_Z 540) with 540 in S1.
  rewrite F, A, Sp in *.
  split; [reflexivity|]. split; [split; lra|].
  split; [rewrite inject_Z_plus; change (inject_Z 9) with 9; lra|].
  split; [split; lra|].
  split; [reflexivity|]. split; [split; lra|].
  split; [exact Bl | exact Wt].
Qed.

(** The draws 7, 12 and 345 relaunch with 207 N, 21 degrees and 405 RPM. *)
Lemma relaunch_draws_closed_ranges_witness :
  exists a',
    Update sqrt_micro cos_poly sin_poly 4 appWaiting (sampleInputs 7 12 345)
      = Some a' /\
    horizontalForce a' == 207 /\ launchAngle a' == 21 /\ ballSpin a' == 405 /\
    isActive (clayBall a') = true.
Proof.
  destruct (relaunch_draws_closed_ranges sqrt_micro cos_poly sin_poly 4
              appWaiting (sampleInputs 7 12 345) MODE_CLAY)
    as [a' [U [F [_ [A [_ [S [_ [B _]]]]]]]]].
  1-5: by_evaluation.
  { intros [|[|k]]; by_evaluation. }
  { left. reflexivity. }
  { by_evaluation. }
  exists a'. split; [exact U|].
  split; [rewrite F; by_evaluation|].
  split; [rewrite A; by_evaluation|].
  split; [rewrite S; by_evaluation|].
  cbn [courtBall] in B. rewrite B. reflexivity.
Defined.

(** C2 (as the specification states it) fails: the ranges are closed.
    With the draws 200, 30 and 540 the relaunch of [appWaiting] has force
    400 N, angle 39 degrees and spin 600 RPM. *)
Lemma relaunch_reaches_upper_ends :
  exists a',
    simulationStarted appWaiting = true /\
    simulationPaused appWaiting = false /\
    currentScreen appWaiting = MODE_CLAY /\
    waitingToRelaunch appWaiting = true /\
    RELAUNCH_DELAY <= relaunchTimer appWaiting + DT * visualPaceMultiplier appWaiting /\
    Update sqrt_micro cos_poly sin_poly 4 appWaiting (sampleInputs 200 30 540)
      = Some a' /\
    horizontalForce a' == 400 /\ launchAngle a' == 39 /\ ballSpin a' == 600 /\
    ~ horizontalForce a' < 400 /\ ~ launchAngle a' < 39 /\ ~ ballSpin a' < 600.
Proof.
  eexists. repeat (split; [by_evaluation|]). by_evaluation.
Qed.

(** ** Free flight *)

Section Flight.

Variable sqrtf : Q -> Q.

(** Without spin the Magnus term vanishes, whatever the speed. *)
Lemma vyAfter_no_spin (b : TennisBall) (dt : Q) :
  spinRPM b == 0 -> vyAfter sqrtf b dt == vy b - GRAVITY * dt.
Proof.
  intro S. unfold vyAfter. cbv zeta. destruct (Qltb 0.1 _); [|reflexivity].
  rewrite S. unfold BALL_MASS, PI. field.
Qed.

(** Without air drag the horizontal velocity is kept. *)
Lemma vxAfter_no_drag (b : TennisBall) (dt : Q) :
  airResistanceCoeff b == 0 -> vxAfter b dt == vx b.
Proof.
  intro A. unfold vxAfter. rewrite A. unfold BALL_MASS. field.
Qed.

(** One tick of free flight is one semi-implicit Euler step. *)
Lemma freeTick_step (b : TennisBall) (dt : Q) (r : Z) :
  freeTick sqrtf b dt = true ->
  spinRPM b == 0 ->
  airResistanceCoeff b == 0 ->
  exists b',
    update sqrtf b dt r = Some b' /\
    vy b' == vy b - GRAVITY * dt /\
    y b' == y b + (vy b - GRAVITY * dt) * dt /\
    vx b' == vx b /\
    x b' == x b + vx b * dt /\
    time b' = time b + dt /\
    spinRPM b' = spinRPM b /\
    airResistanceCoeff b' = airResistanceCoeff b.
Proof.
  unfold freeTick. rewrite integrate_eq.
  rewrite !andb_true_iff, negb_true_iff, Qltb_lt. intros [A [H G]] S D.
  pose proof (vyAfter_no_spin b dt S) as V.
  pose proof (vxAfter_no_drag b dt D) as X.
  rewrite (update_active sqrtf b dt r _ _ A (integrate_eq sqrtf b dt)
             (netCollision_miss _ _ r _ H)).
  rewrite groundCollision_above by exact G.
  eexists. split; [reflexivity|].
  unfold outOfBounds. destruct (_ || _); ball_fields;
    (split; [exact V|]); (split; [rewrite V; reflexivity|]);
    (split; [exact X|]); (split; [rewrite X; reflexivity|]); repeat split.
Qed.

(** [n] ticks of free flight, in closed form. *)
Lemma freeFlight_closed_form (n : nat) (b : TennisBall) (dt : Q) (rnd : nat -> Z) :
  spinRPM b == 0 ->
  airResistanceCoeff b == 0 ->
  freeFlight sqrtf n b dt rnd = true ->
  exists bn,
    updates sqrtf n b dt rnd = Some bn /\
    spinRPM bn = spinRPM b /\
    airResistanceCoeff bn = airResistanceCoeff b /\
    time bn == time b + inject_Z (Z.of_nat n) * dt /\
    vx bn == vx b /\
    x bn == x b + vx b * (inject_Z (Z.of_nat n) * dt) /\
    vy bn == vy b - GRAVITY * (inject_Z (Z.of_nat n) * dt) /\
    y bn == y b + vy b * (inject_Z (Z.of_nat n) * dt)
            - 0.5 * GRAVITY * (inject_Z (Z.of_nat n) * dt) * (inject_Z (Z.of_nat n) * dt)
            - 0.5 * GRAVITY * dt * (inject_Z (Z.of_nat n) * dt).
Proof.
  intros S D. induction n as [|n IH]; intro F.
  - exists b. split; [reflexivity|]. split; [reflexivity|]. split; [reflexivity|].
    change (inject_Z (Z.of_nat 0)) with 0. repeat split; ring.
  - cbn [freeFlight] in F. apply andb_true_iff in F. destruct F as [F T].
    destruct (IH F) as [bn [U [Sn [Dn [Tn [VXn [Xn [Vn Yn]]]]]]]].
    cbn [updates]. rewrite U in *.
    assert (S' : spinRPM bn == 0) by (rewrite Sn; exact S).
    assert (D' : airResistanceCoeff bn == 0) by (rewrite Dn; exact D).
    destruct (freeTick_step bn dt (rnd n) T S' D')
      as [b' [U' [V' [Y' [VX' [X' [T' [Sp' Dr']]]]]]]].
    exists b'. split; [exact U'|]. split; [congruence|]. split; [congruence|].
    rewrite Nat2Z.inj_succ. unfold Z.succ. rewrite inject_Z_plus.
    change (inject_Z 1) with 1.
    rewrite T', V', Y', VX', X', Tn, Vn, Yn, VXn, Xn. repeat split; ring.
Qed.

End Flight.

(** C3 (as the code has it): for a ball without spin and without air drag,
    as long as every tick so far was free flight (the ball is active, the
    step neither hits the net nor reaches the ground), the state after [n]
    calls of [update dt] is, with [t = n * dt] the elapsed time: horizontal
    velocity unchanged, [x = x0 + vx0 * t], and height
    [y0 + vy0 * t - g * t * t / 2 - g * dt * t / 2], the parabola minus the
    lag of the semi-implicit Euler step, which grows with [dt] and [t]. *)
Theorem free_flight_is_euler :
  forall (sqrtf : Q -> Q) (b : TennisBall) (dt : Q) (rnd : nat -> Z) (n : nat),
  spinRPM b == 0 ->
  airResistanceCoeff b == 0 ->
  freeFlight sqrtf n b dt rnd = true ->
  exists bn,
    updates sqrtf n b dt rnd = Some bn /\
    let t := inject_Z (Z.of_nat n) * dt in
    time bn == time b + t /\
    vx bn == vx b /\
    x bn == x b + vx b * t /\
    y bn == y b + vy b * t - 0.5 * GRAVITY * t * t - 0.5 * GRAVITY * dt * t.
Proof.
  intros sqrtf b dt rnd n S D F.
  destruct (freeFlight_closed_form sqrtf n b dt rnd S D F)
    as [bn [U [_ [_ [T [VX [X [_ Y]]]]]]]].
  exists bn. split; [exact U|]. repeat split; assumption.
Qed.

(** Three ticks of a ball dropped from 2 m. *)
Lemma free_flight_is_euler_witness :
  exists bn,
    updates sqrt_micro 3 (newTennisBall (court 0)) tick (fun _ => 0%Z) = Some bn /\
    time bn == 0.0498 /\
    y bn == 2.0 - 0.5 * GRAVITY * 0.0498 * 0.0498 - 0.5 * GRAVITY * tick * 0.0498.
Proof.
  destruct (free_flight_is_euler sqrt_micro (newTennisBall (court 0)) tick
              (fun _ => 0%Z) 3)
    as [bn [U [T [_ [_ Y]]]]]; [by_evaluation ..|].
  exists bn. split; [exact U|].
  split; [rewrite T | rewrite Y]; by_evaluation.
Defined.

(** C3 (as the specification states it) fails: the trajectory is not the
    parabola up to rounding.  A ball dropped from 2 m without spin or drag is, after 4
    ticks of free flight at the largest pace (0.332 s), at 1.324 m, more than
    13 cm below [y0 + vy0 * t - g * t * t / 2 = 1.459]. *)
Lemma free_flight_below_parabola :
  exists bn,
    spinRPM (newTennisBall (court 0)) == 0 /\
    airResistanceCoeff (newTennisBall (court 0)) == 0 /\
    freeFlight sqrt_micro 4 (newTennisBall (court 0)) fastTick (fun _ => 0%Z) = true /\
    updates sqrt_micro 4 (newTennisBall (court 0)) fastTick (fun _ => 0%Z) = Some bn /\
    bounceCount bn = 0%Z /\
    time bn == 4 * fastTick /\
    y bn < 1.325 /\
    1.459 < y (newTennisBall (court 0))
            + vy (newTennisBall (court 0)) * (4 * fastTick)
            - 0.5 * GRAVITY * (4 * fastTick) * (4 * fastTick).
Proof.
  eexists. repeat (split; [by_evaluation|]). by_evaluation.
Qed.

(** ** Every tick keeps the balls in launched states *)

Section Launched.

Variables sqrtf cosf sinf : Q -> Q.
Variable RIGHTY_SPEED : Q.

Local Abbreviation L := (launched sqrtf cosf sinf).

Lemma updateBalls_launched (bs : list TennisBall) (dt : Q) (rnd : nat -> Z)
    (i : nat) (r : list TennisBall * bool) :
  updateBalls sqrtf bs dt rnd i = Some r ->
  Forall L bs -> Forall L (fst r).
Proof.
  revert i r. induction bs as [|b bs IH]; intros i r U F.
  - injection U as <-. constructor.
  - cbn [updateBalls] in U.
    destruct (update sqrtf b dt (rnd i)) as [b'|] eqn:Ub; [|discriminate U].
    destruct (updateBalls sqrtf bs dt rnd (S i)) as [r'|] eqn:Ur; [|discriminate U].
    injection U as <-. inversion F as [|? ? Lb Lbs]; subst.
    cbn [fst]. constructor.
    + apply (launched_step _ _ _ b b' Lb). apply (step_update _ _ _ _ _ Ub).
    + apply (IH _ _ Ur Lbs).
Qed.

Lemma updateCourt_launched (m0 : ScreenMode) (a a' : D2DApp) (dt : Q)
    (inp : Inputs) :
  updateCourt sqrtf cosf sinf m0 a dt inp = Some a' ->
  balls a' = balls a /\
  forall m, L (courtBall m a) -> L (courtBall m a').
Proof.
  intro U.
  destruct a as [bs st co scr cb gb hb lb hf la bsp vp am w rt rp bh sp f1 f2 f3].
  unfold updateCourt, ApplyRightyHit in U. cbv zeta in U.
  destruct m0; app_fields;
    repeat match type of U with
      | context [if ?c then _ else _] => destruct c eqn:?; app_fields
      | context [match ?c with Some _ => _ | None => _ end] =>
          destruct c eqn:?; app_fields
      end;
    try discriminate U; injection U as <-; (split; [reflexivity|]);
    intros m Hl; destruct m; app_fields;
    try assumption; try apply launched_shot;
    repeat match goal with
      | |- launched _ _ _ (set_isActive _ false) =>
          eapply launched_step; [|apply step_stop]
      | |- launched _ _ _ (set_x (set_spinRPM _ _) _) =>
          eapply launched_step; [|apply step_hit]
      | |- launched _ _ _ (set_x (set_vx _ _) _) =>
          eapply launched_step; [|apply step_cancel]
      | H : update _ ?b _ _ = Some ?t |- launched _ _ _ ?t =>
          eapply launched_step; [|apply (step_update _ _ _ _ _ H)]
      end;
    assumption.
Qed.

(** A tick of the application moves every ball along [ballStep]s or
    relaunches it. *)
Lemma Update_launched (a a' : D2DApp) (inp : Inputs) :
  Update sqrtf cosf sinf RIGHTY_SPEED a inp = Some a' ->
  (Forall L (balls a) -> Forall L (balls a')) /\
  (forall m, L (courtBall m a) -> L (courtBall m a')).
Proof.
  unfold Update.
  destruct (negb (simulationStarted a) || simulationComplete a || simulationPaused a).
  { intro U. injection U as <-. split; auto. }
  cbv zeta.
  assert (B : balls (moveRighty RIGHTY_SPEED a inp) = balls a).
  { unfold moveRighty.
    destruct (currentScreen a), (keyLeft inp), (keyRight inp); reflexivity. }
  destruct (currentScreen (moveRighty RIGHTY_SPEED a inp)) eqn:M.
  - rewrite B.
    destruct (updateBalls sqrtf (balls a) (DT * visualPaceMultiplier a) (rand inp) 0)
      as [r|] eqn:Ub; [|discriminate].
    intro U. split.
    + intro F. pose proof (updateBalls_launched _ _ _ _ _ Ub F) as F'.
      destruct (negb (snd r)); injection U as <-; exact F'.
    + intros m Hl.
      destruct (moveRighty_frame RIGHTY_SPEED a inp m) as [_ [C _]].
      destruct (negb (snd r)); injection U as <-;
        destruct m; app_fields; rewrite <- C in Hl; exact Hl.
  - intro U. destruct (updateCourt_launched _ _ _ _ _ U) as [Bs Ls].
    split; [rewrite Bs, B; auto|].
    intros m Hl. apply Ls.
    destruct (moveRighty_frame RIGHTY_SPEED a inp m) as [_ [C _]].
    rewrite C. exact Hl.
  - intro U. destruct (updateCourt_launched _ _ _ _ _ U) as [Bs Ls].
    split; [rewrite Bs, B; auto|].
    intros m Hl. apply Ls.
    destruct (moveRighty_frame RIGHTY_SPEED a inp m) as [_ [C _]].
    rewrite C. exact Hl.
  - intro U. destruct (updateCourt_launched _ _ _ _ _ U) as [Bs Ls].
    split; [rewrite Bs, B; auto|].
    intros m Hl. apply Ls.
    destruct (moveRighty_frame RIGHTY_SPEED a inp m) as [_ [C _]].
    rewrite C. exact Hl.
  - intro U. destruct (updateCourt_launched _ _ _ _ _ U) as [Bs Ls].
    split; [rewrite Bs, B; auto|].
    intros m Hl. apply Ls.
    destruct (moveRighty_frame RIGHTY_SPEED a inp m) as [_ [C _]].
    rewrite C. exact Hl.
Qed.

End Launched.

(** C5: after a ground bounce, when the velocity after restitution is below
    0.1 in absolute value or the new bounce count exceeds 10, the tick ends
    with the ball inactive (at rest) and both velocity components 0.
    Consequently, in every state a ball goes through after a launch the
    bounce counter is at most 11, and at most 10 while the ball is active;
    every tick of the application keeps its balls in such states. *)
Theorem rest_rule_bounds_bounces :
  (forall (sqrtf : Q -> Q) (b : TennisBall) (dt : Q) (r : Z) (b1 b2 : TennisBall),
     isActive b = true ->
     integrate sqrtf b dt = Some b1 ->
     netCollision (x b) (y b) r b1 = Some b2 ->
     y b2 <= 0.0 ->
     Qabs (- vy b2 * coefficientOfRestitution (surface b)) < 0.1
     \/ (10 < bounceCount b + 1)%Z ->
     exists b',
       update sqrtf b dt r = Some b' /\
       isActive b' = false /\ vx b' = 0.0 /\ vy b' = 0.0 /\
       bounceCount b' = (bounceCount b + 1)%Z) /\
  (forall (sqrtf cosf sinf : Q -> Q) (b : TennisBall),
     launched sqrtf cosf sinf b ->
     (0 <= bounceCount b <= 11)%Z /\
     (isActive b = true -> (bounceCount b <= 10)%Z)) /\
  (forall (sqrtf cosf sinf : Q -> Q) (RIGHTY_SPEED : Q) (a a' : D2DApp)
          (inp : Inputs),
     Update sqrtf cosf sinf RIGHTY_SPEED a inp = Some a' ->
     (Forall (launched sqrtf cosf sinf) (balls a) ->
      Forall (launched sqrtf cosf sinf) (balls a')) /\
     (forall m, launched sqrtf cosf sinf (courtBall m a) ->
                launched sqrtf cosf sinf (courtBall m a'))).
Proof.
  split; [|split].
  - intros sqrtf b dt r b1 b2 A I N G R.
    destruct (update_on_ground sqrtf b dt r b1 b2 A I N G)
      as [b' [U [_ [VY [VX [_ [BC AC]]]]]]].
    assert (St : Qltb (Qabs (- vy b2 * coefficientOfRestitution (surface b))) 0.1
                 || (10 <? bounceCount b + 1)%Z = true).
    { apply orb_true_iff. destruct R as [R|R].
      - left. apply Qltb_lt, R.
      - right. apply Z.ltb_lt, R. }
    rewrite St in VY, VX. exists b'. auto.
  - apply bounceCount_bounded.
  - apply Update_launched.
Qed.

(** [ballSettling] comes to rest at its first bounce; a ball that was just
    reset has not bounced. *)
Lemma rest_rule_bounds_bounces_witness :
  (exists b',
     update sqrt_micro ballSettling DT 0 = Some b' /\
     isActive b' = false /\ vx b' = 0.0 /\ vy b' = 0.0 /\ bounceCount b' = 1%Z) /\
  (0 <= bounceCount (reset ballBouncing) <= 11)%Z.
Proof.
  split.
  - apply (proj1 rest_rule_bounds_bounces sqrt_micro ballSettling DT 0%Z
             (afterIntegrate ballSettling DT) (afterNet ballSettling DT 0));
      try by_evaluation.
    left. by_evaluation.
  - apply (proj1 (proj2 rest_rule_bounds_bounces) sqrt_micro cos_poly sin_poly).
    apply launched_reset.
Defined.

(** * Further properties of the simulation *)

(** ** The ball stays on the court *)

Lemma outOfBounds_active (g : TennisBall) :
  isActive (outOfBounds g) = true -> 0 <= x g /\ x g <= COURT_LENGTH.
Proof.
  unfold outOfBounds.
  destruct (Qltb (x g) 0.0) eqn:A; [intro H; discriminate H|].
  destruct (Qltb COURT_LENGTH (x g)) eqn:B; [intro H; discriminate H|].
  intros _. apply Qltb_ge in A, B. split; [lra | exact B].
Qed.

(** A tick of an active ball ends with the bounds check, on a ball that is
    not below the ground. *)
Lemma update_ends_checked (sqrtf : Q -> Q) (b : TennisBall) (dt : Q) (r : Z) :
  isActive b = true ->
  exists g, update sqrtf b dt r = Some (outOfBounds g) /\ 0 <= y g.
Proof.
  intro A.
  destruct (integrate_total sqrtf b dt) as [b1 I].
  destruct (netCollision_total (x b) (y b) r b1) as [b2 N].
  rewrite (update_active sqrtf b dt r b1 b2 A I N).
  destruct (Qlt_le_dec 0.0 (y (recordTrajectory b2))) as [G|G].
  - rewrite groundCollision_above by exact G.
    eexists. split; [reflexivity | lra].
  - rewrite groundCollision_bounce by exact G. cbv zeta.
    eexists. split; [reflexivity|]. cbn [y]. lra.
Qed.

(** X1: a tick never leaves the ball below the ground, and a ball that is
    still active after its tick lies between the two ends of the court. *)
Theorem update_keeps_ball_on_court :
  forall (sqrtf : Q -> Q) (b : TennisBall) (dt : Q) (r : Z) (b' : TennisBall),
  isActive b = true ->
  update sqrtf b dt r = Some b' ->
  0 <= y b' /\
  (isActive b' = true -> 0 <= x b' /\ x b' <= COURT_LENGTH).
Proof.
  intros sqrtf b dt r b' A U.
  destruct (update_ends_checked sqrtf b dt r A) as [g [E Y]].
  rewrite E in U. injection U as <-.
  destruct (outOfBounds_frame g) as [Hy [_ [Hx _]]].
  rewrite Hy, Hx. split; [exact Y | apply outOfBounds_active].
Qed.

(** A ball that leaves the court through the far end is stopped, in the
    air. *)
Lemma update_keeps_ball_on_court_witness :
  exists b',
    update sqrt_micro (sampleBall 23.7 1 30 2 0) tick 0 = Some b' /\
    0 <= y b' /\ isActive b' = false /\ COURT_LENGTH < x b'.
Proof.
  destruct (update_total sqrt_micro (sampleBall 23.7 1 30 2 0) tick 0) as [b' U].
  exists b'. split; [exact U|].
  split.
  - apply (update_keeps_ball_on_court sqrt_micro (sampleBall 23.7 1 30 2 0)
             tick 0 b' eq_refl U).
  - vm_compute in U. injection U as <-. split; by_evaluation.
Defined.

(** ** The two histories *)

Lemma outOfBounds_histories (g : TennisBall) :
  trajectory (outOfBounds g) = trajectory g /\
  bounces (outOfBounds g) = bounces g /\
  time (outOfBounds g) = time g.
Proof. unfold outOfBounds. destruct (_ || _); repeat split. Qed.

(** What a tick of an active ball does to time, counter and histories. *)
Lemma update_histories (sqrtf : Q -> Q) (b b' : TennisBall) (dt : Q) (r : Z) :
  isActive b = true ->
  update sqrtf b dt r = Some b' ->
  time b' = time b + dt /\
  (exists h, trajectory b' =
             trajectory b ++ [ {| bd_time := time b'; bd_height := h |} ]) /\
  ((bounceCount b' = bounceCount b /\ bounces b' = bounces b)
   \/ (bounceCount b' = (bounceCount b + 1)%Z /\
       bounces b' =
         if (bounceCount b <? 3)%Z
         then bounces b ++ [ {| bd_time := time b'; bd_height := 0.0 |} ]
         else bounces b)).
Proof.
  intros A U.
  destruct (integrate_total sqrtf b dt) as [b1 I].
  destruct (netCollision_total (x b) (y b) r b1) as [b2 N].
  destruct (motion_frame sqrtf b b1 b2 dt r I N) as [_ [B [_ [Bs [Tr [Ti _]]]]]].
  rewrite (update_active sqrtf b dt r b1 b2 A I N) in U.
  destruct (Qlt_le_dec 0.0 (y (recordTrajectory b2))) as [G|G].
  - rewrite groundCollision_above in U by exact G. injection U as <-.
    destruct (outOfBounds_histories (recordTrajectory b2)) as [T1 [B1 T2]].
    destruct (outOfBounds_frame (recordTrajectory b2)) as [_ [_ [_ [_ [_ [C1 _]]]]]].
    rewrite T1, B1, T2, C1. ball_fields. rewrite Tr, Ti, Bs, B.
    split; [reflexivity|]. split; [eexists; reflexivity|].
    left. split; reflexivity.
  - rewrite groundCollision_bounce in U by exact G. cbv zeta in U.
    injection U as <-.
    match goal with
    | |- context [outOfBounds ?g] =>
        destruct (outOfBounds_histories g) as [T1 [B1 T2]];
        destruct (outOfBounds_frame g) as [_ [_ [_ [_ [_ [C1 _]]]]]];
        rewrite T1, B1, T2, C1
    end.
    ball_fields. rewrite Tr, Ti, Bs, B.
    split; [reflexivity|]. split; [eexists; reflexivity|].
    right. split; reflexivity.
Qed.

(** X2: both histories are append-only.  A call of [update] leaves them as
    they are or appends: to the trajectory exactly one sample, stamped with
    the ball's new time, when the ball was active; to the bounce history at
    most one event, at height 0 and with that time stamp. *)
Theorem update_appends_to_histories :
  forall (sqrtf : Q -> Q) (b : TennisBall) (dt : Q) (r : Z) (b' : TennisBall),
  update sqrtf b dt r = Some b' ->
  (if isActive b
   then exists h, trajectory b' =
                  trajectory b ++ [ {| bd_time := time b'; bd_height := h |} ]
   else trajectory b' = trajectory b) /\
  (bounces b' = bounces b \/
   bounces b' = bounces b ++ [ {| bd_time := time b'; bd_height := 0.0 |} ]).
Proof.
  intros sqrtf b dt r b' U. destruct (isActive b) eqn:A.
  - destruct (update_histories sqrtf b b' dt r A U) as [_ [T [[_ B]|[_ B]]]].
    + split; [exact T | left; exact B].
    + split; [exact T|]. destruct (bounceCount b <? 3)%Z; [right | left]; exact B.
  - unfold update in U. rewrite A in U. injection U as <-.
    split; [reflexivity | left; reflexivity].
Qed.

(** The first bounce of [ballBouncing] is recorded. *)
Lemma update_appends_to_histories_witness :
  exists b',
    update sqrt_micro ballBouncing tick 0 = Some b' /\
    length (trajectory b') = 1%nat /\ length (bounces b') = 1%nat.
Proof.
  destruct (update_total sqrt_micro ballBouncing tick 0) as [b' U].
  exists b'. split; [exact U|].
  destruct (update_appends_to_histories sqrt_micro ballBouncing tick 0 b' U)
    as [[h T] _].
  split; [rewrite T; reflexivity|].
  vm_compute in U. injection U as <-. reflexivity.
Defined.

(** X3: in every state a ball goes through after a launch, the bounce
    history holds exactly min(bounceCount, 3) events (only the first three
    bounces are kept), and the trajectory is not empty: its last sample
    carries the ball's current time. *)
Theorem launched_histories :
  forall (sqrtf cosf sinf : Q -> Q) (b : TennisBall),
  launched sqrtf cosf sinf b ->
  Z.of_nat (length (bounces b)) = Z.min (bounceCount b) 3 /\
  exists l s, trajectory b = l ++ [s] /\ bd_time s = time b.
Proof.
  intros sqrtf cosf sinf b L.
  induction L as [b | b f a s | b b' L [IH1 [l [s [IH2 IH3]]]] S].
  - split; [reflexivity|]. exists [], {| bd_time := 0.0; bd_height := INITIAL_HEIGHT |}.
    split; reflexivity.
  - split; [reflexivity|]. exists [], {| bd_time := 0.0; bd_height := 1.0 |}.
    split; reflexivity.
  - pose proof (bounceCount_bounded sqrtf cosf sinf b L) as [[C0 _] _].
    destruct S as [b dt r b' U | b c | b v1 v2 s1 x1 | b x1 | b]; ball_fields.
    + destruct (isActive b) eqn:A.
      * destruct (update_histories sqrtf b b' dt r A U) as [T [[h Tr] [[C B]|[C B]]]].
        -- rewrite C, B. split; [exact IH1|]. eexists _, _. split; [exact Tr | reflexivity].
        -- rewrite C, B. split.
           ++ destruct (bounceCount b <? 3)%Z eqn:E.
              ** apply Z.ltb_lt in E. rewrite length_app, Nat2Z.inj_add, IH1.
                 cbn [length]. lia.
              ** apply Z.ltb_ge in E. rewrite IH1. lia.
           ++ eexists _, _. split; [exact Tr | reflexivity].
      * unfold update in U. rewrite A in U. injection U as <-.
        split; [exact IH1|]. exists l, s. split; assumption.
    + split; [exact IH1|]. exists l, s. split; assumption.
    + split; [exact IH1|]. exists l, s. split; assumption.
    + split; [exact IH1|]. exists l, s. split; assumption.
    + split; [exact IH1|]. exists l, s. split; assumption.
Qed.

(** A ball launched by [reset], hit straight down and updated once has
    bounced once, and has that one bounce on record. *)
Lemma launched_histories_witness :
  exists b',
    update sqrt_micro
      (set_x (set_spinRPM (set_vy (set_vx (reset ballBouncing) 0) (-200)) 0) 5)
      tick 0 = Some b' /\
    bounceCount b' = 1%Z /\
    Z.of_nat (length (bounces b')) = Z.min (bounceCount b') 3.
Proof.
  destruct (update_total sqrt_micro
              (set_x (set_spinRPM (set_vy (set_vx (reset ballBouncing) 0) (-200)) 0) 5)
              tick 0) as [b' U].
  exists b'. split; [exact U|]. split.
  - vm_compute in U. injection U as <-. reflexivity.
  - apply (launched_histories sqrt_micro cos_poly sin_poly b').
    eapply launched_step; [|apply (step_update _ _ _ _ _ U)].
    eapply launched_step; [apply launched_reset | apply step_hit].
Defined.

(** ** The first listing: every drop ends *)

Lemma nat_archimedean (q c : Q) :
  0 < c -> exists n : nat, q <= inject_Z (Z.of_nat n) * c.
Proof.
  intros C. exists (Z.to_nat (Qceiling (q / c))).
  destruct (Z_le_gt_dec 0 (Qceiling (q / c))) as [H|H].
  - rewrite Z2Nat.id by exact H.
    pose proof (Qle_ceiling (q / c)) as L.
    assert (E : q == q / c * c) by (field; lra).
    rewrite E at 1. apply Qmult_le_compat_r; lra.
  - assert (Z.to_nat (Qceiling (q / c)) = 0%nat) as -> by lia.
    pose proof (Qle_ceiling (q / c)) as L.
    assert (N : inject_Z (Qceiling (q / c)) <= 0).
    { change 0 with (inject_Z 0). rewrite <- Zle_Qle. lia. }
    assert (E : q == q / c * c) by (field; lra).
    assert (M : q / c * c <= 0 * c) by (apply Qmult_le_compat_r; lra).
    cbn [Z.of_nat]. change (inject_Z 0) with 0. rewrite E. exact M.
Qed.

Lemma inject_nat_succ (n : nat) :
  inject_Z (Z.of_nat (S n)) == inject_Z (Z.of_nat n) + 1.
Proof. rewrite Nat2Z.inj_succ. unfold Z.succ. rewrite inject_Z_plus. reflexivity. Qed.

Lemma drop_update_inactive (b : DropSim.TennisBall) (dt : Q) :
  DropSim.isActive b = false -> DropSim.update b dt = b.
Proof. intros A. unfold DropSim.update. rewrite A. reflexivity. Qed.

Lemma drop_updates_inactive (n : nat) (b : DropSim.TennisBall) (dt : Q) :
  DropSim.isActive b = false -> DropSim.updates n b dt = b.
Proof.
  intros A. induction n as [|n IH]; [reflexivity|].
  cbn [DropSim.updates]. rewrite IH. apply drop_update_inactive, A.
Qed.

Lemma drop_updates_shift (n : nat) (b : DropSim.TennisBall) (dt : Q) :
  DropSim.updates (S n) b dt = DropSim.updates n (DropSim.update b dt) dt.
Proof.
  induction n as [|n IH]; [reflexivity|].
  cbn [DropSim.updates] in *. rewrite IH. reflexivity.
Qed.

Lemma drop_updates_add (n m : nat) (b : DropSim.TennisBall) (dt : Q) :
  DropSim.updates (n + m) b dt = DropSim.updates m (DropSim.updates n b dt) dt.
Proof.
  revert b. induction n as [|n IH]; intros b; [reflexivity|].
  change (S n + m)%nat with (S (n + m)).
  rewrite !drop_updates_shift. apply IH.
Qed.

(** One call of [update] on an active ball: a step of free fall, or a
    bounce. *)
Lemma drop_update_step (b : DropSim.TennisBall) (dt : Q) :
  DropSim.isActive b = true ->
  let vy1 := DropSim.vy b - GRAVITY * dt in
  let y1 := DropSim.y b + vy1 * dt in
  let b' := DropSim.update b dt in
  (0 < y1 /\ DropSim.isActive b' = true /\ DropSim.y b' = y1 /\
   DropSim.vy b' = vy1 /\ DropSim.bounceCount b' = DropSim.bounceCount b)
  \/
  (y1 <= 0 /\ DropSim.y b' = 0.0 /\
   DropSim.bounceCount b' = (DropSim.bounceCount b + 1)%Z /\
   (DropSim.isActive b' = true -> (DropSim.bounceCount b + 1 <= 10)%Z) /\
   (DropSim.isActive b' = false -> DropSim.vy b' = 0.0)).
Proof.
  intros A. cbv zeta. unfold DropSim.update. rewrite A. cbn [negb]. cbv zeta.
  destruct (Qleb _ 0.0) eqn:G.
  - right. apply Qleb_le in G.
    destruct (Qltb _ 0.1) eqn:R; cbn [orb].
    + cbn. repeat split; try assumption; try reflexivity; try discriminate.
      lra.
    + destruct (10 <? _)%Z eqn:C; cbn.
      * repeat split; try reflexivity; try discriminate.
        lra.
      * apply Z.ltb_ge in C.
        repeat split; try reflexivity; try (rewrite A; discriminate);
          try (intros _; exact C); lra.
  - left. apply Qleb_gt in G. cbn.
    repeat split; try reflexivity; try exact A.
    lra.
Qed.

(** A ball that moves down reaches the ground: each call lowers it by at
    least [GRAVITY * dt * dt]. *)
Lemma drop_reaches_ground (dt : Q) :
  0 < dt ->
  forall (n : nat) (b : DropSim.TennisBall),
  DropSim.isActive b = true ->
  DropSim.vy b <= 0 ->
  DropSim.y b <= inject_Z (Z.of_nat n) * (GRAVITY * dt * dt) ->
  exists k,
    DropSim.isActive (DropSim.updates k b dt) = false \/
    (DropSim.bounceCount (DropSim.updates k b dt) = (DropSim.bounceCount b + 1)%Z /\
     (DropSim.bounceCount b + 1 <= 10)%Z).
Proof.
  intros D. assert (DD : 0 < dt * dt) by nra.
  induction n as [|n IH]; intros b A V Y;
    assert (VD : DropSim.vy b * dt <= 0) by nra;
    destruct (drop_update_step b dt A) as [[P [A1 [Y1 [V1 C1]]]] | [P [Y1 [C1 [A1 R1]]]]].
  - exfalso. cbn [Z.of_nat] in Y. change (inject_Z 0) with 0 in Y.
    unfold GRAVITY in *. lra.
  - exists 1%nat. cbn [DropSim.updates].
    destruct (DropSim.isActive (DropSim.update b dt)); [right | left; reflexivity].
    split; [exact C1 | apply A1; reflexivity].
  - destruct (IH (DropSim.update b dt) A1) as [k K].
    + rewrite V1. unfold GRAVITY. lra.
    + rewrite Y1. rewrite inject_nat_succ in Y. unfold GRAVITY in *. lra.
    + exists (S k). rewrite drop_updates_shift. rewrite C1 in K. exact K.
  - exists 1%nat. cbn [DropSim.updates].
    destruct (DropSim.isActive (DropSim.update b dt)); [right | left; reflexivity].
    split; [exact C1 | apply A1; reflexivity].
Qed.

(** Whatever its velocity, an active ball bounces or stops: gravity turns
    the velocity downwards. *)
Lemma drop_bounces (dt : Q) :
  0 < dt ->
  forall (n : nat) (b : DropSim.TennisBall),
  DropSim.isActive b = true ->
  DropSim.vy b <= inject_Z (Z.of_nat n) * (GRAVITY * dt) ->
  exists k,
    DropSim.isActive (DropSim.updates k b dt) = false \/
    (DropSim.bounceCount (DropSim.updates k b dt) = (DropSim.bounceCount b + 1)%Z /\
     (DropSim.bounceCount b + 1 <= 10)%Z).
Proof.
  intros D. induction n as [|n IH]; intros b A V.
  - assert (DD : 0 < GRAVITY * dt * dt) by (unfold GRAVITY; nra).
    destruct (nat_archimedean (DropSim.y b) _ DD) as [n Y].
    apply (drop_reaches_ground dt D n b A); [|exact Y].
    cbn [Z.of_nat] in V. change (inject_Z 0) with 0 in V. lra.
  - destruct (drop_update_step b dt A) as [[P [A1 [Y1 [V1 C1]]]] | [P [Y1 [C1 [A1 R1]]]]].
    + destruct (IH (DropSim.update b dt) A1) as [k K].
      * rewrite V1. rewrite inject_nat_succ in V. lra.
      * exists (S k). rewrite drop_updates_shift. rewrite C1 in K. exact K.
    + exists 1%nat. cbn [DropSim.updates].
      destruct (DropSim.isActive (DropSim.update b dt)); [right | left; reflexivity].
      split; [exact C1 | apply A1; reflexivity].
Qed.

Lemma drop_stops (dt : Q) :
  0 < dt ->
  forall (m : nat) (b : DropSim.TennisBall),
  DropSim.isActive b = true ->
  (11 - DropSim.bounceCount b <= Z.of_nat m)%Z ->
  exists n, DropSim.isActive (DropSim.updates n b dt) = false.
Proof.
  intros D. assert (GD : 0 < GRAVITY * dt) by (unfold GRAVITY; lra).
  induction m as [|m IH]; intros b A C;
    destruct (nat_archimedean (DropSim.vy b) _ GD) as [n V];
    destruct (drop_bounces dt D n b A V) as [k [K | [K1 K2]]];
    try (exists k; exact K); try lia.
  destruct (DropSim.isActive (DropSim.updates k b dt)) eqn:Ak;
    [|exists k; exact Ak].
  destruct (IH (DropSim.updates k b dt) Ak) as [n' N]; [lia|].
  exists (k + n')%nat. rewrite drop_updates_add. exact N.
Qed.

(** A ball that an update stopped lies on the ground without velocity. *)
Lemma drop_rest_on_ground (b : DropSim.TennisBall) (dt : Q) (n : nat) :
  DropSim.isActive b = true ->
  DropSim.isActive (DropSim.updates n b dt) = false ->
  DropSim.y (DropSim.updates n b dt) = 0.0 /\
  DropSim.vy (DropSim.updates n b dt) = 0.0.
Proof.
  intros A. induction n as [|n IH]; cbn [DropSim.updates]; intros I.
  - congruence.
  - destruct (DropSim.isActive (DropSim.updates n b dt)) eqn:An.
    + destruct (drop_update_step _ dt An)
        as [[P [A1 [Y1 [V1 C1]]]] | [P [Y1 [C1 [A1 R1]]]]]; [congruence|].
      split; [exact Y1 | apply R1, I].
    + rewrite drop_update_inactive by exact An. apply IH. reflexivity.
Qed.

Lemma drop_ball_comes_to_rest_aux (b : DropSim.TennisBall) (dt : Q) :
  0 < dt ->
  DropSim.isActive b = true ->
  exists n, forall m, (n <= m)%nat ->
    DropSim.isActive (DropSim.updates m b dt) = false.
Proof.
  intros D A.
  destruct (drop_stops dt D (Z.to_nat (11 - DropSim.bounceCount b)) b A) as [n N];
    [lia|].
  exists n. intros m M.
  replace m with (n + (m - n))%nat by lia.
  rewrite drop_updates_add, drop_updates_inactive by exact N. exact N.
Qed.

(** X4: in the first listing every drop ends.  For every ball, surface and
    positive time step there is a number of updates after which the ball is
    inactive, lies on the ground with velocity 0, and is no longer changed
    by further updates. *)
Theorem drop_ball_comes_to_rest :
  forall (b : DropSim.TennisBall) (dt : Q),
  0 < dt ->
  DropSim.isActive b = true ->
  exists n, forall m, (n <= m)%nat ->
    DropSim.updates m b dt = DropSim.updates n b dt /\
    DropSim.isActive (DropSim.updates m b dt) = false /\
    DropSim.y (DropSim.updates m b dt) = 0.0 /\
    DropSim.vy (DropSim.updates m b dt) = 0.0.
Proof.
  intros b dt D A.
  destruct (drop_stops dt D (Z.to_nat (11 - DropSim.bounceCount b)) b A) as [n N];
    [lia|].
  exists n. intros m M.
  replace m with (n + (m - n))%nat by lia.
  rewrite drop_updates_add, drop_updates_inactive by exact N.
  split; [reflexivity|]. split; [exact N|].
  apply drop_rest_on_ground; assumption.
Qed.

(** A ball dropped from the initial height at the step of the timer. *)
Lemma drop_ball_comes_to_rest_witness :
  0 < DropSim.DT /\
  exists n, forall m, (n <= m)%nat ->
    DropSim.updates m (DropSim.reset dropBallAtRest) DropSim.DT
    = DropSim.updates n (DropSim.reset dropBallAtRest) DropSim.DT /\
    DropSim.isActive (DropSim.updates m (DropSim.reset dropBallAtRest) DropSim.DT)
    = false /\
    DropSim.y (DropSim.updates m (DropSim.reset dropBallAtRest) DropSim.DT) = 0.0 /\
    DropSim.vy (DropSim.updates m (DropSim.reset dropBallAtRest) DropSim.DT) = 0.0.
Proof.
  split; [reflexivity|].
  apply (drop_ball_comes_to_rest (DropSim.reset dropBallAtRest) DropSim.DT);
    reflexivity.
Defined.

(** *** The application of the first listing *)

Lemma drop_updateBalls (bs : list DropSim.TennisBall) :
  DropSim.updateBalls bs =
  (map (fun b => DropSim.update b DropSim.DT) bs,
   existsb DropSim.isActive (map (fun b => DropSim.update b DropSim.DT) bs)).
Proof.
  induction bs as [|b bs IH]; [reflexivity|].
  cbn [DropSim.updateBalls map existsb]. rewrite IH. reflexivity.
Qed.

Lemma drop_Update_complete (a : DropSim.D2DApp) :
  DropSim.simulationComplete a = true -> DropSim.Update a = a.
Proof.
  intros C. unfold DropSim.Update. rewrite C, orb_true_r. reflexivity.
Qed.

Lemma drop_ticks_complete (n : nat) (a : DropSim.D2DApp) :
  DropSim.simulationComplete a = true -> DropSim.ticks n a = a.
Proof.
  intros C. induction n as [|n IH]; [reflexivity|].
  cbn [DropSim.ticks]. rewrite IH. apply drop_Update_complete, C.
Qed.

Lemma drop_ticks_add (n m : nat) (a : DropSim.D2DApp) :
  DropSim.ticks (m + n) a = DropSim.ticks m (DropSim.ticks n a).
Proof.
  induction m as [|m IH]; [reflexivity|].
  cbn [DropSim.ticks Nat.add]. rewrite IH. reflexivity.
Qed.

(** While the run is not complete, the balls of the application are the
    balls it started with, each updated once per tick; when it is complete,
    all of them are inactive. *)
Lemma drop_ticks_balls (a : DropSim.D2DApp) (k : nat) :
  DropSim.simulationStarted a = true ->
  DropSim.simulationComplete a = false ->
  DropSim.simulationStarted (DropSim.ticks k a) = true /\
  (exists j, (j <= k)%nat /\
     DropSim.balls (DropSim.ticks k a)
     = map (fun b => DropSim.updates j b DropSim.DT) (DropSim.balls a)) /\
  (if DropSim.simulationComplete (DropSim.ticks k a)
   then forallb (fun b => negb (DropSim.isActive b)) (DropSim.balls (DropSim.ticks k a))
        = true
   else DropSim.balls (DropSim.ticks k a)
        = map (fun b => DropSim.updates k b DropSim.DT) (DropSim.balls a)).
Proof.
  intros St C. induction k as [|k [IS [[j [J IJ]] IH]]].
  - cbn [DropSim.ticks]. rewrite C. split; [exact St|]. split.
    + exists 0%nat. split; [lia|]. cbn [DropSim.updates]. rewrite map_id. reflexivity.
    + cbn [DropSim.updates]. rewrite map_id. reflexivity.
  - cbn [DropSim.ticks].
    destruct (DropSim.simulationComplete (DropSim.ticks k a)) eqn:Ck.
    + rewrite drop_Update_complete by exact Ck. rewrite Ck.
      split; [exact IS|]. split; [|exact IH].
      exists j. split; [lia | exact IJ].
    + unfold DropSim.Update. rewrite IS, Ck. cbn [negb orb].
      rewrite drop_updateBalls. cbn [fst snd DropSim.simulationStarted
        DropSim.simulationComplete DropSim.balls].
      split; [reflexivity|].
      assert (E : map (fun b => DropSim.update b DropSim.DT)
                    (DropSim.balls (DropSim.ticks k a))
                  = map (fun b => DropSim.updates (S k) b DropSim.DT)
                      (DropSim.balls a)).
      { rewrite IH, map_map. reflexivity. }
      split; [exists (S k); split; [lia | exact E]|].
      destruct (existsb _ _) eqn:X; cbn [negb].
      * exact E.
      * clear - X. induction (map _ _) as [|b bs IHb]; [reflexivity|].
        cbn [existsb forallb] in *. apply orb_false_iff in X as [X1 X2].
        rewrite X1, (IHb X2). reflexivity.
Qed.

(** All balls of a list are at rest after a common number of updates. *)
Lemma drop_balls_come_to_rest (dt : Q) (bs : list DropSim.TennisBall) :
  0 < dt ->
  exists n, forall m b, (n <= m)%nat -> In b bs ->
    DropSim.isActive (DropSim.updates m b dt) = false.
Proof.
  intros D. induction bs as [|b bs [n IH]].
  - exists 0%nat. intros m b _ [].
  - destruct (DropSim.isActive b) eqn:A.
    + destruct (drop_ball_comes_to_rest_aux b dt D A) as [n0 N0].
      exists (Nat.max n0 n). intros m b' M [<-|I].
      * apply N0. lia.
      * apply IH; [lia | exact I].
    + exists n. intros m b' M [<-|I].
      * rewrite drop_updates_inactive; exact A.
      * apply IH; assumption.
Qed.

Lemma drop_run_completes_from (a : DropSim.D2DApp) :
  DropSim.simulationStarted a = true ->
  DropSim.simulationComplete a = false ->
  exists n, DropSim.simulationComplete (DropSim.ticks n a) = true.
Proof.
  intros St C.
  destruct (drop_balls_come_to_rest DropSim.DT (DropSim.balls a)) as [N R];
    [reflexivity|].
  exists (S N). cbn [DropSim.ticks].
  destruct (drop_ticks_balls a N St C) as [IS [_ IH]].
  destruct (DropSim.simulationComplete (DropSim.ticks N a)) eqn:Ck.
  - rewrite drop_Update_complete; exact Ck.
  - unfold DropSim.Update. rewrite IS, Ck. cbn [negb orb].
    rewrite drop_updateBalls. cbn [snd DropSim.simulationComplete].
    rewrite IH, map_map.
    assert (X : existsb DropSim.isActive
                  (map (fun b => DropSim.update (DropSim.updates N b DropSim.DT)
                                   DropSim.DT) (DropSim.balls a)) = false).
    { clear - R. induction (DropSim.balls a) as [|b bs IHb]; [reflexivity|].
      cbn [map existsb].
      change (DropSim.update (DropSim.updates N b DropSim.DT) DropSim.DT)
        with (DropSim.updates (S N) b DropSim.DT).
      rewrite (R (S N) b) by (try lia; left; reflexivity).
      apply IHb. intros m b' M I. apply R; [exact M | right; exact I]. }
    rewrite X. reflexivity.
Qed.

(** X5: a run of the first listing ends.  After SPACE, a finite number of
    timer ticks sets [simulationComplete]; from then on the ticks change
    nothing, and every ball lies inactive on the ground with velocity 0. *)
Theorem drop_run_completes :
  forall (a : DropSim.D2DApp),
  exists n, forall m, (n <= m)%nat ->
    DropSim.ticks m (DropSim.OnKeyPress a 32)
    = DropSim.ticks n (DropSim.OnKeyPress a 32) /\
    DropSim.simulationComplete (DropSim.ticks m (DropSim.OnKeyPress a 32)) = true /\
    forall b, In b (DropSim.balls (DropSim.ticks m (DropSim.OnKeyPress a 32))) ->
      DropSim.isActive b = false /\ DropSim.y b = 0.0 /\ DropSim.vy b = 0.0.
Proof.
  intros a. change (DropSim.OnKeyPress a 32) with (DropSim.StartSimulation a).
  set (a0 := DropSim.StartSimulation a).
  destruct (drop_run_completes_from a0) as [n N]; [reflexivity | reflexivity |].
  exists n. intros m M.
  assert (E : DropSim.ticks m a0 = DropSim.ticks n a0).
  { replace m with ((m - n) + n)%nat by lia.
    rewrite drop_ticks_add. apply drop_ticks_complete, N. }
  rewrite E. split; [reflexivity|]. split; [exact N|].
  destruct (drop_ticks_balls a0 n) as [_ [[j [_ B]] F]];
    [reflexivity | reflexivity |].
  rewrite N in F. rewrite B in *.
  intros b I. apply in_map_iff in I as [b0 [<- I0]].
  rewrite forallb_forall in F.
  assert (A : DropSim.isActive (DropSim.updates j b0 DropSim.DT) = false).
  { apply negb_true_iff. apply (F (DropSim.updates j b0 DropSim.DT)).
    apply in_map_iff. exists b0. split; [reflexivity | exact I0]. }
  split; [exact A|].
  apply drop_rest_on_ground; [|exact A].
  unfold a0 in I0. cbn [DropSim.StartSimulation DropSim.balls] in I0.
  apply in_map_iff in I0 as [b1 [<- _]]. reflexivity.
Qed.

(** ** Keyboard, mouse and timer: what the handlers leave of the controls *)

Ltac event_fields :=
  cbn [app_set_balls app_set_simulationComplete app_set_clayBall
       app_set_grassBall app_set_hardBall app_set_laverBall
       app_set_horizontalForce app_set_launchAngle app_set_ballSpin
       app_set_waitingToRelaunch app_set_relaunchTimer app_set_rightyPosition
       app_set_ballHitRighty app_set_simulationPaused app_set_rightyHitForce
       app_set_rightyHitAngle app_set_rightyHitSpin
       app_set_simulationStarted app_set_currentScreen
       app_set_visualPaceMultiplier app_set_airResistanceMode
       courtBall set_courtBall isCourt negb
       balls simulationStarted simulationComplete currentScreen clayBall
       grassBall hardBall laverBall horizontalForce launchAngle ballSpin
       visualPaceMultiplier airResistanceMode waitingToRelaunch relaunchTimer
       rightyPosition ballHitRighty simulationPaused rightyHitForce
       rightyHitAngle rightyHitSpin] in *.

Ltac split_tests :=
  repeat match goal with
         | |- context [if ?c then _ else _] => destruct c eqn:?
         end.

Section EventFrames.

Variables cosf sinf : Q -> Q.
Variables ANGLE_STEP SPIN_STEP MAX_SPIN MIN_SPIN : Q.

Local Abbreviation key := (OnKeyPress cosf sinf ANGLE_STEP SPIN_STEP MAX_SPIN MIN_SPIN).

Lemma OnKeyPress_controls (a : D2DApp) (wParam : Z) (ctrl shift : bool) :
  let a' := key a wParam ctrl shift in
  (horizontalForce a' = horizontalForce a \/
   horizontalForce a' = fmax MIN_HORIZONTAL_FORCE (horizontalForce a - 10.0) \/
   horizontalForce a' = fmin MAX_HORIZONTAL_FORCE (horizontalForce a + 10.0)) /\
  (launchAngle a' = launchAngle a \/
   launchAngle a' = fmax MIN_ANGLE (launchAngle a - ANGLE_STEP) \/
   launchAngle a' = fmin MAX_ANGLE (launchAngle a + ANGLE_STEP)) /\
  (ballSpin a' = ballSpin a \/
   ballSpin a' = fmax MIN_SPIN (ballSpin a - SPIN_STEP) \/
   ballSpin a' = fmin MAX_SPIN (ballSpin a + SPIN_STEP)) /\
  (visualPaceMultiplier a' = visualPaceMultiplier a \/
   visualPaceMultiplier a' = fmax 0.1 (visualPaceMultiplier a / 1.1) \/
   visualPaceMultiplier a' = fmin 10.0 (visualPaceMultiplier a * 1.1)) /\
  rightyPosition a' = rightyPosition a /\
  airResistanceMode a' = airResistanceMode a /\
  simulationPaused a' = simulationPaused a /\
  ballHitRighty a' = ballHitRighty a /\
  (simulationStarted a' = true ->
   simulationStarted a = true \/ wParam = VK_SPACE) /\
  (wParam = VK_SPACE ->
   simulationStarted a' = true /\ simulationComplete a' = false /\
   waitingToRelaunch a' = false /\ relaunchTimer a' = 0.0 /\
   currentScreen a' = currentScreen a).
Proof.
  cbv zeta.
  match goal with
  | |- ?G =>
      match eval pattern (key a wParam ctrl shift) in G with
      | ?F _ => set (P := F); change (P (key a wParam ctrl shift))
      end
  end.
  unfold OnKeyPress.
  destruct (wParam =? VK_SPACE)%Z eqn:SP;
    [apply Z.eqb_eq in SP | apply Z.eqb_neq in SP];
    repeat match goal with
           | |- P (if ?c then _ else _) => destruct c
           end;
    unfold StartSimulation, switchTo, shootIfIdle, airAndShootCurrent,
      shootCurrent, resetBalls;
    destruct a as [? st ? scr ? ? ? ? ? ? ? ? ? ? ? ? ? ? ? ? ?];
    subst P; cbv beta; event_fields; destruct scr, st; event_fields;
    repeat split; auto; try (intros; congruence); try (intros; contradiction).
Qed.


Lemma OnMouseClick_controls (a : D2DApp) (xPos yPos : Z) :
  let a' := OnMouseClick cosf sinf a xPos yPos in
  horizontalForce a' = horizontalForce a /\
  launchAngle a' = launchAngle a /\
  ballSpin a' = ballSpin a /\
  visualPaceMultiplier a' = visualPaceMultiplier a /\
  rightyPosition a' = rightyPosition a /\
  simulationStarted a' = simulationStarted a /\
  simulationPaused a' = simulationPaused a /\
  ballHitRighty a' = ballHitRighty a.
Proof.
  cbv zeta. unfold OnMouseClick, airAndShootCurrent.
  destruct a as [? st ? scr ? ? ? ? ? ? ? ? ? ? ? ? ? ? ? ? ?].
  event_fields. destruct scr; event_fields; [repeat split|..];
    (destruct (_ && _); event_fields; [|repeat split]);
    destruct st; event_fields; repeat split.
Qed.

Lemma OnMouseWheel_controls (a : D2DApp) (delta : Z) :
  let a' := OnMouseWheel cosf sinf ANGLE_STEP a delta in
  horizontalForce a' = horizontalForce a /\
  (launchAngle a' = launchAngle a \/
   launchAngle a' = fmax MIN_ANGLE (launchAngle a - ANGLE_STEP) \/
   launchAngle a' = fmin MAX_ANGLE (launchAngle a + ANGLE_STEP)) /\
  ballSpin a' = ballSpin a /\
  visualPaceMultiplier a' = visualPaceMultiplier a /\
  rightyPosition a' = rightyPosition a /\
  simulationStarted a' = simulationStarted a /\
  simulationPaused a' = simulationPaused a /\
  ballHitRighty a' = ballHitRighty a.
Proof.
  cbv zeta. unfold OnMouseWheel, shootIfIdle, shootCurrent.
  destruct a as [? st ? scr ? ? ? ? ? ? ? ? ? ? ? ? ? ? ? ? ?].
  event_fields. destruct scr; event_fields; [repeat split; auto|..];
    destruct (0 <? delta)%Z, st; event_fields; repeat split; auto.
Qed.

End EventFrames.

Section TickFrames.

Variables sqrtf cosf sinf : Q -> Q.
Variable RIGHTY_SPEED : Q.

Lemma updateBalls_total (bs : list TennisBall) (dt : Q) (rnd : nat -> Z) (i : nat) :
  exists r, updateBalls sqrtf bs dt rnd i = Some r.
Proof.
  revert i. induction bs as [|b bs IH]; intros i; cbn [updateBalls].
  - eexists; reflexivity.
  - destruct (update_total sqrtf b dt (rnd i)) as [b' ->].
    destruct (IH (S i)) as [r ->]. eexists; reflexivity.
Qed.

(** What the branch of a court leaves of the controls. *)
Lemma updateCourt_controls (m : ScreenMode) (a : D2DApp) (dt : Q) (inp : Inputs) :
  exists a',
    updateCourt sqrtf cosf sinf m a dt inp = Some a' /\
    visualPaceMultiplier a' = visualPaceMultiplier a /\
    rightyPosition a' = rightyPosition a /\
    simulationStarted a' = simulationStarted a /\
    simulationComplete a' = simulationComplete a /\
    currentScreen a' = currentScreen a /\
    airResistanceMode a' = airResistanceMode a /\
    (simulationPaused a = false -> simulationPaused a' = false) /\
    (ballHitRighty a = false -> ballHitRighty a' = false) /\
    ((horizontalForce a' = horizontalForce a /\
      launchAngle a' = launchAngle a /\
      ballSpin a' = ballSpin a)
     \/
     (horizontalForce a' = 200.0 + inject_Z (Z.rem (rand inp 0) 201) /\
      launchAngle a' = 9.0 + inject_Z (Z.rem (rand inp 1) 31) /\
      ballSpin a' = 60.0 + inject_Z (Z.rem (rand inp 2) 541))).
Proof.
  destruct a as [? st ? scr ? ? ? ? ? ? ? ? ? ? ? ? ? ? ? ? ?].
  match goal with
  | |- exists a', ?u = Some a' /\ @?F a' =>
      set (P := fun r => exists a', r = Some a' /\ F a'); change (P u)
  end.
  unfold updateCourt.
  match goal with
  | |- context [if ?c then app_set_relaunchTimer _ _ else _] => destruct c
  end;
  destruct m; cbn [courtBall set_courtBall clayBall grassBall hardBall laverBall balls];
  repeat match goal with
         | |- P (match update ?s ?b ?d ?r with _ => _ end) =>
             let b' := fresh "b" in
             destruct (update_total s b d r) as [b' ->]
         | |- context [if CheckRightyCollision ?a ?b then _ else _] =>
             destruct (CheckRightyCollision a b)
         | |- context [dialog inp] => destruct (dialog inp)
         | |- P (if ?c then _ else _) => destruct c
         end;
  subst P; cbv beta; eexists; (split; [reflexivity|]);
       unfold ApplyRightyHit; event_fields; repeat split; auto.
Qed.

Lemma moveRighty_controls (a : D2DApp) (inp : Inputs) :
  let a' := moveRighty RIGHTY_SPEED a inp in
  visualPaceMultiplier a' = visualPaceMultiplier a /\
  simulationStarted a' = simulationStarted a /\
  simulationComplete a' = simulationComplete a /\
  currentScreen a' = currentScreen a /\
  airResistanceMode a' = airResistanceMode a /\
  simulationPaused a' = simulationPaused a /\
  ballHitRighty a' = ballHitRighty a /\
  horizontalForce a' = horizontalForce a /\
  launchAngle a' = launchAngle a /\
  ballSpin a' = ballSpin a /\
  balls a' = balls a.
Proof.
  cbv zeta. unfold moveRighty.
  destruct a as [? st ? scr ? ? ? ? ? ? ? ? ? ? ? ? ? ? ? ? ?].
  cbn [currentScreen].
  destruct scr, (keyLeft inp), (keyRight inp); repeat split.
Qed.

Lemma moveRighty_range (a : D2DApp) (inp : Inputs) :
  0 <= RIGHTY_SPEED ->
  NET_X <= rightyPosition a <= COURT_LENGTH ->
  NET_X <= rightyPosition (moveRighty RIGHTY_SPEED a inp) <= COURT_LENGTH.
Proof.
  intros S R. unfold moveRighty.
  assert (D : 0 <= RIGHTY_SPEED * DT) by (unfold DT; lra).
  assert (N : NET_X <= COURT_LENGTH) by (vm_compute; discriminate).
  destruct a as [? st ? scr ? ? ? ? ? ? ? ? ? ? ? ? ? ? ? ? rp].
  cbn [currentScreen rightyPosition] in *.
  destruct scr; [exact R|..];
    destruct (keyLeft inp), (keyRight inp); event_fields;
    unfold fmax, fmin;
    repeat match goal with
           | |- context [Qltb ?p ?q] =>
               let E := fresh "E" in
               destruct (Qltb p q) eqn:E;
               [apply Qltb_lt in E | apply Qltb_ge in E]
           end; lra.
Qed.

(** What a tick leaves of the controls. *)
Lemma Update_controls (a : D2DApp) (inp : Inputs) :
  exists a',
    Update sqrtf cosf sinf RIGHTY_SPEED a inp = Some a' /\
    visualPaceMultiplier a' = visualPaceMultiplier a /\
    simulationStarted a' = simulationStarted a /\
    currentScreen a' = currentScreen a /\
    airResistanceMode a' = airResistanceMode a /\
    (simulationPaused a = false -> simulationPaused a' = false) /\
    (ballHitRighty a = false -> ballHitRighty a' = false) /\
    (rightyPosition a' = rightyPosition a \/
     rightyPosition a' = rightyPosition (moveRighty RIGHTY_SPEED a inp)) /\
    ((horizontalForce a' = horizontalForce a /\
      launchAngle a' = launchAngle a /\
      ballSpin a' = ballSpin a)
     \/
     (horizontalForce a' = 200.0 + inject_Z (Z.rem (rand inp 0) 201) /\
      launchAngle a' = 9.0 + inject_Z (Z.rem (rand inp 1) 31) /\
      ballSpin a' = 60.0 + inject_Z (Z.rem (rand inp 2) 541))).
Proof.
  unfold Update.
  destruct (negb (simulationStarted a) || simulationComplete a || simulationPaused a).
  { exists a. repeat split; auto. }
  cbv zeta.
  destruct (moveRighty_controls a inp)
    as [M1 [M2 [M3 [M4 [M5 [M6 [M7 [M8 [M9 [M10 M11]]]]]]]]]].
  cbv zeta in *.
  destruct (updateCourt_controls (currentScreen (moveRighty RIGHTY_SPEED a inp))
              (moveRighty RIGHTY_SPEED a inp) (DT * visualPaceMultiplier a) inp)
    as [a' [U [F1 [F2 [F3 [F4 [F5 [F6 [F7 [F8 F9]]]]]]]]]].
  rewrite M6 in F7. rewrite M7 in F8. rewrite M8, M9, M10 in F9.
  rewrite M1 in F1. rewrite M2 in F3. rewrite M4 in F5. rewrite M5 in F6.
  destruct (currentScreen (moveRighty RIGHTY_SPEED a inp)) eqn:Scr;
    [|exists a'; split; [exact U|]; repeat split; auto ..].
  destruct (updateBalls_total (balls (moveRighty RIGHTY_SPEED a inp))
              (DT * visualPaceMultiplier a) (rand inp) 0) as [r ->].
  destruct (negb (snd r)); eexists; (split; [reflexivity|]); event_fields;
    rewrite ?M1, ?M2, ?M5, ?M6, ?M7, ?M8, ?M9, ?M10; repeat split; auto;
    rewrite Scr; exact M4.
Qed.

End TickFrames.

Lemma fmax_cases (a b : Q) :
  (fmax a b = a /\ b < a) \/ (fmax a b = b /\ a <= b).
Proof.
  unfold fmax. destruct (Qltb b a) eqn:E.
  - left. split; [reflexivity | apply Qltb_lt, E].
  - right. split; [reflexivity | apply Qltb_ge, E].
Qed.

Lemma fmin_cases (a b : Q) :
  (fmin a b = a /\ a < b) \/ (fmin a b = b /\ b <= a).
Proof.
  unfold fmin. destruct (Qltb a b) eqn:E.
  - left. split; [reflexivity | apply Qltb_lt, E].
  - right. split; [reflexivity | apply Qltb_ge, E].
Qed.

Ltac clamp :=
  repeat match goal with
         | |- context [fmax ?a ?b] =>
             let E := fresh "E" in
             destruct (fmax_cases a b) as [[-> E] | [-> E]]
         | |- context [fmin ?a ?b] =>
             let E := fresh "E" in
             destruct (fmin_cases a b) as [[-> E] | [-> E]]
         end.

Section MessageLoop.

Variables sqrtf cosf sinf : Q -> Q.
Variables RIGHTY_SPEED ANGLE_STEP SPIN_STEP MAX_SPIN MIN_SPIN : Q.

Local Abbreviation proc :=
  (WindowProc sqrtf cosf sinf RIGHTY_SPEED ANGLE_STEP SPIN_STEP MAX_SPIN MIN_SPIN).
Local Abbreviation loop :=
  (messageLoop sqrtf cosf sinf RIGHTY_SPEED ANGLE_STEP SPIN_STEP MAX_SPIN MIN_SPIN).

Lemma WindowProc_total (a : D2DApp) (msg : Message) :
  exists a', proc a msg = Some a'.
Proof.
  destruct msg as [inp| | |]; cbn [WindowProc]; try (eexists; reflexivity).
  destruct (Update_controls sqrtf cosf sinf RIGHTY_SPEED a inp) as [a' [U _]].
  exists a'. exact U.
Qed.

Lemma relaunch_draws (inp : Inputs) :
  (forall k, (0 <= rand inp k)%Z) ->
  200 <= 200.0 + inject_Z (Z.rem (rand inp 0) 201) <= 400 /\
  9 <= 9.0 + inject_Z (Z.rem (rand inp 1) 31) <= 39 /\
  60 <= 60.0 + inject_Z (Z.rem (rand inp 2) 541) <= 600.
Proof.
  intros R.
  destruct (rem_range (rand inp 0) 201 200 (R 0%nat)) as [A1 A2]; [lia | lia |].
  destruct (rem_range (rand inp 1) 31 30 (R 1%nat)) as [B1 B2]; [lia | lia |].
  destruct (rem_range (rand inp 2) 541 540 (R 2%nat)) as [C1 C2]; [lia | lia |].
  change (inject_Z 200) with 200 in A2. change (inject_Z 30) with 30 in B2.
  change (inject_Z 540) with 540 in C2.
  repeat split; lra.
Qed.

Lemma WindowProc_settings (a a' : D2DApp) (msg : Message) :
  0 <= RIGHTY_SPEED ->
  0 <= ANGLE_STEP ->
  randNonNegative msg ->
  settingsInRange a ->
  proc a msg = Some a' ->
  settingsInRange a'.
Proof.
  intros RS AS RN [[F1 F2] [[A1 A2] [[P1 P2] [R1 R2]]]] W.
  unfold MIN_HORIZONTAL_FORCE, MAX_HORIZONTAL_FORCE, MIN_ANGLE, MAX_ANGLE in *.
  unfold settingsInRange.
  unfold MIN_HORIZONTAL_FORCE, MAX_HORIZONTAL_FORCE, MIN_ANGLE, MAX_ANGLE.
  destruct msg as [inp | w c s | xp yp | d]; cbn [WindowProc] in W.
  - destruct (Update_controls sqrtf cosf sinf RIGHTY_SPEED a inp)
      as [a1 [U [G1 [_ [_ [_ [_ [_ [G2 G3]]]]]]]]].
    rewrite U in W. injection W as <-.
    destruct (relaunch_draws inp RN) as [D1 [D2 D3]].
    destruct (moveRighty_range RIGHTY_SPEED a inp RS (conj R1 R2)) as [M1 M2].
    rewrite G1.
    destruct G2 as [-> | ->];
      destruct G3 as [[-> [-> _]] | [-> [-> _]]]; repeat split; lra.
  - injection W as <-.
    destruct (OnKeyPress_controls cosf sinf ANGLE_STEP SPIN_STEP MAX_SPIN MIN_SPIN
                a w c s) as [KF [KA [_ [KP [-> _]]]]].
    unfold MIN_HORIZONTAL_FORCE, MAX_HORIZONTAL_FORCE, MIN_ANGLE, MAX_ANGLE in *.
    assert (PD : visualPaceMultiplier a / 1.1 <= visualPaceMultiplier a).
    { assert (E : visualPaceMultiplier a / 1.1
                  == visualPaceMultiplier a * (10 # 11)) by (field; lra).
      rewrite E. lra. }
    destruct KF as [-> | [-> | ->]]; destruct KA as [-> | [-> | ->]];
      destruct KP as [-> | [-> | ->]]; clamp; repeat split; lra.
  - injection W as <-.
    destruct (OnMouseClick_controls cosf sinf a xp yp)
      as [-> [-> [_ [-> [-> _]]]]].
    repeat split; assumption.
  - injection W as <-.
    destruct (OnMouseWheel_controls cosf sinf ANGLE_STEP a d)
      as [-> [KA [_ [-> [-> _]]]]].
    unfold MIN_ANGLE, MAX_ANGLE in *.
    destruct KA as [-> | [-> | ->]]; clamp; repeat split; lra.
Qed.

Lemma WindowProc_spin (a a' : D2DApp) (msg : Message) :
  0 <= SPIN_STEP ->
  MIN_SPIN <= 60 ->
  600 <= MAX_SPIN ->
  randNonNegative msg ->
  spinInRange MAX_SPIN MIN_SPIN a ->
  proc a msg = Some a' ->
  spinInRange MAX_SPIN MIN_SPIN a'.
Proof.
  intros SS LO HI RN [S1 S2] W. unfold spinInRange.
  destruct msg as [inp | w c s | xp yp | d]; cbn [WindowProc] in W.
  - destruct (Update_controls sqrtf cosf sinf RIGHTY_SPEED a inp)
      as [a1 [U [_ [_ [_ [_ [_ [_ [_ G3]]]]]]]]].
    rewrite U in W. injection W as <-.
    destruct (relaunch_draws inp RN) as [_ [_ D3]].
    destruct G3 as [[_ [_ ->]] | [_ [_ ->]]]; lra.
  - injection W as <-.
    destruct (OnKeyPress_controls cosf sinf ANGLE_STEP SPIN_STEP MAX_SPIN MIN_SPIN
                a w c s) as [_ [_ [KS _]]].
    destruct KS as [-> | [-> | ->]]; clamp; lra.
  - injection W as <-.
    destruct (OnMouseClick_controls cosf sinf a xp yp) as [_ [_ [-> _]]].
    split; assumption.
  - injection W as <-.
    destruct (OnMouseWheel_controls cosf sinf ANGLE_STEP a d) as [_ [_ [-> _]]].
    split; assumption.
Qed.

Lemma stopped_Update (a : D2DApp) (inp : Inputs) :
  simulationStarted a = false ->
  Update sqrtf cosf sinf RIGHTY_SPEED a inp = Some a.
Proof. intros St. unfold Update. rewrite St. reflexivity. Qed.

Lemma stopped_WindowProc (a : D2DApp) (msg : Message) :
  simulationStarted a = false ->
  isSpaceKey msg = false ->
  exists a',
    proc a msg = Some a' /\
    simulationStarted a' = false /\
    (isTimer msg = true -> a' = a).
Proof.
  intros St K. destruct msg as [inp | w c s | xp yp | d]; cbn [WindowProc isTimer].
  - exists a. split; [apply stopped_Update, St|]. split; [exact St | reflexivity].
  - eexists. split; [reflexivity|]. split; [|discriminate].
    destruct (OnKeyPress_controls cosf sinf ANGLE_STEP SPIN_STEP MAX_SPIN MIN_SPIN
                a w c s) as [_ [_ [_ [_ [_ [_ [_ [_ [KS _]]]]]]]]].
    cbv zeta in KS. cbn [isSpaceKey] in K. apply Z.eqb_neq in K.
    destruct (simulationStarted (OnKeyPress _ _ _ _ _ _ a w c s));
      [|reflexivity].
    destruct (KS eq_refl) as [E | E]; [congruence | contradiction].
  - eexists. split; [reflexivity|]. split; [|discriminate].
    destruct (OnMouseClick_controls cosf sinf a xp yp)
      as [_ [_ [_ [_ [_ [-> _]]]]]]. exact St.
  - eexists. split; [reflexivity|]. split; [|discriminate].
    destruct (OnMouseWheel_controls cosf sinf ANGLE_STEP a d)
      as [_ [_ [_ [_ [_ [-> _]]]]]]. exact St.
Qed.

End MessageLoop.

(** X6: the settings stay in range.  Whatever messages arrive, in whatever
    order, the message loop handles all of them and keeps the launch force
    in [0, 1000] N, the launch angle in [0, 90] degrees, the visual pace in
    [0.1, 10] and the receiving player between the net and the end of the
    court, provided the configured player speed and angle step are not
    negative (and rand() returns no negative number). *)
Theorem messages_keep_settings_in_range :
  forall (sqrtf cosf sinf : Q -> Q)
         (RIGHTY_SPEED ANGLE_STEP SPIN_STEP MAX_SPIN MIN_SPIN : Q)
         (msgs : list Message) (a : D2DApp),
  0 <= RIGHTY_SPEED ->
  0 <= ANGLE_STEP ->
  Forall randNonNegative msgs ->
  settingsInRange a ->
  exists a',
    messageLoop sqrtf cosf sinf RIGHTY_SPEED ANGLE_STEP SPIN_STEP MAX_SPIN MIN_SPIN
      a msgs = Some a' /\
    settingsInRange a'.
Proof.
  intros sqrtf cosf sinf RIGHTY_SPEED ANGLE_STEP SPIN_STEP MAX_SPIN MIN_SPIN
    msgs a RS AS RN. revert a.
  induction RN as [|msg msgs R _ IH]; intros a I; cbn [messageLoop].
  - exists a. split; [reflexivity | exact I].
  - destruct (WindowProc_total sqrtf cosf sinf RIGHTY_SPEED ANGLE_STEP SPIN_STEP
                MAX_SPIN MIN_SPIN a msg) as [a1 W].
    rewrite W. apply IH.
    exact (WindowProc_settings sqrtf cosf sinf RIGHTY_SPEED ANGLE_STEP SPIN_STEP
             MAX_SPIN MIN_SPIN a a1 msg RS AS R I W).
Qed.

(** The force is raised at its upper end and a tick follows. *)
Lemma messages_keep_settings_in_range_witness :
  exists a',
    messageLoop sqrt_micro cos_poly sin_poly 4 3 60 9000 (-3000)
      (app_set_horizontalForce (sampleApp ballOverNet false 0) 995)
      [WM_KEYDOWN VK_UP false false; WM_TIMER (sampleInputs 0 0 0)] = Some a' /\
    settingsInRange a'.
Proof.
  apply (messages_keep_settings_in_range sqrt_micro cos_poly sin_poly
           4 3 60 9000 (-3000)).
  - by_evaluation.
  - by_evaluation.
  - repeat constructor. intros [|[|k]]; cbn; lia.
  - repeat split; by_evaluation.
Defined.

(** X7: the spin setting stays between MIN_SPIN and MAX_SPIN under every
    sequence of messages when the configured range contains the range
    [60, 600] the automatic relaunch draws from and the spin step is not
    negative. *)
Theorem messages_keep_spin_in_range :
  forall (sqrtf cosf sinf : Q -> Q)
         (RIGHTY_SPEED ANGLE_STEP SPIN_STEP MAX_SPIN MIN_SPIN : Q)
         (msgs : list Message) (a : D2DApp),
  0 <= SPIN_STEP ->
  MIN_SPIN <= 60 ->
  600 <= MAX_SPIN ->
  Forall randNonNegative msgs ->
  spinInRange MAX_SPIN MIN_SPIN a ->
  exists a',
    messageLoop sqrtf cosf sinf RIGHTY_SPEED ANGLE_STEP SPIN_STEP MAX_SPIN MIN_SPIN
      a msgs = Some a' /\
    spinInRange MAX_SPIN MIN_SPIN a'.
Proof.
  intros sqrtf cosf sinf RIGHTY_SPEED ANGLE_STEP SPIN_STEP MAX_SPIN MIN_SPIN
    msgs a SS LO HI RN. revert a.
  induction RN as [|msg msgs R _ IH]; intros a I; cbn [messageLoop].
  - exists a. split; [reflexivity | exact I].
  - destruct (WindowProc_total sqrtf cosf sinf RIGHTY_SPEED ANGLE_STEP SPIN_STEP
                MAX_SPIN MIN_SPIN a msg) as [a1 W].
    rewrite W. apply IH.
    exact (WindowProc_spin sqrtf cosf sinf RIGHTY_SPEED ANGLE_STEP SPIN_STEP
             MAX_SPIN MIN_SPIN a a1 msg SS LO HI R I W).
Qed.

(** CTRL and + at the upper end of the spin range, then the relaunch. *)
Lemma messages_keep_spin_in_range_witness :
  exists a',
    messageLoop sqrt_micro cos_poly sin_poly 4 3 60 9000 (-3000)
      (app_set_ballSpin appWaiting 8990)
      [WM_KEYDOWN VK_ADD true false; WM_TIMER (sampleInputs 0 0 540)] = Some a' /\
    spinInRange 9000 (-3000) a'.
Proof.
  apply (messages_keep_spin_in_range sqrt_micro cos_poly sin_poly
           4 3 60 9000 (-3000)).
  - by_evaluation.
  - by_evaluation.
  - by_evaluation.
  - repeat constructor. intros [|[|k]]; cbn; lia.
  - split; by_evaluation.
Defined.

(** X8: only SPACE starts the simulation.  While the simulation is stopped,
    a sequence of messages without a SPACE key leaves it stopped, and its
    timer ticks change nothing: the result is that of the same messages
    without the ticks. *)
Theorem stopped_until_space :
  forall (sqrtf cosf sinf : Q -> Q)
         (RIGHTY_SPEED ANGLE_STEP SPIN_STEP MAX_SPIN MIN_SPIN : Q)
         (msgs : list Message) (a : D2DApp),
  simulationStarted a = false ->
  existsb isSpaceKey msgs = false ->
  exists a',
    messageLoop sqrtf cosf sinf RIGHTY_SPEED ANGLE_STEP SPIN_STEP MAX_SPIN MIN_SPIN
      a msgs = Some a' /\
    simulationStarted a' = false /\
    messageLoop sqrtf cosf sinf RIGHTY_SPEED ANGLE_STEP SPIN_STEP MAX_SPIN MIN_SPIN
      a (filter (fun msg => negb (isTimer msg)) msgs) = Some a'.
Proof.
  intros sqrtf cosf sinf RIGHTY_SPEED ANGLE_STEP SPIN_STEP MAX_SPIN MIN_SPIN msgs.
  induction msgs as [|msg msgs IH]; intros a St K.
  - exists a. split; [reflexivity|]. split; [exact St | reflexivity].
  - cbn [existsb] in K. apply orb_false_iff in K as [K1 K2].
    destruct (stopped_WindowProc sqrtf cosf sinf RIGHTY_SPEED ANGLE_STEP SPIN_STEP
                MAX_SPIN MIN_SPIN a msg St K1) as [a1 [W [St1 T]]].
    destruct (IH a1 St1 K2) as [a' [L [St' F]]].
    exists a'. cbn [messageLoop filter]. rewrite W.
    split; [exact L|]. split; [exact St'|].
    destruct (isTimer msg) eqn:Ti; cbn [negb].
    + rewrite <- (T eq_refl). exact F.
    + cbn [messageLoop]. rewrite W. exact F.
Qed.

(** After R, ticks and the arrow keys leave the simulation stopped. *)
Lemma stopped_until_space_witness :
  exists a',
    messageLoop sqrt_micro cos_poly sin_poly 4 3 60 9000 (-3000)
      (OnKeyPress cos_poly sin_poly 3 60 9000 (-3000)
         (sampleApp ballOverNet false 0) (chr "R") false false)
      [WM_TIMER (sampleInputs 0 0 0); WM_KEYDOWN VK_UP false false;
       WM_TIMER (sampleInputs 0 0 0)] = Some a' /\
    simulationStarted a' = false /\
    messageLoop sqrt_micro cos_poly sin_poly 4 3 60 9000 (-3000)
      (OnKeyPress cos_poly sin_poly 3 60 9000 (-3000)
         (sampleApp ballOverNet false 0) (chr "R") false false)
      [WM_KEYDOWN VK_UP false false] = Some a'.
Proof.
  apply (stopped_until_space sqrt_micro cos_poly sin_poly 4 3 60 9000 (-3000)
           [WM_TIMER (sampleInputs 0 0 0); WM_KEYDOWN VK_UP false false;
            WM_TIMER (sampleInputs 0 0 0)]);
    reflexivity.
Defined.

(** ** The return-shot dialog *)


(** The three range tests of the OK button, on the numbers read. *)
Lemma dialog_force_test (f : N) :
  Qltb (inject_Z (Z.of_N f)) 10.0 || Qltb 600.0 (inject_Z (Z.of_N f)) = false
  <-> (10 <= f <= 600)%N.
Proof.
  rewrite orb_false_iff. split.
  - intros [L H]. apply Qltb_ge in L. apply Qltb_ge in H.
    assert (L' : inject_Z 10 <= inject_Z (Z.of_N f))
      by (change (inject_Z 10) with 10; lra).
    assert (H' : inject_Z (Z.of_N f) <= inject_Z 600)
      by (change (inject_Z 600) with 600; lra).
    rewrite <- Zle_Qle in L', H'. lia.
  - intros [L H].
    assert (L' : inject_Z 10 <= inject_Z (Z.of_N f)) by (rewrite <- Zle_Qle; lia).
    assert (H' : inject_Z (Z.of_N f) <= inject_Z 600) by (rewrite <- Zle_Qle; lia).
    change (inject_Z 10) with 10 in L'. change (inject_Z 600) with 600 in H'.
    split.
    + destruct (Qltb _ 10.0) eqn:E; [apply Qltb_lt in E; lra | reflexivity].
    + destruct (Qltb 600.0 _) eqn:E; [apply Qltb_lt in E; lra | reflexivity].
Qed.

Lemma dialog_angle_test (n : N) :
  Qltb (inject_Z (Z.of_N n)) 0.0 = false /\
  (Qltb 75.0 (inject_Z (Z.of_N n)) = false <-> (n <= 75)%N).
Proof.
  assert (P : inject_Z 0 <= inject_Z (Z.of_N n)) by (rewrite <- Zle_Qle; lia).
  change (inject_Z 0) with 0 in P.
  split; [|split].
  - destruct (Qltb _ 0.0) eqn:E; [apply Qltb_lt in E; lra | reflexivity].
  - intros H. apply Qltb_ge in H.
    assert (H' : inject_Z (Z.of_N n) <= inject_Z 75)
      by (change (inject_Z 75) with 75; lra).
    rewrite <- Zle_Qle in H'. lia.
  - intros H.
    assert (H' : inject_Z (Z.of_N n) <= inject_Z 75) by (rewrite <- Zle_Qle; lia).
    change (inject_Z 75) with 75 in H'.
    destruct (Qltb 75.0 _) eqn:E; [apply Qltb_lt in E; lra | reflexivity].
Qed.

Lemma dialog_spin_test (s : Z) :
  Qltb (inject_Z s) (-3000.0) || Qltb 9000.0 (inject_Z s) = false
  <-> (-3000 <= s <= 9000)%Z.
Proof.
  rewrite orb_false_iff. split.
  - intros [L H]. apply Qltb_ge in L. apply Qltb_ge in H.
    assert (L' : inject_Z (-3000) <= inject_Z s)
      by (change (inject_Z (-3000)) with (-3000); lra).
    assert (H' : inject_Z s <= inject_Z 9000)
      by (change (inject_Z 9000) with 9000; lra).
    rewrite <- Zle_Qle in L', H'. lia.
  - intros [L H].
    assert (L' : inject_Z (-3000) <= inject_Z s) by (rewrite <- Zle_Qle; lia).
    assert (H' : inject_Z s <= inject_Z 9000) by (rewrite <- Zle_Qle; lia).
    change (inject_Z (-3000)) with (-3000) in L'.
    change (inject_Z 9000) with 9000 in H'.
    split.
    + destruct (Qltb _ (-3000.0)) eqn:E; [apply Qltb_lt in E; lra | reflexivity].
    + destruct (Qltb 9000.0 _) eqn:E; [apply Qltb_lt in E; lra | reflexivity].
Qed.

Lemma dialogOk_accepts (p : RightyHitParams) (forceItem angleItem : option N)
    (spinItem : option Z) :
  snd (dialogOk p forceItem angleItem spinItem) = None <->
  exists f n s,
    forceItem = Some f /\ angleItem = Some n /\ spinItem = Some s /\
    (10 <= f <= 600)%N /\ (n <= 75)%N /\ (-3000 <= s <= 9000)%Z.
Proof.
  unfold dialogOk.
  destruct forceItem as [f|];
    cbn [success negb readUnsigned readSigned force angle spin snd];
    [|split; [discriminate | intros (f' & n' & s' & Ef & _); discriminate]].
  pose proof (dialog_force_test f) as FT.
  destruct (Qltb (inject_Z (Z.of_N f)) 10.0);
    [split; [discriminate|];
     intros (f' & n' & s' & Ef & _ & _ & F & _); injection Ef as <-;
     apply FT in F; discriminate|].
  destruct (Qltb 600.0 (inject_Z (Z.of_N f)));
    [split; [discriminate|];
     intros (f' & n' & s' & Ef & _ & _ & F & _); injection Ef as <-;
     apply FT in F; discriminate|].
  destruct angleItem as [n|];
    cbn [success negb readUnsigned readSigned force angle spin snd];
    [|split; [discriminate | intros (f' & n' & s' & _ & En & _); discriminate]].
  destruct (dialog_angle_test n) as [AL AT]. rewrite AL.
  destruct (Qltb 75.0 (inject_Z (Z.of_N n)));
    [split; [discriminate|];
     intros (f' & n' & s' & _ & En & _ & _ & A & _); injection En as <-;
     apply AT in A; discriminate|].
  destruct spinItem as [s|];
    cbn [success negb readUnsigned readSigned force angle spin snd];
    [|split; [discriminate | intros (f' & n' & s' & _ & _ & Es & _); discriminate]].
  pose proof (dialog_spin_test s) as ST.
  destruct (Qltb (inject_Z s) (-3000.0));
    [split; [discriminate|];
     intros (f' & n' & s' & _ & _ & Es & _ & _ & S); injection Es as <-;
     apply ST in S; discriminate|].
  destruct (Qltb 9000.0 (inject_Z s));
    [split; [discriminate|];
     intros (f' & n' & s' & _ & _ & Es & _ & _ & S); injection Es as <-;
     apply ST in S; discriminate|].
  split; [intros _ | reflexivity].
  exists f, n, s. repeat split; first [apply FT | apply AT | apply ST]; reflexivity.
Qed.

Lemma dialogOk_params (p : RightyHitParams) (forceItem angleItem : option N)
    (spinItem : option Z) :
  (snd (dialogOk p forceItem angleItem spinItem) = None ->
   fst (dialogOk p forceItem angleItem spinItem)
   = {| force := readUnsigned forceItem; angle := readUnsigned angleItem;
        spin := readSigned spinItem |}) /\
  snd (dialogOk p forceItem angleItem spinItem) <> Some (TooLow FIELD_ANGLE).
Proof.
  unfold dialogOk.
  destruct forceItem as [f|], angleItem as [n|], spinItem as [s|];
    cbn [success negb readUnsigned readSigned force angle spin];
    repeat match goal with
           | |- context [Qltb (inject_Z (Z.of_N ?k)) 0.0] =>
               rewrite (proj1 (dialog_angle_test k))
           | |- context [if ?c then _ else _] => destruct c
           end;
    cbn [fst snd]; split; intros; try discriminate; reflexivity.
Qed.

(** X9: the OK button of the return-shot dialog accepts exactly the valid
    input.  The dialog ends with [confirmed] set if and only if all three
    fields hold a number, the force is in [10, 600], the angle at most 75
    and the spin in [-3000, 9000]; the parameters are then the numbers
    entered.  The angle field is read unsigned, so "angle is too low" is
    never shown. *)
Theorem dialog_accepts_exactly_valid_input :
  forall (p : RightyHitParams) (forceItem angleItem : option N)
         (spinItem : option Z),
  (snd (dialogOk p forceItem angleItem spinItem) = None <->
   exists f n s,
     forceItem = Some f /\ angleItem = Some n /\ spinItem = Some s /\
     (10 <= f <= 600)%N /\ (n <= 75)%N /\ (-3000 <= s <= 9000)%Z) /\
  (snd (dialogOk p forceItem angleItem spinItem) = None ->
   fst (dialogOk p forceItem angleItem spinItem)
   = {| force := readUnsigned forceItem; angle := readUnsigned angleItem;
        spin := readSigned spinItem |}) /\
  snd (dialogOk p forceItem angleItem spinItem) <> Some (TooLow FIELD_ANGLE).
Proof.
  intros p forceItem angleItem spinItem.
  split; [apply dialogOk_accepts | apply dialogOk_params].
Qed.

(** The speed [ApplyRightyHit] gives the ball. *)
Lemma return_speed (f : Q) :
  let v := fmax 5.0 (f / 600.0 * 30.0) in
  5 <= v /\ (f <= 600 -> v <= 30) /\ (f <= 100 -> v == 5) /\
  (100 <= f -> v == f / 20).
Proof.
  cbv zeta. assert (E : f / 600.0 * 30.0 == f / 20) by field.
  destruct (fmax_cases 5.0 (f / 600.0 * 30.0)) as [[-> L] | [-> L]];
    rewrite ?E in *; assert (D : f / 20 == f * (1 # 20)) by field;
    rewrite ?D in *; repeat split; intros; lra.
Qed.

(** X10: what a confirmed dialog does to the ball.  For input the OK button
    accepts, [ApplyRightyHit] sends the ball back with speed
    v = max(5, force / 20) m/s, which lies in [5, 30] and is the same 5 m/s
    for every force up to 100 N; the velocity is (-v cos(angle), v sin(angle))
    for an angle in [0, 75] degrees, the spin is the spin entered, the ball
    is put 10 cm before the player and the pause ends. *)
Theorem accepted_return_shot :
  forall (cosf sinf : Q -> Q) (m : ScreenMode) (a : D2DApp)
         (p0 p : RightyHitParams) (forceItem angleItem : option N)
         (spinItem : option Z),
  dialogOk p0 forceItem angleItem spinItem = (p, None) ->
  exists v,
    5 <= v <= 30 /\
    (force p <= 100 -> v == 5) /\
    (100 <= force p -> v == force p / 20) /\
    0 <= angle p <= 75 /\
    -3000 <= spin p <= 9000 /\
    vx (courtBall m (ApplyRightyHit cosf sinf m a (force p) (angle p) (spin p)))
    = - v * cosf (angle p * PI / 180.0) /\
    vy (courtBall m (ApplyRightyHit cosf sinf m a (force p) (angle p) (spin p)))
    = v * sinf (angle p * PI / 180.0) /\
    spinRPM (courtBall m (ApplyRightyHit cosf sinf m a (force p) (angle p) (spin p)))
    = spin p /\
    x (courtBall m (ApplyRightyHit cosf sinf m a (force p) (angle p) (spin p)))
    = rightyPosition a - 0.1 /\
    simulationPaused (ApplyRightyHit cosf sinf m a (force p) (angle p) (spin p))
    = false.
Proof.
  intros cosf sinf m a p0 p forceItem angleItem spinItem D.
  assert (S : snd (dialogOk p0 forceItem angleItem spinItem) = None)
    by (rewrite D; reflexivity).
  pose proof (proj1 (dialogOk_params p0 forceItem angleItem spinItem) S) as F.
  rewrite D in F. cbn [fst] in F. subst p.
  apply dialogOk_accepts in S as (f & n & s & -> & -> & -> & Rf & Rn & Rs).
  cbn [readUnsigned readSigned force angle spin].
  assert (F1 : inject_Z 10 <= inject_Z (Z.of_N f)) by (rewrite <- Zle_Qle; lia).
  assert (F2 : inject_Z (Z.of_N f) <= inject_Z 600) by (rewrite <- Zle_Qle; lia).
  assert (A1 : inject_Z 0 <= inject_Z (Z.of_N n)) by (rewrite <- Zle_Qle; lia).
  assert (A2 : inject_Z (Z.of_N n) <= inject_Z 75) by (rewrite <- Zle_Qle; lia).
  assert (S1 : inject_Z (-3000) <= inject_Z s) by (rewrite <- Zle_Qle; lia).
  assert (S2 : inject_Z s <= inject_Z 9000) by (rewrite <- Zle_Qle; lia).
  change (inject_Z 10) with 10 in F1. change (inject_Z 600) with 600 in F2.
  change (inject_Z 0) with 0 in A1. change (inject_Z 75) with 75 in A2.
  change (inject_Z (-3000)) with (-3000) in S1.
  change (inject_Z 9000) with 9000 in S2.
  destruct (return_speed (inject_Z (Z.of_N f))) as [V1 [V2 [V3 V4]]].
  exists (fmax 5.0 (inject_Z (Z.of_N f) / 600.0 * 30.0)).
  split; [split; [exact V1 | apply V2; lra]|].
  split; [exact V3|]. split; [exact V4|].
  split; [split; assumption|]. split; [split; assumption|].
  unfold ApplyRightyHit. destruct m; repeat split.
Qed.

(** 300 N at 30 degrees with 120 RPM: the ball leaves at 15 m/s. *)
Lemma accepted_return_shot_witness :
  exists v,
    5 <= v <= 30 /\ v == 15 /\
    vx (clayBall (ApplyRightyHit cos_poly sin_poly MODE_CLAY
                    (sampleApp ballAtRighty false 0) 300 30 120))
    = - v * cos_poly (30 * PI / 180.0).
Proof.
  destruct (accepted_return_shot cos_poly sin_poly MODE_CLAY
              (sampleApp ballAtRighty false 0)
              {| force := 300.0; angle := 30.0; spin := 120.0 |}
              {| force := 300; angle := 30; spin := 120 |}
              (Some 300%N) (Some 30%N) (Some 120%Z) eq_refl)
    as [v [R [_ [V [_ [_ [VX _]]]]]]].
  exists v. split; [exact R|]. split; [|exact VX].
  rewrite V; by_evaluation.
Defined.

(** ** The relaunch comes *)

Section Waiting.

Variables sqrtf cosf sinf : Q -> Q.
Variable RIGHTY_SPEED : Q.

Local Abbreviation tick1 := (Update sqrtf cosf sinf RIGHTY_SPEED).
Local Abbreviation run := (ticks sqrtf cosf sinf RIGHTY_SPEED).

Lemma ticks_shift (n : nat) (a : D2DApp) (inps : nat -> Inputs) :
  run (S n) a inps =
  match tick1 a (inps 0%nat) with
  | Some a1 => run n a1 (fun k => inps (S k))
  | None => None
  end.
Proof.
  revert a inps. induction n as [|n IH]; intros a inps.
  - cbn [ticks]. destruct (tick1 a (inps 0%nat)); reflexivity.
  - change (run (S (S n)) a inps)
      with (match run (S n) a inps with
            | Some a' => tick1 a' (inps (S n))
            | None => None
            end).
    rewrite IH. destruct (tick1 a (inps 0%nat)); reflexivity.
Qed.

(** A tick that finds the relaunch pending and the delay not yet over only
    moves the player and advances the timer. *)
Lemma updateCourt_waiting (m : ScreenMode) (a : D2DApp) (dt : Q) (inp : Inputs) :
  waitingToRelaunch a = true ->
  isActive (courtBall m a) = false ->
  relaunchTimer a + dt < RELAUNCH_DELAY ->
  updateCourt sqrtf cosf sinf m a dt inp
  = Some (app_set_relaunchTimer a (relaunchTimer a + dt)).
Proof.
  intros W I T. unfold updateCourt. rewrite I. cbn [andb]. rewrite W.
  cbv zeta. cbn [app_set_relaunchTimer relaunchTimer].
  apply Qleb_gt in T. rewrite T. reflexivity.
Qed.

(** The states in which a single-court screen waits for the relaunch. *)
Lemma waiting_tick (m : ScreenMode) (a : D2DApp) (inp : Inputs) :
  simulationStarted a = true ->
  simulationComplete a = false ->
  simulationPaused a = false ->
  currentScreen a = m ->
  m <> MODE_ALL ->
  waitingToRelaunch a = true ->
  isActive (courtBall m a) = false ->
  relaunchTimer a + DT * visualPaceMultiplier a < RELAUNCH_DELAY ->
  exists a1,
    tick1 a inp = Some a1 /\
    simulationStarted a1 = true /\
    simulationComplete a1 = false /\
    simulationPaused a1 = false /\
    currentScreen a1 = m /\
    waitingToRelaunch a1 = true /\
    courtBall m a1 = courtBall m a /\
    airResistanceMode a1 = airResistanceMode a /\
    visualPaceMultiplier a1 = visualPaceMultiplier a /\
    relaunchTimer a1 = relaunchTimer a + DT * visualPaceMultiplier a.
Proof.
  intros St C P M NA W I T.
  rewrite (Update_single sqrtf cosf sinf RIGHTY_SPEED a inp m St C P M NA).
  destruct (moveRighty_frame RIGHTY_SPEED a inp m) as [F1 [F2 [F3 [F4 [F5 F6]]]]].
  destruct (moveRighty_controls RIGHTY_SPEED a inp)
    as [M1 [M2 [M3 [M4 [M5 [M6 _]]]]]]. cbv zeta in *.
  rewrite updateCourt_waiting; [|rewrite F3; exact W | rewrite F2; exact I
                                |rewrite F4; exact T].
  eexists. split; [reflexivity|].
  cbn [app_set_relaunchTimer simulationStarted simulationComplete
       simulationPaused currentScreen waitingToRelaunch airResistanceMode
       visualPaceMultiplier relaunchTimer].
  rewrite M2, M3, M6, M4, F3, M5, M1, F4.
  repeat split; assumption.
Qed.

Lemma relaunch_tick (m : ScreenMode) (a : D2DApp) (inp : Inputs) :
  simulationStarted a = true ->
  simulationComplete a = false ->
  simulationPaused a = false ->
  currentScreen a = m ->
  m <> MODE_ALL ->
  waitingToRelaunch a = true ->
  isActive (courtBall m a) = false ->
  RELAUNCH_DELAY <= relaunchTimer a + DT * visualPaceMultiplier a ->
  exists a1,
    tick1 a inp = Some a1 /\
    waitingToRelaunch a1 = false /\
    relaunchTimer a1 = 0.0 /\
    courtBall m a1 =
      resetForHorizontalShot cosf sinf
        (setAirResistance (courtBall m a) (airCoefficient (airResistanceMode a)))
        (200.0 + inject_Z (Z.rem (rand inp 0) 201))
        (9.0 + inject_Z (Z.rem (rand inp 1) 31))
        (60.0 + inject_Z (Z.rem (rand inp 2) 541)).
Proof.
  intros St C P M NA W I T.
  rewrite (Update_single sqrtf cosf sinf RIGHTY_SPEED a inp m St C P M NA).
  destruct (moveRighty_frame RIGHTY_SPEED a inp m) as [F1 [F2 [F3 [F4 [F5 F6]]]]].
  destruct (updateCourt_relaunch sqrtf cosf sinf m (moveRighty RIGHTY_SPEED a inp)
              (DT * visualPaceMultiplier a) inp)
    as [a1 [U [H1 [H2 [H3 [H4 [H5 H6]]]]]]].
  - left. rewrite F3. exact W.
  - rewrite F2, I. cbn [andb]. rewrite F4. exact T.
  - exists a1. split; [exact U|]. split; [exact H5|]. split; [exact H6|].
    rewrite H4, H1, H2, H3, F2, I, F6. reflexivity.
Qed.

Lemma relaunch_within (m : ScreenMode) (k : nat) :
  forall (a : D2DApp) (inps : nat -> Inputs),
  simulationStarted a = true ->
  simulationComplete a = false ->
  simulationPaused a = false ->
  currentScreen a = m ->
  m <> MODE_ALL ->
  waitingToRelaunch a = true ->
  isActive (courtBall m a) = false ->
  0 < visualPaceMultiplier a ->
  RELAUNCH_DELAY - relaunchTimer a
    <= inject_Z (Z.of_nat k) * (DT * visualPaceMultiplier a) ->
  exists n a',
    run (S n) a inps = Some a' /\
    waitingToRelaunch a' = false /\
    relaunchTimer a' = 0.0 /\
    courtBall m a' =
      resetForHorizontalShot cosf sinf
        (setAirResistance (courtBall m a) (airCoefficient (airResistanceMode a)))
        (200.0 + inject_Z (Z.rem (rand (inps n) 0) 201))
        (9.0 + inject_Z (Z.rem (rand (inps n) 1) 31))
        (60.0 + inject_Z (Z.rem (rand (inps n) 2) 541)) /\
    RELAUNCH_DELAY
      <= relaunchTimer a + inject_Z (Z.of_nat (S n)) * (DT * visualPaceMultiplier a) /\
    (n <> O ->
     relaunchTimer a + inject_Z (Z.of_nat n) * (DT * visualPaceMultiplier a)
       < RELAUNCH_DELAY).
Proof.
  induction k as [|k IH]; intros a inps St C P M NA W I V K;
    assert (D : 0 < DT * visualPaceMultiplier a) by (unfold DT; lra);
    destruct (Qlt_le_dec (relaunchTimer a + DT * visualPaceMultiplier a)
                RELAUNCH_DELAY) as [T|T].
  - exfalso. cbn [Z.of_nat] in K. change (inject_Z 0) with 0 in K. lra.
  - destruct (relaunch_tick m a (inps 0%nat) St C P M NA W I T)
      as [a1 [U [H1 [H2 H3]]]].
    exists 0%nat, a1. cbn [ticks]. split; [exact U|].
    split; [exact H1|]. split; [exact H2|]. split; [exact H3|].
    split; [|congruence]. change (inject_Z (Z.of_nat 1)) with 1. lra.
  - destruct (waiting_tick m a (inps 0%nat) St C P M NA W I T)
      as [a1 [U [St1 [C1 [P1 [M1 [W1 [B1 [A1 [V1 T1]]]]]]]]]].
    destruct (IH a1 (fun j => inps (S j)) St1 C1 P1 M1 NA W1) as
      [n [a' [R [H1 [H2 [H3 [H4 H5]]]]]]].
    + rewrite B1. exact I.
    + rewrite V1. exact V.
    + rewrite V1, T1. rewrite inject_nat_succ in K. lra.
    + exists (S n), a'. rewrite ticks_shift, U.
      split; [exact R|]. split; [exact H1|]. split; [exact H2|].
      split; [rewrite H3, B1, A1; reflexivity|].
      rewrite V1, T1 in H4, H5.
      split.
      * rewrite (inject_nat_succ (S n)). lra.
      * intros _. destruct n as [|n].
        -- change (inject_Z (Z.of_nat 1)) with 1. lra.
        -- rewrite inject_nat_succ. specialize (H5 ltac:(congruence)). lra.
  - destruct (relaunch_tick m a (inps 0%nat) St C P M NA W I T)
      as [a1 [U [H1 [H2 H3]]]].
    exists 0%nat, a1. cbn [ticks]. split; [exact U|].
    split; [exact H1|]. split; [exact H2|]. split; [exact H3|].
    split; [|congruence]. change (inject_Z (Z.of_nat 1)) with 1. lra.
Qed.

End Waiting.

(** X11: a stopped ball is relaunched.  On a running single-court screen
    that waits for the relaunch at a positive visual pace, the relaunch
    comes after finitely many ticks, whatever the player does meanwhile: at
    the first tick at which the timer, advanced by DT times the pace per
    tick, reaches the 2-second delay.  The ball then starts again with the
    air resistance of the selected mode and the three values drawn in that
    tick. *)
Theorem stopped_ball_is_relaunched :
  forall (sqrtf cosf sinf : Q -> Q) (RIGHTY_SPEED : Q)
         (m : ScreenMode) (a : D2DApp) (inps : nat -> Inputs),
  simulationStarted a = true ->
  simulationComplete a = false ->
  simulationPaused a = false ->
  currentScreen a = m ->
  m <> MODE_ALL ->
  waitingToRelaunch a = true ->
  isActive (courtBall m a) = false ->
  0 < visualPaceMultiplier a ->
  exists n a',
    ticks sqrtf cosf sinf RIGHTY_SPEED (S n) a inps = Some a' /\
    waitingToRelaunch a' = false /\
    relaunchTimer a' = 0.0 /\
    courtBall m a' =
      resetForHorizontalShot cosf sinf
        (setAirResistance (courtBall m a) (airCoefficient (airResistanceMode a)))
        (200.0 + inject_Z (Z.rem (rand (inps n) 0) 201))
        (9.0 + inject_Z (Z.rem (rand (inps n) 1) 31))
        (60.0 + inject_Z (Z.rem (rand (inps n) 2) 541)) /\
    isActive (courtBall m a') = true /\
    RELAUNCH_DELAY
      <= relaunchTimer a + inject_Z (Z.of_nat (S n)) * (DT * visualPaceMultiplier a) /\
    (n <> O ->
     relaunchTimer a + inject_Z (Z.of_nat n) * (DT * visualPaceMultiplier a)
       < RELAUNCH_DELAY).
Proof.
  intros sqrtf cosf sinf RIGHTY_SPEED m a inps St C P M NA W I V.
  assert (D : 0 < DT * visualPaceMultiplier a) by (unfold DT; lra).
  destruct (nat_archimedean (RELAUNCH_DELAY - relaunchTimer a) _ D) as [k K].
  destruct (relaunch_within sqrtf cosf sinf RIGHTY_SPEED m k a inps
              St C P M NA W I V K) as [n [a' [R [H1 [H2 [H3 [H4 H5]]]]]]].
  exists n, a'. repeat (split; [assumption|]).
  split; [rewrite H3; reflexivity|]. split; assumption.
Qed.

(** [appWaiting] is one tick before the end of the delay. *)
Lemma stopped_ball_is_relaunched_witness :
  exists n a',
    ticks sqrt_micro cos_poly sin_poly 4 (S n) appWaiting
      (fun _ => sampleInputs 7 8 9) = Some a' /\
    n = 0%nat /\
    waitingToRelaunch a' = false /\
    isActive (clayBall a') = true.
Proof.
  destruct (stopped_ball_is_relaunched sqrt_micro cos_poly sin_poly 4 MODE_CLAY
              appWaiting (fun _ => sampleInputs 7 8 9))
    as [n [a' [R [H1 [_ [_ [H4 [_ H6]]]]]]]];
    [try reflexivity; try discriminate; by_evaluation ..|].
  exists n, a'. split; [exact R|]. split; [|split; [exact H1 | exact H4]].
  destruct n as [|n]; [reflexivity|]. exfalso.
  specialize (H6 ltac:(discriminate)).
  assert (X : 0 <= inject_Z (Z.of_nat n)).
  { change 0 with (inject_Z 0). rewrite <- Zle_Qle. lia. }
  rewrite inject_nat_succ in H6.
  revert H6. unfold DT, RELAUNCH_DELAY. cbn [appWaiting sampleApp relaunchTimer
    visualPaceMultiplier]. intros H6. lra.
Defined.

(** ** Between two messages *)

Section Running.

Variables sqrtf cosf sinf : Q -> Q.
Variables RIGHTY_SPEED ANGLE_STEP SPIN_STEP MAX_SPIN MIN_SPIN : Q.

Local Abbreviation key := (OnKeyPress cosf sinf ANGLE_STEP SPIN_STEP MAX_SPIN MIN_SPIN).

(** While the simulation runs, no key but SPACE touches a ball or the
    pending relaunch. *)
Lemma OnKeyPress_running (a : D2DApp) (wParam : Z) (ctrl shift : bool) :
  wParam <> VK_SPACE ->
  simulationStarted (key a wParam ctrl shift) = true ->
  waitingToRelaunch (key a wParam ctrl shift) = waitingToRelaunch a /\
  currentScreen (key a wParam ctrl shift) = currentScreen a /\
  (forall m, courtBall m (key a wParam ctrl shift) = courtBall m a) /\
  balls (key a wParam ctrl shift) = balls a.
Proof.
  intros SP.
  match goal with
  | |- ?G =>
      match eval pattern (key a wParam ctrl shift) in G with
      | ?F _ => set (P := F); change (P (key a wParam ctrl shift))
      end
  end.
  unfold OnKeyPress.
  destruct (wParam =? VK_SPACE)%Z eqn:E;
    [apply Z.eqb_eq in E; contradiction|];
    repeat match goal with
           | |- P (if ?c then _ else _) => destruct c
           end;
    unfold StartSimulation, switchTo, shootIfIdle, airAndShootCurrent,
      shootCurrent, resetBalls;
    destruct a as [? st ? scr ? ? ? ? ? ? ? ? ? ? ? ? ? ? ? ? ?];
    subst P; cbv beta; event_fields; destruct scr, st; event_fields;
    intros; try discriminate; repeat split; intros []; reflexivity.
Qed.

Lemma OnMouseClick_running (a : D2DApp) (xPos yPos : Z) :
  simulationStarted a = true ->
  waitingToRelaunch (OnMouseClick cosf sinf a xPos yPos) = waitingToRelaunch a /\
  currentScreen (OnMouseClick cosf sinf a xPos yPos) = currentScreen a /\
  (forall m, courtBall m (OnMouseClick cosf sinf a xPos yPos) = courtBall m a) /\
  balls (OnMouseClick cosf sinf a xPos yPos) = balls a.
Proof.
  unfold OnMouseClick, airAndShootCurrent.
  destruct a as [? st ? scr ? ? ? ? ? ? ? ? ? ? ? ? ? ? ? ? ?].
  event_fields. intros ->.
  destruct scr; event_fields; try (destruct (_ && _)); event_fields;
    repeat split; intros []; reflexivity.
Qed.

Lemma OnMouseWheel_running (a : D2DApp) (delta : Z) :
  simulationStarted a = true ->
  waitingToRelaunch (OnMouseWheel cosf sinf ANGLE_STEP a delta)
  = waitingToRelaunch a /\
  currentScreen (OnMouseWheel cosf sinf ANGLE_STEP a delta) = currentScreen a /\
  (forall m, courtBall m (OnMouseWheel cosf sinf ANGLE_STEP a delta)
             = courtBall m a) /\
  balls (OnMouseWheel cosf sinf ANGLE_STEP a delta) = balls a.
Proof.
  unfold OnMouseWheel, shootIfIdle, shootCurrent.
  destruct a as [? st ? scr ? ? ? ? ? ? ? ? ? ? ? ? ? ? ? ? ?].
  event_fields. intros ->.
  destruct scr; event_fields; try (destruct (0 <? delta)%Z); event_fields;
    repeat split; intros []; reflexivity.
Qed.

(** A court branch ends with the relaunch pending only when the ball has
    stopped. *)
Lemma updateCourt_pending (m : ScreenMode) (a a' : D2DApp) (dt : Q) (inp : Inputs) :
  (waitingToRelaunch a = true -> isActive (courtBall m a) = false) ->
  updateCourt sqrtf cosf sinf m a dt inp = Some a' ->
  waitingToRelaunch a' = true ->
  isActive (courtBall m a') = false.
Proof.
  destruct a as [? st ? scr ? ? ? ? ? ? ? ? ? wt ? ? ? ? ? ? ?].
  intros J. revert a'.
  match goal with
  | |- forall a', ?u = Some a' -> @?F a' =>
      set (P := fun r => forall a', r = Some a' -> F a'); change (P u)
  end.
  unfold updateCourt.
  match goal with
  | |- context [if ?c then app_set_relaunchTimer _ _ else _] => destruct c
  end;
  destruct m; cbn [courtBall set_courtBall clayBall grassBall hardBall laverBall balls];
  repeat match goal with
         | |- P (match update ?s ?b ?d ?r with _ => _ end) =>
             let b' := fresh "b" in
             destruct (update_total s b d r) as [b' ->]
         | |- context [if CheckRightyCollision ?a ?b then _ else _] =>
             let E := fresh "K" in
             destruct (CheckRightyCollision a b) eqn:E
         | |- context [dialog inp] => destruct (dialog inp)
         | |- P (if ?c then _ else _) =>
             let E := fresh "E" in destruct c eqn:E
         end;
  subst P; cbv beta; intros a' [= <-];
  unfold ApplyRightyHit in *; event_fields; ball_fields;
  try discriminate; try congruence;
  try (intros _; apply negb_true_iff; assumption);
  try (intros W; apply J; exact W);
  try (intros _; apply J; reflexivity);
  try reflexivity.
Qed.

Local Abbreviation proc :=
  (WindowProc sqrtf cosf sinf RIGHTY_SPEED ANGLE_STEP SPIN_STEP MAX_SPIN MIN_SPIN).

Lemma Update_pending (a a' : D2DApp) (inp : Inputs) :
  wellFormed a ->
  Update sqrtf cosf sinf RIGHTY_SPEED a inp = Some a' ->
  simulationStarted a' = true -> waitingToRelaunch a' = true ->
  currentScreen a' <> MODE_ALL /\
  isActive (courtBall (currentScreen a') a') = false.
Proof.
  intros [Pa [_ J]] U.
  destruct (simulationStarted a) eqn:St;
    [|rewrite stopped_Update in U by exact St; injection U as <-;
      rewrite St; discriminate].
  destruct (simulationComplete a) eqn:C.
  { unfold Update in U. rewrite St, C in U. cbn [negb orb] in U.
    injection U as <-. rewrite St. exact J. }
  destruct (moveRighty_frame RIGHTY_SPEED a inp (currentScreen a))
    as [F1 [F2 [F3 _]]].
  destruct (currentScreen a) eqn:Scr.
  2-5: match type of Scr with
       | _ = ?m =>
           rewrite (Update_single sqrtf cosf sinf RIGHTY_SPEED a inp m
                      St C Pa Scr ltac:(discriminate)) in U;
           destruct (updateCourt_controls sqrtf cosf sinf m
                       (moveRighty RIGHTY_SPEED a inp)
                       (DT * visualPaceMultiplier a) inp)
             as [a2 [U2 [_ [_ [_ [_ [F5 _]]]]]]];
           rewrite U in U2; injection U2 as <-; rewrite F5, F1;
           intros _ W; split; [discriminate|];
           apply (updateCourt_pending m (moveRighty RIGHTY_SPEED a inp) a'
                    (DT * visualPaceMultiplier a) inp);
           [rewrite F3, F2; intros W0; apply (J eq_refl W0) | exact U | exact W]
       end.
  unfold Update in U. rewrite St, C, Pa in U. cbn [negb orb] in U.
  cbv zeta in U. rewrite F1 in U.
  destruct (updateBalls_total sqrtf (balls (moveRighty RIGHTY_SPEED a inp))
              (DT * visualPaceMultiplier a) (rand inp) 0) as [r R].
  rewrite R in U.
  assert (W : waitingToRelaunch a' = waitingToRelaunch a).
  { destruct (negb (snd r)); injection U as <-; event_fields; exact F3. }
  intros _ W'. rewrite W in W'. destruct (J eq_refl W') as [N _].
  contradiction.
Qed.

Lemma WindowProc_wellFormed (a a' : D2DApp) (msg : Message) :
  wellFormed a ->
  proc a msg = Some a' ->
  wellFormed a'.
Proof.
  intros WF W. pose proof WF as [Pa [Hi J]].
  destruct msg as [inp | w c s | xp yp | d]; cbn [WindowProc] in W.
  - destruct (Update_controls sqrtf cosf sinf RIGHTY_SPEED a inp)
      as [a1 [U [_ [_ [_ [_ [G1 [G2 _]]]]]]]].
    rewrite W in U. injection U as <-.
    split; [exact (G1 Pa)|]. split; [exact (G2 Hi)|].
    exact (Update_pending a a' inp WF W).
  - injection W as <-.
    destruct (OnKeyPress_controls cosf sinf ANGLE_STEP SPIN_STEP MAX_SPIN MIN_SPIN
                a w c s) as [_ [_ [_ [_ [_ [_ [K1 [K2 [K3 K4]]]]]]]]].
    cbv zeta in *. split; [rewrite K1; exact Pa|]. split; [rewrite K2; exact Hi|].
    intros St' W'.
    destruct (Z.eq_dec w VK_SPACE) as [E|E].
    + destruct (K4 E) as [_ [_ [W0 _]]]. congruence.
    + destruct (OnKeyPress_running a w c s E St') as [R1 [R2 [R3 _]]].
      rewrite R1 in W'. rewrite R2, R3.
      destruct (K3 St') as [St|St]; [|contradiction]. exact (J St W').
  - injection W as <-.
    destruct (OnMouseClick_controls cosf sinf a xp yp)
      as [_ [_ [_ [_ [_ [K0 [K1 K2]]]]]]].
    cbv zeta in *. split; [rewrite K1; exact Pa|]. split; [rewrite K2; exact Hi|].
    rewrite K0. intros St W'.
    destruct (OnMouseClick_running a xp yp St) as [R1 [R2 [R3 _]]].
    rewrite R1 in W'. rewrite R2, R3. exact (J St W').
  - injection W as <-.
    destruct (OnMouseWheel_controls cosf sinf ANGLE_STEP a d)
      as [_ [_ [_ [_ [_ [K0 [K1 K2]]]]]]].
    cbv zeta in *. split; [rewrite K1; exact Pa|]. split; [rewrite K2; exact Hi|].
    rewrite K0. intros St W'.
    destruct (OnMouseWheel_running a d St) as [R1 [R2 [R3 _]]].
    rewrite R1 in W'. rewrite R2, R3. exact (J St W').
Qed.

End Running.

(** X12: between two messages the program is in a well-formed state.
    Starting from such a state (the constructor builds one), after every
    sequence of messages no return-shot pause is left behind
    ([simulationPaused] and [ballHitRighty] are false), and whenever the
    simulation runs with a relaunch pending it shows a single court whose
    ball has stopped. *)
Theorem messages_keep_state_well_formed :
  forall (sqrtf cosf sinf : Q -> Q)
         (RIGHTY_SPEED ANGLE_STEP SPIN_STEP MAX_SPIN MIN_SPIN : Q)
         (msgs : list Message) (a : D2DApp),
  wellFormed a ->
  exists a',
    messageLoop sqrtf cosf sinf RIGHTY_SPEED ANGLE_STEP SPIN_STEP MAX_SPIN MIN_SPIN
      a msgs = Some a' /\
    wellFormed a'.
Proof.
  intros sqrtf cosf sinf RIGHTY_SPEED ANGLE_STEP SPIN_STEP MAX_SPIN MIN_SPIN msgs.
  induction msgs as [|msg msgs IH]; intros a I; cbn [messageLoop].
  - exists a. split; [reflexivity | exact I].
  - destruct (WindowProc_total sqrtf cosf sinf RIGHTY_SPEED ANGLE_STEP SPIN_STEP
                MAX_SPIN MIN_SPIN a msg) as [a1 W].
    rewrite W. apply IH.
    exact (WindowProc_wellFormed sqrtf cosf sinf RIGHTY_SPEED ANGLE_STEP SPIN_STEP
             MAX_SPIN MIN_SPIN a a1 msg I W).
Qed.

(** From the constructor: the clay court is chosen, the simulation started
    and a tick follows. *)
Lemma messages_keep_state_well_formed_witness :
  exists a',
    messageLoop sqrt_micro cos_poly sin_poly 4 3 60 9000 (-3000)
      (newD2DApp 270 39 120 2)
      [WM_KEYDOWN (chr "C") false false; WM_KEYDOWN VK_SPACE false false;
       WM_TIMER (sampleInputs 0 0 0)] = Some a' /\
    wellFormed a'.
Proof.
  apply (messages_keep_state_well_formed sqrt_micro cos_poly sin_poly
           4 3 60 9000 (-3000)).
  split; [reflexivity|]. split; [reflexivity|]. discriminate.
Defined.

(** ** The air-resistance box *)

Lemma Qleb_inject_Z (a b : Z) : Qleb (inject_Z a) (inject_Z b) = (a <=? b)%Z.
Proof.
  unfold Qleb, Qle_bool, inject_Z. cbn [Qnum Qden]. rewrite !Z.mul_1_r.
  reflexivity.
Qed.

Lemma click_in_box (xPos yPos : Z) :
  Qleb comboBoxLeft (inject_Z xPos) && Qleb (inject_Z xPos) comboBoxRight
  && Qleb comboBoxTop (inject_Z yPos) && Qleb (inject_Z yPos) comboBoxBottom
  = ((10 <=? xPos) && (xPos <=? 200) && (420 <=? yPos) && (yPos <=? 445))%Z.
Proof.
  change comboBoxLeft with (inject_Z 10). change comboBoxRight with (inject_Z 200).
  change comboBoxTop with (inject_Z 420). change comboBoxBottom with (inject_Z 445).
  rewrite !Qleb_inject_Z. reflexivity.
Qed.

Lemma click_mode (cosf sinf : Q -> Q) (a : D2DApp) (xPos yPos : Z) :
  isCourt (currentScreen a)
  && ((10 <=? xPos) && (xPos <=? 200) && (420 <=? yPos) && (yPos <=? 445))%Z
  = true ->
  airResistanceMode (OnMouseClick cosf sinf a xPos yPos)
  = airOfIndex (Z.rem (airIndex (airResistanceMode a) + 1) 4) /\
  currentScreen (OnMouseClick cosf sinf a xPos yPos) = currentScreen a.
Proof.
  unfold OnMouseClick, airAndShootCurrent. rewrite !click_in_box.
  destruct a as [? st ? scr ? ? ? ? ? ? ? ? air ? ? ? ? ? ? ? ?].
  event_fields.
  destruct scr; event_fields; [discriminate|..];
    (destruct (_ && _); cbn [negb andb]; [|discriminate]); intros _;
    event_fields; destruct st; event_fields; split; reflexivity.
Qed.

(** X13: the air-resistance box.  A click changes the state only on a
    single-court screen and inside the rectangle [10, 200] x [420, 445].
    There it selects the next of the four air modes, cyclically (four
    clicks restore the mode); a ball in flight keeps the air resistance it
    was launched with, while a ball waiting for SPACE is set up again with
    the coefficient of the new mode. *)
Theorem air_box_click :
  forall (cosf sinf : Q -> Q) (a : D2DApp) (xPos yPos : Z),
  if isCourt (currentScreen a)
     && ((10 <=? xPos) && (xPos <=? 200) && (420 <=? yPos) && (yPos <=? 445))%Z
  then
    airIndex (airResistanceMode (OnMouseClick cosf sinf a xPos yPos))
    = ((airIndex (airResistanceMode a) + 1) mod 4)%Z /\
    airResistanceMode
      (OnMouseClick cosf sinf
         (OnMouseClick cosf sinf
            (OnMouseClick cosf sinf
               (OnMouseClick cosf sinf a xPos yPos) xPos yPos) xPos yPos)
         xPos yPos)
    = airResistanceMode a /\
    (if simulationStarted a
     then courtBall (currentScreen a) (OnMouseClick cosf sinf a xPos yPos)
          = courtBall (currentScreen a) a
     else courtBall (currentScreen a) (OnMouseClick cosf sinf a xPos yPos)
          = resetForHorizontalShot cosf sinf
              (setAirResistance (courtBall (currentScreen a) a)
                 (airCoefficient
                    (airResistanceMode (OnMouseClick cosf sinf a xPos yPos))))
              (horizontalForce a) (launchAngle a) (ballSpin a))
  else OnMouseClick cosf sinf a xPos yPos = a.
Proof.
  intros cosf sinf a xPos yPos.
  destruct (isCourt (currentScreen a) && _) eqn:B.
  - split; [|split].
    + destruct (click_mode cosf sinf a xPos yPos B) as [-> _].
      destruct (airResistanceMode a); reflexivity.
    + destruct (click_mode cosf sinf a xPos yPos B) as [M1 S1].
      assert (B1 := B). rewrite <- S1 in B1.
      destruct (click_mode cosf sinf _ xPos yPos B1) as [M2 S2].
      assert (B2 := B1). rewrite <- S2 in B2.
      destruct (click_mode cosf sinf _ xPos yPos B2) as [M3 S3].
      assert (B3 := B2). rewrite <- S3 in B3.
      destruct (click_mode cosf sinf _ xPos yPos B3) as [M4 _].
      rewrite M4, M3, M2, M1. destruct (airResistanceMode a); reflexivity.
    + revert B. unfold OnMouseClick, airAndShootCurrent. rewrite !click_in_box.
      destruct a as [? st ? scr ? ? ? ? ? ? ? ? air ? ? ? ? ? ? ? ?].
      event_fields.
      destruct scr; event_fields; [discriminate|..];
        (destruct (_ && _); cbn [negb andb]; [|discriminate]); intros _;
        event_fields; destruct st; event_fields; reflexivity.
  - revert B. unfold OnMouseClick. rewrite !click_in_box.
    destruct (isCourt (currentScreen a)); cbn [negb andb]; [|reflexivity].
    intros ->. reflexivity.
Qed.

(** ** The all-courts screen: every comparison run ends *)

Lemma vxAfter_still (b : TennisBall) (dt : Q) :
  vx b == 0 -> vxAfter b dt == 0.
Proof.
  intro V. unfold vxAfter. rewrite V. unfold BALL_MASS. field.
Qed.

(** One call of [update] on an active ball that drops vertically without
    spin: a step of free fall, or a bounce; the ball keeps dropping
    vertically. *)
Lemma court_vertical_step (sqrtf : Q -> Q) (b : TennisBall) (dt : Q) (r : Z) :
  isActive b = true -> vx b == 0 -> x b == 0 -> spinRPM b == 0 ->
  exists b',
    update sqrtf b dt r = Some b' /\
    vx b' == 0 /\ x b' == 0 /\ spinRPM b' == 0 /\
    ((0 < y b + (vy b - GRAVITY * dt) * dt /\ isActive b' = true /\
      y b' == y b + (vy b - GRAVITY * dt) * dt /\
      vy b' == vy b - GRAVITY * dt /\
      bounceCount b' = bounceCount b)
     \/
     (y b + (vy b - GRAVITY * dt) * dt <= 0 /\ y b' == 0 /\
      bounceCount b' = (bounceCount b + 1)%Z /\
      (isActive b' = true -> (bounceCount b + 1 <= 10)%Z) /\
      (isActive b' = false -> vy b' == 0))).
Proof.
  intros A VX X S.
  pose proof (vyAfter_no_spin sqrtf b dt S) as VY.
  pose proof (vxAfter_still b dt VX) as VX1.
  pose proof (integrate_eq sqrtf b dt) as I.
  set (b1 := {| y := y b + vyAfter sqrtf b dt * dt; vy := vyAfter sqrtf b dt;
                x := x b + vxAfter b dt * dt; vx := vxAfter b dt;
                time := time b + dt; bounceCount := bounceCount b;
                isActive := isActive b; surface := surface b;
                airResistanceCoeff := airResistanceCoeff b; spinRPM := spinRPM b;
                trajectory := trajectory b; bounces := bounces b |}) in *.
  assert (X1 : x b1 == 0) by (cbn [b1 x]; rewrite X, VX1; ring).
  assert (NX : 0 < NET_X) by reflexivity.
  assert (CL : 0 < COURT_LENGTH) by reflexivity.
  assert (N : netCollision (x b) (y b) r b1 = Some b1).
  { apply netCollision_miss. unfold netHit, crossedNet.
    assert (E1 : Qleb NET_X (x b1) = false) by (apply Qleb_gt; lra).
    assert (E2 : Qltb NET_X (x b) = false) by (apply Qltb_ge; lra).
    rewrite E1, E2, andb_false_r. reflexivity. }
  rewrite (update_active sqrtf b dt r b1 b1 A I N).
  assert (OB : forall g, x g == 0 -> outOfBounds g = g).
  { intros g G. unfold outOfBounds.
    assert (E1 : Qltb (x g) 0.0 = false) by (apply Qltb_ge; lra).
    assert (E2 : Qltb COURT_LENGTH (x g) = false) by (apply Qltb_ge; lra).
    rewrite E1, E2. reflexivity. }
  destruct (Qlt_le_dec 0.0 (y (recordTrajectory b1))) as [G|G].
  - rewrite groundCollision_above by exact G. cbv beta iota.
    rewrite OB by exact X1.
    eexists. split; [reflexivity|].
    cbn [recordTrajectory set_trajectory b1 y vy x vx spinRPM bounceCount
         isActive] in *.
    split; [exact VX1|]. split; [exact X1|]. split; [exact S|].
    left. rewrite VY in *. repeat split; try assumption; try reflexivity; lra.
  - rewrite groundCollision_bounce by exact G. cbv beta iota zeta.
    rewrite OB by (cbn [x recordTrajectory set_trajectory]; exact X1).
    eexists. split; [reflexivity|].
    cbn [recordTrajectory set_trajectory b1 y vy x vx spinRPM bounceCount
         isActive surface] in *.
    assert (VB : vxAfter b dt * 0.8 + spinRPM b / 5000.0 * 2.0 == 0)
      by (rewrite VX1, S; field).
    split; [destruct (_ || _); [reflexivity | exact VB]|].
    split; [exact X1|]. split; [rewrite S; ring|].
    right. rewrite VY in G.
    split; [lra|]. split; [reflexivity|]. split; [reflexivity|].
    destruct (Qltb _ 0.1); cbn [orb].
    + split; [discriminate | reflexivity].
    + destruct (10 <? bounceCount b + 1)%Z eqn:C.
      * split; [discriminate | reflexivity].
      * apply Z.ltb_ge in C. split; [intros _; exact C|].
        rewrite A. discriminate.
Qed.

Section AllCourts.

Variable sqrtf : Q -> Q.
Variable dt : Q.
Hypothesis dt_pos : 0 < dt.

Local Abbreviation step := (fun b => updated sqrtf b dt 0).
Local Abbreviation steps := (fun n b => updatedTimes sqrtf n b dt).

Lemma updated_inactive (b : TennisBall) (r : Z) :
  isActive b = false -> updated sqrtf b dt r = b.
Proof. intros A. unfold updated, update. rewrite A. reflexivity. Qed.

(** A ball that drops vertically never reaches the net: no number is
    drawn for it. *)
Lemma updated_vertical (b : TennisBall) (r : Z) :
  dropsVertically b ->
  update sqrtf b dt r = Some (step b) /\ dropsVertically (step b).
Proof.
  intros [A | [VX [X Sp]]].
  - rewrite updated_inactive by exact A. split; [|left; exact A].
    unfold update. rewrite A. reflexivity.
  - destruct (isActive b) eqn:A.
    + destruct (court_vertical_step sqrtf b dt r A VX X Sp)
        as [b' [U [VX' [X' [S' _]]]]].
      destruct (court_vertical_step sqrtf b dt 0 A VX X Sp) as [b0 [U0 _]].
      assert (E : b' = b0).
      { pose proof (integrate_eq sqrtf b dt) as I.
        assert (N : forall q, netCollision (x b) (y b) q
                      {| y := y b + vyAfter sqrtf b dt * dt;
                         vy := vyAfter sqrtf b dt;
                         x := x b + vxAfter b dt * dt; vx := vxAfter b dt;
                         time := time b + dt; bounceCount := bounceCount b;
                         isActive := isActive b; surface := surface b;
                         airResistanceCoeff := airResistanceCoeff b;
                         spinRPM := spinRPM b;
                         trajectory := trajectory b; bounces := bounces b |}
                    = Some {| y := y b + vyAfter sqrtf b dt * dt;
                              vy := vyAfter sqrtf b dt;
                              x := x b + vxAfter b dt * dt; vx := vxAfter b dt;
                              time := time b + dt; bounceCount := bounceCount b;
                              isActive := isActive b; surface := surface b;
                              airResistanceCoeff := airResistanceCoeff b;
                              spinRPM := spinRPM b;
                              trajectory := trajectory b; bounces := bounces b |}).
        { intros q. apply netCollision_miss. unfold netHit, crossedNet.
          pose proof (vxAfter_still b dt VX) as V1.
          assert (NX : 0 < NET_X) by reflexivity.
          assert (E1 : Qleb NET_X (x b + vxAfter b dt * dt) = false)
            by (apply Qleb_gt; rewrite X, V1; lra).
          assert (E2 : Qltb NET_X (x b) = false) by (apply Qltb_ge; lra).
          cbn [x]. rewrite E1, E2, andb_false_r. reflexivity. }
        rewrite (update_active sqrtf b dt r _ _ A I (N r)) in U.
        rewrite (update_active sqrtf b dt 0 _ _ A I (N 0%Z)) in U0.
        congruence. }
      subst b0. unfold updated. rewrite U0. split; [exact U|].
      right. repeat split; assumption.
    + rewrite updated_inactive by exact A. split; [|left; exact A].
      unfold update. rewrite A. reflexivity.
Qed.

Lemma steps_inactive (n : nat) (b : TennisBall) :
  isActive b = false -> steps n b = b.
Proof.
  intros A. induction n as [|n IH]; [reflexivity|].
  cbn [updatedTimes]. rewrite IH. apply updated_inactive, A.
Qed.

Lemma steps_shift (n : nat) (b : TennisBall) :
  steps (S n) b = steps n (step b).
Proof.
  induction n as [|n IH]; [reflexivity|].
  cbn [updatedTimes] in *. rewrite IH. reflexivity.
Qed.

Lemma steps_add (n m : nat) (b : TennisBall) :
  steps (n + m)%nat b = steps m (steps n b).
Proof.
  revert b. induction n as [|n IH]; intros b; [reflexivity|].
  change (S n + m)%nat with (S (n + m)).
  rewrite !steps_shift. apply IH.
Qed.

Lemma steps_vertical (n : nat) (b : TennisBall) :
  dropsVertically b -> dropsVertically (steps n b).
Proof.
  intros V. induction n as [|n IH]; [exact V|].
  cbn [updatedTimes]. apply (updated_vertical _ 0 IH).
Qed.

(** The step of a vertical drop: free fall, or a bounce. *)
Lemma vertical_step (b : TennisBall) :
  isActive b = true -> vx b == 0 -> x b == 0 -> spinRPM b == 0 ->
  vx (step b) == 0 /\ x (step b) == 0 /\ spinRPM (step b) == 0 /\
  ((0 < y b + (vy b - GRAVITY * dt) * dt /\ isActive (step b) = true /\
    y (step b) == y b + (vy b - GRAVITY * dt) * dt /\
    vy (step b) == vy b - GRAVITY * dt /\
    bounceCount (step b) = bounceCount b)
   \/
   (y b + (vy b - GRAVITY * dt) * dt <= 0 /\ y (step b) == 0 /\
    bounceCount (step b) = (bounceCount b + 1)%Z /\
    (isActive (step b) = true -> (bounceCount b + 1 <= 10)%Z) /\
    (isActive (step b) = false -> vy (step b) == 0))).
Proof.
  intros A VX X Sp.
  destruct (court_vertical_step sqrtf b dt 0 A VX X Sp) as [b' [U F]].
  unfold updated. rewrite U. exact F.
Qed.

Lemma vertical_reaches_ground (n : nat) :
  forall b : TennisBall,
  isActive b = true -> vx b == 0 -> x b == 0 -> spinRPM b == 0 ->
  vy b <= 0 ->
  y b <= inject_Z (Z.of_nat n) * (GRAVITY * dt * dt) ->
  exists k,
    isActive (steps k b) = false \/
    (bounceCount (steps k b) = (bounceCount b + 1)%Z /\
     (bounceCount b + 1 <= 10)%Z).
Proof.
  assert (DD : 0 < dt * dt) by nra.
  induction n as [|n IH]; intros b A VX X Sp V Y;
    assert (VD : vy b * dt <= 0) by nra;
    destruct (vertical_step b A VX X Sp)
      as [VX1 [X1 [S1 [[P [A1 [Y1 [V1 C1]]]] | [P [Y1 [C1 [A1 R1]]]]]]]].
  - exfalso. cbn [Z.of_nat] in Y. change (inject_Z 0) with 0 in Y.
    unfold GRAVITY in *. lra.
  - exists 1%nat. cbn [updatedTimes].
    destruct (isActive (step b)); [right | left; reflexivity].
    split; [exact C1 | apply A1; reflexivity].
  - destruct (IH (step b) A1 VX1 X1 S1) as [k K].
    + rewrite V1. unfold GRAVITY. lra.
    + rewrite Y1. rewrite inject_nat_succ in Y. unfold GRAVITY in *. lra.
    + exists (S k). rewrite steps_shift. rewrite C1 in K. exact K.
  - exists 1%nat. cbn [updatedTimes].
    destruct (isActive (step b)); [right | left; reflexivity].
    split; [exact C1 | apply A1; reflexivity].
Qed.

Lemma vertical_bounces (n : nat) :
  forall b : TennisBall,
  isActive b = true -> vx b == 0 -> x b == 0 -> spinRPM b == 0 ->
  vy b <= inject_Z (Z.of_nat n) * (GRAVITY * dt) ->
  exists k,
    isActive (steps k b) = false \/
    (bounceCount (steps k b) = (bounceCount b + 1)%Z /\
     (bounceCount b + 1 <= 10)%Z).
Proof.
  induction n as [|n IH]; intros b A VX X Sp V.
  - assert (DD : 0 < GRAVITY * dt * dt) by (unfold GRAVITY; nra).
    destruct (nat_archimedean (y b) _ DD) as [n Y].
    apply (vertical_reaches_ground n b A VX X Sp); [|exact Y].
    cbn [Z.of_nat] in V. change (inject_Z 0) with 0 in V. lra.
  - destruct (vertical_step b A VX X Sp)
      as [VX1 [X1 [S1 [[P [A1 [Y1 [V1 C1]]]] | [P [Y1 [C1 [A1 R1]]]]]]]].
    + destruct (IH (step b) A1 VX1 X1 S1) as [k K].
      * rewrite V1. rewrite inject_nat_succ in V. lra.
      * exists (S k). rewrite steps_shift. rewrite C1 in K. exact K.
    + exists 1%nat. cbn [updatedTimes].
      destruct (isActive (step b)); [right | left; reflexivity].
      split; [exact C1 | apply A1; reflexivity].
Qed.

Lemma vertical_stops (m : nat) :
  forall b : TennisBall,
  dropsVertically b ->
  (11 - bounceCount b <= Z.of_nat m)%Z ->
  exists n, isActive (steps n b) = false.
Proof.
  assert (GD : 0 < GRAVITY * dt) by (unfold GRAVITY; lra).
  induction m as [|m IH]; intros b [A | [VX [X Sp]]] C;
    try (exists 0%nat; exact A);
    (destruct (isActive b) eqn:A; [|exists 0%nat; exact A]);
    destruct (nat_archimedean (vy b) _ GD) as [n V];
    destruct (vertical_bounces n b A VX X Sp V) as [k [K | [K1 K2]]];
    try (exists k; exact K); try lia.
  destruct (IH (steps k b)) as [n' N];
    [apply steps_vertical; right; repeat split; assumption | lia |].
  exists (k + n')%nat. rewrite steps_add. exact N.
Qed.

(** All balls of a list have stopped after a common number of steps. *)
Lemma vertical_balls_stop (bs : list TennisBall) :
  Forall dropsVertically bs ->
  exists n, forall m b, (n <= m)%nat -> In b bs -> isActive (steps m b) = false.
Proof.
  induction 1 as [|b bs V _ [n IH]].
  - exists 0%nat. intros m b _ [].
  - destruct (vertical_stops (Z.to_nat (11 - bounceCount b)) b V) as [n0 N0];
      [lia|].
    exists (Nat.max n0 n). intros m b' M [<-|I].
    + replace m with (n0 + (m - n0))%nat by lia.
      rewrite steps_add, steps_inactive; exact N0.
    + apply IH; [lia | exact I].
Qed.

(** The loop over the balls, for balls that drop vertically. *)
Lemma updateBalls_vertical (bs : list TennisBall) (rnd : nat -> Z) (i : nat) :
  Forall dropsVertically bs ->
  updateBalls sqrtf bs dt rnd i
  = Some (map step bs, existsb isActive (map step bs)).
Proof.
  intros V. revert i. induction V as [|b bs V _ IH]; intros i; [reflexivity|].
  cbn [updateBalls map existsb].
  rewrite (proj1 (updated_vertical b (rnd i) V)), IH. reflexivity.
Qed.

End AllCourts.

Section AllCourtsRun.

Variables sqrtf cosf sinf : Q -> Q.
Variable RIGHTY_SPEED : Q.

Local Abbreviation tick1 := (Update sqrtf cosf sinf RIGHTY_SPEED).
Local Abbreviation run := (ticks sqrtf cosf sinf RIGHTY_SPEED).

(** A running tick of the all-courts screen. *)
Lemma Update_all_courts (a : D2DApp) (inp : Inputs) :
  currentScreen a = MODE_ALL ->
  simulationStarted a = true ->
  simulationComplete a = false ->
  simulationPaused a = false ->
  Forall dropsVertically (balls a) ->
  exists a',
    tick1 a inp = Some a' /\
    balls a' = map (fun b => updated sqrtf b (DT * visualPaceMultiplier a) 0)
                 (balls a) /\
    simulationComplete a' = negb (existsb isActive (balls a')) /\
    currentScreen a' = MODE_ALL /\
    simulationStarted a' = true /\
    simulationPaused a' = false /\
    visualPaceMultiplier a' = visualPaceMultiplier a.
Proof.
  intros Scr St C P V. unfold Update, moveRighty.
  rewrite St, C, P, Scr. cbn [negb orb]. cbv zeta.
  rewrite Scr, (updateBalls_vertical sqrtf _ (balls a) (rand inp) 0 V).
  cbn [fst snd].
  destruct (existsb isActive _) eqn:E; cbn [negb]; eexists;
    (split; [reflexivity|]); event_fields; rewrite ?E; repeat split; auto.
Qed.

Lemma Update_when_complete (a : D2DApp) (inp : Inputs) :
  simulationComplete a = true -> tick1 a inp = Some a.
Proof. intros C. unfold Update. rewrite C, orb_true_r. reflexivity. Qed.

Lemma ticks_when_complete (n : nat) (a : D2DApp) (inps : nat -> Inputs) :
  simulationComplete a = true -> run n a inps = Some a.
Proof.
  intros C. induction n as [|n IH]; [reflexivity|].
  cbn [ticks]. rewrite IH. apply Update_when_complete, C.
Qed.

(** While the run is not complete the balls are the balls it started
    with, each updated once per tick; when it is complete all of them have
    stopped. *)
Lemma ticks_all_courts (a : D2DApp) (inps : nat -> Inputs) (k : nat) :
  currentScreen a = MODE_ALL ->
  simulationStarted a = true ->
  simulationComplete a = false ->
  simulationPaused a = false ->
  Forall dropsVertically (balls a) ->
  exists a',
    run k a inps = Some a' /\
    currentScreen a' = MODE_ALL /\
    simulationStarted a' = true /\
    simulationPaused a' = false /\
    visualPaceMultiplier a' = visualPaceMultiplier a /\
    (if simulationComplete a'
     then forallb (fun b => negb (isActive b)) (balls a') = true
     else balls a'
          = map (fun b => updatedTimes sqrtf k b (DT * visualPaceMultiplier a))
              (balls a)).
Proof.
  intros Scr St C P V. induction k as [|k [a1 [R [Scr1 [St1 [P1 [V1 B1]]]]]]].
  - exists a. cbn [ticks]. rewrite C. repeat split; try assumption.
    cbn [updatedTimes]. rewrite map_id. reflexivity.
  - cbn [ticks]. rewrite R.
    destruct (simulationComplete a1) eqn:C1.
    + exists a1. rewrite Update_when_complete by exact C1. rewrite C1.
      repeat split; assumption.
    + assert (VB : Forall dropsVertically (balls a1)).
      { rewrite B1. apply Forall_forall. intros b I.
        apply in_map_iff in I as [b0 [<- I0]].
        apply steps_vertical. rewrite Forall_forall in V. apply V, I0. }
      destruct (Update_all_courts a1 (inps k) Scr1 St1 C1 P1 VB)
        as [a2 [U [B2 [C2 [Scr2 [St2 [P2 V2]]]]]]].
      exists a2. split; [exact U|]. rewrite V2, V1.
      repeat (split; [first [assumption | reflexivity]|]).
      rewrite C2. rewrite V1 in B2.
      destruct (existsb isActive (balls a2)) eqn:X; cbn [negb].
      * rewrite B2, B1, map_map. reflexivity.
      * clear - X. induction (balls a2) as [|b bs IHb]; [reflexivity|].
        cbn [existsb forallb] in *. apply orb_false_iff in X as [X1 X2].
        rewrite X1, (IHb X2). reflexivity.
Qed.

Lemma ticks_add (n m : nat) (a : D2DApp) (inps : nat -> Inputs) :
  run (m + n)%nat a inps =
  match run n a inps with
  | Some a' => run m a' (fun k => inps (k + n)%nat)
  | None => None
  end.
Proof.
  induction m as [|m IH].
  - cbn [Nat.add ticks]. destruct (run n a inps); reflexivity.
  - cbn [Nat.add ticks]. rewrite IH.
    destruct (run n a inps); reflexivity.
Qed.

End AllCourtsRun.

(** X14: a comparison run on the all-courts screen ends.  When the four
    balls drop straight down without spin (as they do after SPACE on that
    screen, the constructor giving them no spin), a finite number of ticks
    at a positive visual pace sets [simulationComplete]; from then on the
    ticks change nothing, and all balls have stopped. *)
Theorem all_courts_run_completes :
  forall (sqrtf cosf sinf : Q -> Q) (RIGHTY_SPEED : Q)
         (a : D2DApp) (inps : nat -> Inputs),
  currentScreen a = MODE_ALL ->
  simulationStarted a = true ->
  simulationComplete a = false ->
  simulationPaused a = false ->
  0 < visualPaceMultiplier a ->
  Forall dropsVertically (balls a) ->
  exists n a',
    simulationComplete a' = true /\
    Forall (fun b => isActive b = false) (balls a') /\
    forall m, (n <= m)%nat ->
      ticks sqrtf cosf sinf RIGHTY_SPEED m a inps = Some a'.
Proof.
  intros sqrtf cosf sinf RIGHTY_SPEED a inps Scr St C P V B.
  assert (D : 0 < DT * visualPaceMultiplier a) by (unfold DT; lra).
  destruct (vertical_balls_stop sqrtf _ D (balls a) B) as [N R].
  destruct (ticks_all_courts sqrtf cosf sinf RIGHTY_SPEED a inps N Scr St C P B)
    as [a1 [R1 [Scr1 [St1 [P1 [V1 B1]]]]]].
  assert (E : exists a', ticks sqrtf cosf sinf RIGHTY_SPEED (S N) a inps = Some a'
                         /\ simulationComplete a' = true
                         /\ Forall (fun b => isActive b = false) (balls a')).
  { cbn [ticks]. rewrite R1. destruct (simulationComplete a1) eqn:C1.
    - exists a1. split; [apply Update_when_complete, C1|]. split; [exact C1|].
      apply Forall_forall. intros b I. rewrite forallb_forall in B1.
      apply negb_true_iff, B1, I.
    - assert (VB : Forall dropsVertically (balls a1)).
      { rewrite B1. apply Forall_forall. intros b I.
        apply in_map_iff in I as [b0 [<- I0]].
        apply steps_vertical. rewrite Forall_forall in B. apply B, I0. }
      destruct (Update_all_courts sqrtf cosf sinf RIGHTY_SPEED a1 (inps N)
                  Scr1 St1 C1 P1 VB) as [a2 [U [B2 [C2 _]]]].
      exists a2. split; [exact U|].
      assert (F : Forall (fun b => isActive b = false) (balls a2)).
      { rewrite B2, B1, map_map, V1. apply Forall_forall. intros b I.
        apply in_map_iff in I as [b0 [<- I0]].
        change (isActive (updatedTimes sqrtf (S N) b0
                            (DT * visualPaceMultiplier a)) = false).
        apply R; [lia | exact I0]. }
      split; [|exact F]. rewrite C2. apply negb_true_iff.
      clear - F. induction F as [|b bs A _ IH]; [reflexivity|].
      cbn [existsb]. rewrite A, IH. reflexivity. }
  destruct E as [a' [T [C' F']]].
  exists (S N), a'. split; [exact C'|]. split; [exact F'|].
  intros m M. replace m with ((m - S N) + S N)%nat by lia.
  rewrite ticks_add, T. apply ticks_when_complete, C'.
Qed.

(** From the constructor, SPACE starts the comparison run. *)
Lemma all_courts_run_completes_witness :
  exists n a',
    simulationComplete a' = true /\
    Forall (fun b => isActive b = false) (balls a') /\
    forall m, (n <= m)%nat ->
      ticks sqrt_micro cos_poly sin_poly 4 m
        (StartSimulation cos_poly sin_poly (newD2DApp 270 39 120 2))
        (fun _ => sampleInputs 0 0 0) = Some a'.
Proof.
  apply (all_courts_run_completes sqrt_micro cos_poly sin_poly 4
           (StartSimulation cos_poly sin_poly (newD2DApp 270 39 120 2))
           (fun _ => sampleInputs 0 0 0));
    try reflexivity.
  repeat constructor; right; repeat split; reflexivity.
Defined.

(** *** What every state of a drop satisfies *)

Lemma drop_update_invariant (b : DropSim.TennisBall) (dt : Q) :
  0 <= DropSim.y b ->
  (0 <= DropSim.bounceCount b <= 11)%Z ->
  (DropSim.isActive b = true -> (DropSim.bounceCount b <= 10)%Z) ->
  Z.of_nat (length (DropSim.bounces b)) = Z.min (DropSim.bounceCount b) 3 ->
  0 <= DropSim.y (DropSim.update b dt) /\
  (0 <= DropSim.bounceCount (DropSim.update b dt) <= 11)%Z /\
  (DropSim.isActive (DropSim.update b dt) = true ->
   (DropSim.bounceCount (DropSim.update b dt) <= 10)%Z) /\
  Z.of_nat (length (DropSim.bounces (DropSim.update b dt)))
  = Z.min (DropSim.bounceCount (DropSim.update b dt)) 3 /\
  DropSim.surface (DropSim.update b dt) = DropSim.surface b /\
  length (DropSim.trajectory (DropSim.update b dt))
  = (length (DropSim.trajectory b) + if DropSim.isActive b then 1 else 0)%nat.
Proof.
  intros Y C A L. unfold DropSim.update.
  destruct (DropSim.isActive b) eqn:Act; cbn [negb].
  2:{ rewrite Act. repeat split; try assumption; try lia. }
  specialize (A eq_refl). cbv zeta.
  destruct (Qleb _ 0.0) eqn:G.
  - destruct (Qltb _ 0.1); cbn [orb];
      [|destruct (10 <? DropSim.bounceCount b + 1)%Z eqn:T;
        [|apply Z.ltb_ge in T]];
      cbn [DropSim.y DropSim.bounceCount DropSim.isActive DropSim.bounces
           DropSim.surface DropSim.trajectory];
      (destruct (DropSim.bounceCount b <? 3)%Z eqn:B;
       [apply Z.ltb_lt in B | apply Z.ltb_ge in B]);
      rewrite ?length_app; cbn [length];
      repeat split; try discriminate; try lia; try lra.
  - apply Qleb_gt in G.
    cbn [DropSim.y DropSim.bounceCount DropSim.isActive DropSim.bounces
         DropSim.surface DropSim.trajectory].
    rewrite length_app. cbn [length].
    repeat split; try assumption; try lia; lra.
Qed.

(** X15: what every state of a drop of the first listing satisfies.  From
    [reset] on, after any number of updates with any step, the ball is not
    below the ground, its bounce counter is between 0 and 11 (at most 10
    while it is active), the bounce history holds the first
    min(bounceCount, 3) bounces, the surface is the one it was built with
    and the trajectory holds at most one sample per update after the
    initial one. *)
Theorem drop_states_are_sound :
  forall (b : DropSim.TennisBall) (dt : Q) (n : nat),
  0 <= DropSim.y (DropSim.updates n (DropSim.reset b) dt) /\
  (0 <= DropSim.bounceCount (DropSim.updates n (DropSim.reset b) dt) <= 11)%Z /\
  (DropSim.isActive (DropSim.updates n (DropSim.reset b) dt) = true ->
   (DropSim.bounceCount (DropSim.updates n (DropSim.reset b) dt) <= 10)%Z) /\
  Z.of_nat (length (DropSim.bounces (DropSim.updates n (DropSim.reset b) dt)))
  = Z.min (DropSim.bounceCount (DropSim.updates n (DropSim.reset b) dt)) 3 /\
  DropSim.surface (DropSim.updates n (DropSim.reset b) dt) = DropSim.surface b /\
  (1 <= length (DropSim.trajectory (DropSim.updates n (DropSim.reset b) dt))
     <= n + 1)%nat.
Proof.
  intros b dt n. induction n as [|n [Y [C [A [L [S T]]]]]].
  - cbn. repeat split; try lia; try discriminate;
      try (unfold INITIAL_HEIGHT; lra).
  - cbn [DropSim.updates].
    destruct (drop_update_invariant _ dt Y C A L) as [Y' [C' [A' [L' [S' T']]]]].
    split; [exact Y'|]. split; [exact C'|]. split; [exact A'|].
    split; [exact L'|]. split; [rewrite S'; exact S|].
    rewrite T'. destruct (DropSim.isActive _); lia.
Qed.

(** ** The all-courts screen drops the balls as the first listing does *)

Lemma Qleb_compat (a a' c : Q) : a == a' -> Qleb a c = Qleb a' c.
Proof.
  intros E. destruct (Qleb a c) eqn:H, (Qleb a' c) eqn:H'; try reflexivity;
    [apply Qleb_le in H; apply Qleb_gt in H' | apply Qleb_gt in H; apply Qleb_le in H'];
    lra.
Qed.

Lemma Qltb_abs_compat (v v' c : Q) :
  v == v' -> Qltb (Qabs v) c = Qltb (Qabs v') c.
Proof.
  intros E. assert (A : Qabs v == Qabs v') by (rewrite E; reflexivity).
  destruct (Qltb (Qabs v) c) eqn:H, (Qltb (Qabs v') c) eqn:H'; try reflexivity;
    [apply Qltb_lt in H; apply Qltb_ge in H' | apply Qltb_ge in H; apply Qltb_lt in H'];
    lra.
Qed.

(** [update] on an active ball that drops vertically, in closed form. *)
Lemma court_vertical_update (sqrtf : Q -> Q) (b : TennisBall) (dt : Q) (r : Z) :
  isActive b = true -> vx b == 0 -> x b == 0 -> spinRPM b == 0 ->
  let b1 := {| y := y b + vyAfter sqrtf b dt * dt; vy := vyAfter sqrtf b dt;
               x := x b + vxAfter b dt * dt; vx := vxAfter b dt;
               time := time b + dt; bounceCount := bounceCount b;
               isActive := isActive b; surface := surface b;
               airResistanceCoeff := airResistanceCoeff b; spinRPM := spinRPM b;
               trajectory := trajectory b; bounces := bounces b |} in
  update sqrtf b dt r =
  if Qleb (y b1) 0.0
  then groundCollision (recordTrajectory b1)
  else Some (recordTrajectory b1).
Proof.
  intros A VX X Sp b1.
  pose proof (vxAfter_still b dt VX) as VX1.
  pose proof (integrate_eq sqrtf b dt) as I. fold b1 in I.
  assert (X1 : x b1 == 0) by (cbn [b1 x]; rewrite X, VX1; ring).
  assert (NX : 0 < NET_X) by reflexivity.
  assert (CL : 0 < COURT_LENGTH) by reflexivity.
  assert (N : netCollision (x b) (y b) r b1 = Some b1).
  { apply netCollision_miss. unfold netHit, crossedNet.
    assert (E1 : Qleb NET_X (x b1) = false) by (apply Qleb_gt; lra).
    assert (E2 : Qltb NET_X (x b) = false) by (apply Qltb_ge; lra).
    rewrite E1, E2, andb_false_r. reflexivity. }
  rewrite (update_active sqrtf b dt r b1 b1 A I N).
  assert (OB : forall g, x g == 0 -> outOfBounds g = g).
  { intros g G. unfold outOfBounds.
    assert (E1 : Qltb (x g) 0.0 = false) by (apply Qltb_ge; lra).
    assert (E2 : Qltb COURT_LENGTH (x g) = false) by (apply Qltb_ge; lra).
    rewrite E1, E2. reflexivity. }
  destruct (Qleb (y b1) 0.0) eqn:G.
  - apply Qleb_le in G.
    assert (G' : y (recordTrajectory b1) <= 0.0) by exact G.
    rewrite (groundCollision_bounce _ G'). cbv beta iota zeta.
    rewrite OB by (cbn [x recordTrajectory set_trajectory]; exact X1).
    reflexivity.
  - apply Qleb_gt in G.
    assert (G' : 0.0 < y (recordTrajectory b1)) by exact G.
    rewrite (groundCollision_above _ G'). cbv beta iota.
    rewrite OB by exact X1. reflexivity.
Qed.

Lemma sameDrop_update (sqrtf : Q -> Q) (b : TennisBall) (d : DropSim.TennisBall)
    (dt : Q) (r : Z) :
  dropsVertically b ->
  sameDrop b d ->
  sameDrop (updated sqrtf b dt r) (DropSim.update d dt).
Proof.
  intros V (Y & VY & T & C & A & Su & Tr & Bo).
  destruct (isActive b) eqn:Act.
  2:{ rewrite updated_inactive by exact Act.
      rewrite drop_update_inactive by congruence.
      repeat split; try assumption. congruence. }
  destruct V as [V | (VX & X & Sp)]; [congruence|].
  unfold updated. rewrite (court_vertical_update sqrtf b dt r Act VX X Sp).
  cbv zeta. cbn [y]. symmetry in A.
  pose proof (vyAfter_no_spin sqrtf b dt Sp) as VA.
  assert (VE : vyAfter sqrtf b dt == DropSim.vy d - GRAVITY * dt)
    by (rewrite VA, VY; reflexivity).
  assert (YE : y b + vyAfter sqrtf b dt * dt
               == DropSim.y d + (DropSim.vy d - GRAVITY * dt) * dt)
    by (rewrite VE, Y; reflexivity).
  unfold DropSim.update. rewrite A. cbn [negb]. cbv zeta.
  rewrite (Qleb_compat _ _ 0.0 YE).
  assert (TS : Forall2 sameSample
                 (trajectory b ++
                  [ {| bd_time := time b + dt;
                       bd_height := y b + vyAfter sqrtf b dt * dt |} ])
                 (DropSim.trajectory d ++
                  [ {| bd_time := DropSim.time d + dt;
                       bd_height := DropSim.y d
                                    + (DropSim.vy d - GRAVITY * dt) * dt |} ])).
  { apply Forall2_app; [exact Tr|]. constructor; [|constructor].
    split; cbn [bd_time bd_height]; [rewrite T; reflexivity | exact YE]. }
  destruct (Qleb _ 0.0) eqn:G.
  - match goal with
    | |- context [groundCollision ?g] =>
        assert (G' : y g <= 0.0)
          by (cbn [y recordTrajectory set_trajectory]; apply Qleb_le;
              rewrite (Qleb_compat _ _ 0.0 YE); exact G);
        rewrite (groundCollision_bounce g G')
    end.
    cbv zeta. cbn [recordTrajectory set_trajectory y vy x vx time bounceCount
                   isActive surface spinRPM trajectory bounces].
    assert (RE : - vyAfter sqrtf b dt * coefficientOfRestitution (surface b)
                 == - (DropSim.vy d - GRAVITY * dt)
                    * coefficientOfRestitution (DropSim.surface d))
      by (rewrite VE, Su; reflexivity).
    rewrite (Qltb_abs_compat _ _ 0.1 RE), C.
    assert (BS : Forall2 sameSample
                   (if (DropSim.bounceCount d <? 3)%Z
                    then bounces b ++ [ {| bd_time := time b + dt;
                                           bd_height := 0.0 |} ]
                    else bounces b)
                   (if (DropSim.bounceCount d <? 3)%Z
                    then DropSim.bounces d
                         ++ [ {| bd_time := DropSim.time d + dt;
                                 bd_height := 0.0 |} ]
                    else DropSim.bounces d)).
    { destruct (_ <? 3)%Z; [|exact Bo].
      apply Forall2_app; [exact Bo|]. constructor; [|constructor].
      split; cbn [bd_time bd_height]; [rewrite T; reflexivity | reflexivity]. }
    destruct (Qltb _ 0.1 || _); unfold sameDrop;
      cbn [y vy time bounceCount isActive surface trajectory bounces
           DropSim.y DropSim.vy DropSim.time DropSim.bounceCount
           DropSim.isActive DropSim.surface DropSim.trajectory DropSim.bounces];
      repeat split; try assumption; try reflexivity;
      try (rewrite T; reflexivity); try congruence; lra.
  - unfold sameDrop.
    cbn [recordTrajectory set_trajectory y vy time bounceCount isActive surface
         trajectory bounces
         DropSim.y DropSim.vy DropSim.time DropSim.bounceCount
         DropSim.isActive DropSim.surface DropSim.trajectory DropSim.bounces].
    repeat split; try assumption; try reflexivity;
      try (rewrite T; reflexivity); try congruence; lra.
Qed.

(** X16: on the all-courts screen the second listing drops a ball as the
    first listing does.  For a ball without spin that drops straight down at
    the left end of the court, [n] updates of the second listing give the
    height, velocity, time, bounce counter, activity and both histories that
    [n] updates of the first listing give for the same step. *)
Theorem all_courts_ball_drops_as_in_first_listing :
  forall (sqrtf : Q -> Q) (b : TennisBall) (d : DropSim.TennisBall) (dt : Q)
         (n : nat),
  dropsVertically b ->
  sameDrop b d ->
  sameDrop (updatedTimes sqrtf n b dt) (DropSim.updates n d dt).
Proof.
  intros sqrtf b d dt n V S. induction n as [|n IH]; [exact S|].
  cbn [updatedTimes DropSim.updates].
  apply sameDrop_update; [|exact IH].
  apply steps_vertical, V.
Qed.

(** A ball of each listing after [reset], five updates later. *)
Lemma all_courts_ball_drops_as_in_first_listing_witness :
  sameDrop (updatedTimes sqrt_micro 5 (newTennisBall (court 0)) fastTick)
           (DropSim.updates 5 (DropSim.reset dropBallAtRest) fastTick).
Proof.
  apply (all_courts_ball_drops_as_in_first_listing sqrt_micro
           (newTennisBall (court 0)) (DropSim.reset dropBallAtRest) fastTick 5).
  - right. repeat split; reflexivity.
  - repeat split; try reflexivity.
    repeat constructor; reflexivity.
    constructor.
Defined.

(** ** The net is never passed below its top *)



